(** * EDIFACT examples: segment parsing, escaping, composite elements,
      service-segment extraction and handler routing.

    A shallow embedding of the Go sources of the tutorial repository:
    - [course_fundamental/lesson1/main.go]: delimiters, [ParseSegment],
      [EscapeSpecialCharacters], [UnescapeSpecialCharacters];
    - lesson 2 of the fundamentals (segments and elements): [ParseSegment]
      with per-element analysis;
    - lesson 3 of the fundamentals: [ParseCompositeElement], [ToString];
    - lesson 4 of the fundamentals: [ParseEDIFACTMessage];
    - [course_fundamental/lesson6/main.go]: [extractServiceSegmentInfo];
    - [course_advance/lesson2/main.go]: [MessageDetector] and its handlers.

    Go strings are byte sequences; they are modelled by [string], whose
    characters are the bytes.  The functions of Go's [strings] and
    [unicode/utf8] packages that the sources call are modelled first. *)

From Stdlib Require Import String Ascii List NArith ZArith Bool Arith Lia DecimalString Sorted.
From stdpp Require Import base strings gmap.

Local Open Scope string_scope.
Local Open Scope list_scope.

(** stdpp keeps [simpl] from unfolding [String.append]; the proofs below
    compute with it. *)
#[local] Arguments String.append !_ _ / : simpl nomatch.

(** ** Go's [unicode/utf8]: width of the first encoded rune *)

Module Utf8.

Definition byte_val (c : ascii) : N := N_of_ascii c.

Definition in_range (lo hi b : N) : bool := ((lo <=? b) && (b <=? hi))%N.

(** The [first] table together with [acceptRanges]: for a leading byte,
    the size of the sequence and the range accepted for the second byte;
    [None] for a byte that cannot start a sequence. *)
Definition first (b0 : N) : option (nat * N * N) :=
  (if b0 <? 0x80 then Some (1%nat, 0, 0)
   else if b0 <? 0xC2 then None
   else if b0 <=? 0xDF then Some (2%nat, 0x80, 0xBF)
   else if b0 =? 0xE0 then Some (3%nat, 0xA0, 0xBF)
   else if b0 =? 0xED then Some (3%nat, 0x80, 0x9F)
   else if b0 <=? 0xEF then Some (3%nat, 0x80, 0xBF)
   else if b0 =? 0xF0 then Some (4%nat, 0x90, 0xBF)
   else if b0 <=? 0xF3 then Some (4%nat, 0x80, 0xBF)
   else if b0 =? 0xF4 then Some (4%nat, 0x80, 0x8F)
   else None)%N.

Definition cont (c : ascii) : bool := in_range 0x80 0xBF (byte_val c).

(** The size component of [DecodeRuneInString]: 0 on the empty string,
    1 on an invalid or truncated sequence. *)
Definition width (s : string) : nat :=
  match s with
  | EmptyString => 0
  | String c0 rest =>
    match first (byte_val c0) with
    | None => 1
    | Some (sz, lo, hi) =>
      if Nat.leb sz 1 then 1
      else if Nat.ltb (String.length s) sz then 1
      else match rest with
           | EmptyString => 1
           | String c1 r1 =>
             if negb (in_range lo hi (byte_val c1)) then 1
             else if Nat.leb sz 2 then 2
             else match r1 with
                  | EmptyString => 1
                  | String c2 r2 =>
                    if negb (cont c2) then 1
                    else if Nat.leb sz 3 then 3
                    else match r2 with
                         | EmptyString => 1
                         | String c3 _ => if negb (cont c3) then 1 else 4
                         end
                  end
           end
    end
  end.

End Utf8.

(** ** Go's [strings] package *)

Module GoStrings.

(** [s[n:]] *)
Fixpoint drop (n : nat) (s : string) : string :=
  match n, s with
  | S k, String _ rest => drop k rest
  | _, _ => s
  end.

(** [s[:n]] *)
Fixpoint take (n : nat) (s : string) : string :=
  match n, s with
  | S k, String c rest => String c (take k rest)
  | _, _ => EmptyString
  end.

(** [explode]: the string cut into its UTF-8 sequences.  [explode_go k s]
    returns the remaining [k] bytes of the sequence being read and the
    sequences after it. *)
Fixpoint explode_go (k : nat) (s : string) : string * list string :=
  match s with
  | EmptyString => (EmptyString, [])
  | String c rest =>
    match k with
    | S k' => let '(p, ps) := explode_go k' rest in (String c p, ps)
    | O => let '(p, ps) := explode_go (Utf8.width s - 1) rest in
           (EmptyString, String c p :: ps)
    end
  end.

Definition explode (s : string) : list string := snd (explode_go 0 s).

(** The scan of [genSplit] for a non-empty separator: [split_go sep k s]
    skips [k] bytes (the rest of a separator just matched) and returns the
    piece being read and the pieces after it. *)
Fixpoint split_go (sep : string) (k : nat) (s : string) : string * list string :=
  match s with
  | EmptyString => (EmptyString, [])
  | String c rest =>
    match k with
    | S k' => split_go sep k' rest
    | O =>
      if String.prefix sep s
      then (EmptyString,
            let '(p, ps) := split_go sep (String.length sep - 1) rest in p :: ps)
      else let '(p, ps) := split_go sep 0 rest in (String c p, ps)
    end
  end.

(** [strings.Split(s, sep)] *)
Definition Split (s sep : string) : list string :=
  match sep with
  | EmptyString => explode s
  | _ => let '(p, ps) := split_go sep 0 s in p :: ps
  end.

(** [strings.Join(elems, sep)] *)
Fixpoint Join (elems : list string) (sep : string) : string :=
  match elems with
  | [] => EmptyString
  | x :: xs =>
    match xs with
    | [] => x
    | _ => x +:+ sep +:+ Join xs sep
    end
  end.

(** [strings.HasSuffix(s, suffix)] *)
Definition HasSuffix (s suffix : string) : bool :=
  Nat.leb (String.length suffix) (String.length s) &&
  String.eqb (drop (String.length s - String.length suffix) s) suffix.

(** [strings.TrimSuffix(s, suffix)] *)
Definition TrimSuffix (s suffix : string) : string :=
  if HasSuffix s suffix
  then take (String.length s - String.length suffix) s
  else s.

(** [strings.Contains(s, substr)] *)
Fixpoint Contains (s substr : string) : bool :=
  String.prefix substr s ||
  match s with
  | EmptyString => false
  | String _ rest => Contains rest substr
  end.

(** The scan of [Replace] for a non-empty [old]: leftmost occurrences,
    not overlapping; [k] is the number of bytes of a matched [old] still
    to skip. *)
Fixpoint replace_go (old new : string) (k : nat) (s : string) : string :=
  match s with
  | EmptyString => EmptyString
  | String c rest =>
    match k with
    | S k' => replace_go old new k' rest
    | O =>
      if String.prefix old s
      then new +:+ replace_go old new (String.length old - 1) rest
      else String c (replace_go old new 0 rest)
    end
  end.

(** [strings.ReplaceAll(s, old, new)] *)
Definition ReplaceAll (s old new : string) : string :=
  if String.eqb old new then s
  else match old with
       | EmptyString =>
         new +:+ fold_right (fun r acc => r +:+ new +:+ acc) EmptyString (explode s)
       | _ => replace_go old new 0 s
       end.

(** The scan of [Count] for a non-empty [substr]: occurrences from the
    left, not overlapping. *)
Fixpoint count_go (substr : string) (k : nat) (s : string) : nat :=
  match s with
  | EmptyString => 0
  | String c rest =>
    match k with
    | S k' => count_go substr k' rest
    | O =>
      if String.prefix substr s
      then S (count_go substr (String.length substr - 1) rest)
      else count_go substr 0 rest
    end
  end.

(** [strings.Count(s, substr)] *)
Definition Count (s substr : string) : nat :=
  match substr with
  | EmptyString => List.length (explode s) + 1
  | _ => count_go substr 0 s
  end.

End GoStrings.

Import GoStrings.

(** ** Shared data model *)

(** [EDIFACTDelimiters]: the same struct is declared in lessons 1, 2 and 3. *)
Record EDIFACTDelimiters := mkDelimiters {
  SegmentTerminator : string;
  DataElementSeparator : string;
  ComponentSeparator : string;
  ReleaseCharacter : string
}.

(** The delimiters every [main] builds. *)
Definition standard_delimiters : EDIFACTDelimiters :=
  {| SegmentTerminator := "'";
     DataElementSeparator := "+";
     ComponentSeparator := ":";
     ReleaseCharacter := "?" |}.

(** A Go result pair [(value, error)] of which exactly one side is set. *)
Inductive result (A : Type) : Type :=
| Ok (a : A)
| Err (msg : string).
Arguments Ok {A} a.
Arguments Err {A} msg.

(** A Go [error] value: [None] is [nil]. *)
Definition error : Type := option string.

(** The verb [%d] of [fmt] on an [int]. *)
Definition Sprintf_d (z : Z) : string := NilZero.string_of_int (Z.to_int z).

(** [len(l) > n] and [len(l) >= n] on slices. *)
Definition len_gt {A} (l : list A) (n : nat) : bool := Nat.ltb n (List.length l).
Definition len_ge {A} (l : list A) (n : nat) : bool := Nat.leb n (List.length l).

(** [l[i]] on a slice of strings, read under a length guard. *)
Definition at_index (l : list string) (i : nat) : string := nth i l EmptyString.

(** ** Lesson 1 of the fundamentals: syntax and delimiters *)

Module Lesson1.

Record EDIFACTSegment := mkSegment {
  Tag : string;
  Elements : list string;
  Delimiters : EDIFACTDelimiters
}.

Definition NewEDIFACTSegment (tag : string) (delimiters : EDIFACTDelimiters)
  : EDIFACTSegment :=
  {| Tag := tag; Elements := []; Delimiters := delimiters |}.

Definition AddElement (s : EDIFACTSegment) (element : string) : EDIFACTSegment :=
  {| Tag := Tag s; Elements := Elements s ++ [element]; Delimiters := Delimiters s |}.

Definition AddEmptyElement (s : EDIFACTSegment) : EDIFACTSegment :=
  {| Tag := Tag s; Elements := Elements s ++ [EmptyString];
     Delimiters := Delimiters s |}.

Definition ToString (s : EDIFACTSegment) : string :=
  let parts := fold_left (fun parts element => parts ++ [element]) (Elements s) [Tag s] in
  Join parts (DataElementSeparator (Delimiters s))
  +:+ SegmentTerminator (Delimiters s).

Definition ParseSegment (segmentStr : string) (delimiters : EDIFACTDelimiters)
  : result EDIFACTSegment :=
  let segmentStr := TrimSuffix segmentStr (SegmentTerminator delimiters) in
  let parts := Split segmentStr (DataElementSeparator delimiters) in
  match parts with
  | [] => Err "empty segment"
  | p0 :: rest =>
    Ok (fold_left
          (fun segment p =>
             {| Tag := Tag segment; Elements := Elements segment ++ [p];
                Delimiters := Delimiters segment |})
          rest (NewEDIFACTSegment p0 delimiters))
  end.

Definition EscapeSpecialCharacters (data : string) (delimiters : EDIFACTDelimiters)
  : string :=
  let rc := ReleaseCharacter delimiters in
  let result := data in
  let result := ReplaceAll result rc (rc +:+ rc) in
  let result := ReplaceAll result (DataElementSeparator delimiters)
                           (rc +:+ DataElementSeparator delimiters) in
  let result := ReplaceAll result (ComponentSeparator delimiters)
                           (rc +:+ ComponentSeparator delimiters) in
  let result := ReplaceAll result (SegmentTerminator delimiters)
                           (rc +:+ SegmentTerminator delimiters) in
  result.

Definition UnescapeSpecialCharacters (data : string) (delimiters : EDIFACTDelimiters)
  : string :=
  let rc := ReleaseCharacter delimiters in
  let result := data in
  let result := ReplaceAll result (rc +:+ SegmentTerminator delimiters)
                           (SegmentTerminator delimiters) in
  let result := ReplaceAll result (rc +:+ ComponentSeparator delimiters)
                           (ComponentSeparator delimiters) in
  let result := ReplaceAll result (rc +:+ DataElementSeparator delimiters)
                           (DataElementSeparator delimiters) in
  let result := ReplaceAll result (rc +:+ rc) rc in
  result.

End Lesson1.

(** ** Lesson 2 of the fundamentals: segments and elements *)

Module Lesson2.

Record EDIFACTElement := mkElement {
  Position : Z;
  Value : string;
  IsEmpty : bool;
  IsComposite : bool;
  Components : list string
}.

Record EDIFACTSegment := mkSegment {
  Tag : string;
  Elements : list EDIFACTElement;
  Delimiters : EDIFACTDelimiters
}.

Definition NewEDIFACTSegment (tag : string) (delimiters : EDIFACTDelimiters)
  : EDIFACTSegment :=
  {| Tag := tag; Elements := []; Delimiters := delimiters |}.

Definition AddElement (s : EDIFACTSegment) (value : string) : EDIFACTSegment :=
  let composite := Contains value (ComponentSeparator (Delimiters s)) in
  let element :=
    {| Position := Z.of_nat (List.length (Elements s)) + 1;
       Value := value;
       IsEmpty := String.eqb value EmptyString;
       IsComposite := composite;
       Components :=
         if composite then Split value (ComponentSeparator (Delimiters s)) else [] |} in
  {| Tag := Tag s; Elements := Elements s ++ [element]; Delimiters := Delimiters s |}.

(** [EDIFACTElement{}] *)
Definition zero_element : EDIFACTElement :=
  {| Position := 0; Value := EmptyString; IsEmpty := false; IsComposite := false;
     Components := [] |}.

(** [GetElement]: positions count from 1. *)
Definition GetElement (s : EDIFACTSegment) (position : Z) : result EDIFACTElement :=
  if (position <? 1)%Z || (Z.of_nat (List.length (Elements s)) <? position)%Z
  then Err ("element position " +:+ Sprintf_d position +:+ " out of range")
  else Ok (nth (Z.to_nat (position - 1)) (Elements s) zero_element).

Definition serviceTags : list string :=
  ["UNH"; "UNT"; "UNS"; "UNZ"; "UNB"; "UNZ"; "UNG"; "UNE"].

Definition IsServiceSegment (s : EDIFACTSegment) : bool :=
  existsb (fun tag => String.eqb (Tag s) tag) serviceTags.

Definition GetElementCount (s : EDIFACTSegment) : nat := List.length (Elements s).

Definition ToString (s : EDIFACTSegment) : string :=
  let parts := fold_left (fun parts element => parts ++ [Value element]) (Elements s) [Tag s] in
  Join parts (DataElementSeparator (Delimiters s))
  +:+ SegmentTerminator (Delimiters s).

Definition ParseSegment (segmentStr : string) (delimiters : EDIFACTDelimiters)
  : result EDIFACTSegment :=
  let segmentStr := TrimSuffix segmentStr (SegmentTerminator delimiters) in
  let parts := Split segmentStr (DataElementSeparator delimiters) in
  match parts with
  | [] => Err "empty segment"
  | p0 :: rest => Ok (fold_left AddElement rest (NewEDIFACTSegment p0 delimiters))
  end.

End Lesson2.

(** ** Lesson 3 of the fundamentals: composite elements *)

Module Lesson3.

Record CompositeElement := mkComposite {
  Components : list string;
  Qualifier : string;
  Value : string;
  Format : string
}.

Definition ParseCompositeElement (elementStr : string) (delimiters : EDIFACTDelimiters)
  : CompositeElement :=
  let components := Split elementStr (ComponentSeparator delimiters) in
  {| Components := components;
     Qualifier := if len_ge components 1 then at_index components 0 else EmptyString;
     Value := if len_ge components 2 then at_index components 1 else EmptyString;
     Format := if len_ge components 3 then at_index components 2 else EmptyString |}.

(** [GetComponent]: positions count from 1. *)
Definition GetComponent (c : CompositeElement) (position : Z) : result string :=
  if (position <? 1)%Z || (Z.of_nat (List.length (Components c)) <? position)%Z
  then Err ("component position " +:+ Sprintf_d position +:+ " out of range")
  else Ok (at_index (Components c) (Z.to_nat (position - 1))).

Definition IsEmptyComponent (c : CompositeElement) (position : Z) : bool :=
  if (position <? 1)%Z || (Z.of_nat (List.length (Components c)) <? position)%Z
  then true
  else String.eqb (at_index (Components c) (Z.to_nat (position - 1))) EmptyString.

Definition GetComponentCount (c : CompositeElement) : nat :=
  List.length (Components c).

Definition ToString (c : CompositeElement) (delimiters : EDIFACTDelimiters) : string :=
  Join (Components c) (ComponentSeparator delimiters).

End Lesson3.

(** ** Lesson 4 of the fundamentals: message structure *)

Module Lesson4.

Record Segment := mkSegment {
  Tag : string;
  Elements : list string;
  Position : Z
}.

Record SegmentGroup := mkGroup {
  Name : string;
  GroupSegments : list Segment;
  Repeat : Z
}.

Record EDIFACTMessage := mkMessage {
  MessageType : string;
  Segments : list Segment;
  Groups : list SegmentGroup;
  RawContent : string
}.

(** The body of the [for i, segmentStr := range segments] loop, from index
    [i] on. *)
Fixpoint parse_loop (i : Z) (segments : list string) (message : EDIFACTMessage)
  : EDIFACTMessage :=
  match segments with
  | [] => message
  | segmentStr :: more =>
    if String.eqb segmentStr EmptyString then parse_loop (i + 1) more message
    else
      match Split segmentStr "+" with
      | [] => parse_loop (i + 1) more message
      | p0 :: elems =>
        let segment := {| Tag := p0; Elements := elems; Position := i |} in
        let message :=
          {| MessageType := MessageType message;
             Segments := Segments message ++ [segment];
             Groups := Groups message;
             RawContent := RawContent message |} in
        let message :=
          if String.eqb (Tag segment) "UNH" && len_gt (Elements segment) 1
          then match Split (at_index (Elements segment) 1) ":" with
               | [] => message
               | t :: _ =>
                 {| MessageType := t;
                    Segments := Segments message;
                    Groups := Groups message;
                    RawContent := RawContent message |}
               end
          else message in
        parse_loop (i + 1) more message
      end
  end.

Definition ParseEDIFACTMessage (rawContent : string) : EDIFACTMessage :=
  let message :=
    {| MessageType := EmptyString; Segments := []; Groups := [];
       RawContent := rawContent |} in
  parse_loop 0 (Split rawContent "'") message.

(** *** The message analyzer *)

(** The records below carry a prefix on their fields, which share their
    names with those of [Segment], [SegmentGroup] and [EDIFACTMessage]. *)
Record GroupDefinition := mkGroupDefinition {
  gdName : string;
  gdTriggerSegment : string;
  gdSegments : list string;
  gdRepeatable : bool
}.

Record MessageTypeDefinition := mkDefinition {
  mtName : string;
  mtMandatorySegs : list string;
  mtOptionalSegs : list string;
  mtSegmentGroups : list GroupDefinition;
  mtSegmentOrder : list string
}.

Record MessageAnalyzer := mkAnalyzer {
  messageTypes : gmap string MessageTypeDefinition
}.

Record GroupAnalysis := mkGroupAnalysis {
  gaName : string;
  gaSegments : list Segment;
  gaCount : Z
}.

Record MessageAnalysis := mkAnalysis {
  maMessageType : string;
  maValid : bool;
  maErrors : list string;
  maWarnings : list string;
  maSegmentCount : Z;
  maGroups : list GroupAnalysis
}.

Definition lineItemGroup : GroupDefinition :=
  {| gdName := "Line Item Group"; gdTriggerSegment := "LIN";
     gdSegments := ["LIN"; "QTY"; "PRI"]; gdRepeatable := true |}.

Definition invoicDefinition : MessageTypeDefinition :=
  {| mtName := "INVOIC";
     mtMandatorySegs := ["UNH"; "BGM"; "UNT"];
     mtOptionalSegs := ["DTM"; "NAD"; "LIN"; "QTY"; "PRI"];
     mtSegmentGroups := [lineItemGroup];
     mtSegmentOrder := ["UNH"; "BGM"; "DTM"; "NAD"; "LIN"; "QTY"; "PRI"; "UNT"] |}.

Definition ordersDefinition : MessageTypeDefinition :=
  {| mtName := "ORDERS";
     mtMandatorySegs := ["UNH"; "BGM"; "UNT"];
     mtOptionalSegs := ["DTM"; "NAD"; "LIN"; "QTY"; "PRI"];
     mtSegmentGroups := [lineItemGroup];
     mtSegmentOrder := ["UNH"; "BGM"; "DTM"; "NAD"; "LIN"; "QTY"; "PRI"; "UNT"] |}.

Definition registerMessageTypes (ma : MessageAnalyzer) : MessageAnalyzer :=
  {| messageTypes :=
       <["ORDERS" := ordersDefinition]>
         (<["INVOIC" := invoicDefinition]> (messageTypes ma)) |}.

Definition NewMessageAnalyzer : MessageAnalyzer :=
  registerMessageTypes {| messageTypes := ∅ |}.

(** [analysis.Valid = false] followed by an [append] to [analysis.Errors]. *)
Definition reject (analysis : MessageAnalysis) (msg : string) : MessageAnalysis :=
  {| maMessageType := maMessageType analysis;
     maValid := false;
     maErrors := maErrors analysis ++ [msg];
     maWarnings := maWarnings analysis;
     maSegmentCount := maSegmentCount analysis;
     maGroups := maGroups analysis |}.

Definition validateMandatorySegments (message : EDIFACTMessage)
           (definition : MessageTypeDefinition) (analysis : MessageAnalysis)
  : MessageAnalysis :=
  let foundSegments : gmap string bool :=
    fold_left (fun found segment => <[Tag segment := true]> found)
              (Segments message) ∅ in
  fold_left
    (fun analysis mandatory =>
       if negb (default false (foundSegments !! mandatory))
       then reject analysis ("Missing mandatory segment: " +:+ mandatory)
       else analysis)
    (mtMandatorySegs definition) analysis.

(** [Segment{}], what an index outside a slice would read. *)
Definition zero_segment : Segment :=
  {| Tag := EmptyString; Elements := []; Position := 0 |}.

Definition validateSegmentOrder (message : EDIFACTMessage)
           (definition : MessageTypeDefinition) (analysis : MessageAnalysis)
  : MessageAnalysis :=
  let segments := Segments message in
  if Nat.ltb (List.length segments) 2
  then reject analysis "Message too short"
  else
    let analysis :=
      if negb (String.eqb (Tag (nth 0 segments zero_segment)) "UNH")
      then reject analysis "UNH must be the first segment" else analysis in
    let analysis :=
      if negb (String.eqb (Tag (nth (List.length segments - 1) segments zero_segment))
                          "UNT")
      then reject analysis "UNT must be the last segment" else analysis in
    analysis.

(** The analysis of one group: the inner loop with its [break] appends a
    segment once when its tag is one of the group's. *)
Definition analyzeGroup (message : EDIFACTMessage) (groupDef : GroupDefinition)
  : GroupAnalysis :=
  let segments :=
    fold_left
      (fun acc segment =>
         if existsb (fun groupSegment => String.eqb (Tag segment) groupSegment)
                    (gdSegments groupDef)
         then acc ++ [segment] else acc)
      (Segments message) [] in
  let triggerCount :=
    fold_left
      (fun n segment =>
         if String.eqb (Tag segment) (gdTriggerSegment groupDef)
         then (n + 1)%Z else n)
      segments 0%Z in
  {| gaName := gdName groupDef; gaSegments := segments; gaCount := triggerCount |}.

Definition analyzeSegmentGroups (message : EDIFACTMessage)
           (definition : MessageTypeDefinition) (analysis : MessageAnalysis)
  : MessageAnalysis :=
  fold_left
    (fun analysis groupDef =>
       {| maMessageType := maMessageType analysis;
          maValid := maValid analysis;
          maErrors := maErrors analysis;
          maWarnings := maWarnings analysis;
          maSegmentCount := maSegmentCount analysis;
          maGroups := maGroups analysis ++ [analyzeGroup message groupDef] |})
    (mtSegmentGroups definition) analysis.

Definition AnalyzeMessage (ma : MessageAnalyzer) (message : EDIFACTMessage)
  : MessageAnalysis :=
  let analysis :=
    {| maMessageType := MessageType message; maValid := true; maErrors := [];
       maWarnings := []; maSegmentCount := 0; maGroups := [] |} in
  match messageTypes ma !! MessageType message with
  | None => reject analysis ("Unknown message type: " +:+ MessageType message)
  | Some definition =>
    let analysis := validateMandatorySegments message definition analysis in
    let analysis := validateSegmentOrder message definition analysis in
    let analysis := analyzeSegmentGroups message definition analysis in
    {| maMessageType := maMessageType analysis;
       maValid := maValid analysis;
       maErrors := maErrors analysis;
       maWarnings := maWarnings analysis;
       maSegmentCount := Z.of_nat (List.length (Segments message));
       maGroups := maGroups analysis |}
  end.

End Lesson4.

(** ** Lesson 6 of the fundamentals: service segments *)

Module Lesson6.

Record Segment := mkSegment {
  Tag : string;
  Elements : list string;
  Position : Z;
  Raw : string
}.

(** The fields carry an [i] prefix: they share their names with those of
    [Segment].  [Timestamp] holds the clock reading. *)
Record ServiceSegmentInfo := mkInfo {
  iTag : string;
  iElements : list string;
  iPosition : Z;
  iTimestamp : Z;
  iMessageType : string;
  iReferenceNumber : string;
  iSegmentCount : string;
  iSyntaxIdentifier : string;
  iSenderID : string;
  iReceiverID : string;
  iDateTime : string;
  iControlReference : string;
  iMessageCount : string;
  iRelease : string;
  iVersion : string
}.

Definition set_MessageType (v : string) (info : ServiceSegmentInfo) : ServiceSegmentInfo :=
  {| iTag := iTag info; iElements := iElements info;
     iPosition := iPosition info; iTimestamp := iTimestamp info;
     iMessageType := v; iReferenceNumber := iReferenceNumber info;
     iSegmentCount := iSegmentCount info;
     iSyntaxIdentifier := iSyntaxIdentifier info;
     iSenderID := iSenderID info; iReceiverID := iReceiverID info;
     iDateTime := iDateTime info;
     iControlReference := iControlReference info;
     iMessageCount := iMessageCount info; iRelease := iRelease info;
     iVersion := iVersion info |}.

Definition set_ReferenceNumber (v : string) (info : ServiceSegmentInfo) : ServiceSegmentInfo :=
  {| iTag := iTag info; iElements := iElements info;
     iPosition := iPosition info; iTimestamp := iTimestamp info;
     iMessageType := iMessageType info; iReferenceNumber := v;
     iSegmentCount := iSegmentCount info;
     iSyntaxIdentifier := iSyntaxIdentifier info;
     iSenderID := iSenderID info; iReceiverID := iReceiverID info;
     iDateTime := iDateTime info;
     iControlReference := iControlReference info;
     iMessageCount := iMessageCount info; iRelease := iRelease info;
     iVersion := iVersion info |}.

Definition set_SegmentCount (v : string) (info : ServiceSegmentInfo) : ServiceSegmentInfo :=
  {| iTag := iTag info; iElements := iElements info;
     iPosition := iPosition info; iTimestamp := iTimestamp info;
     iMessageType := iMessageType info;
     iReferenceNumber := iReferenceNumber info; iSegmentCount := v;
     iSyntaxIdentifier := iSyntaxIdentifier info;
     iSenderID := iSenderID info; iReceiverID := iReceiverID info;
     iDateTime := iDateTime info;
     iControlReference := iControlReference info;
     iMessageCount := iMessageCount info; iRelease := iRelease info;
     iVersion := iVersion info |}.

Definition set_SyntaxIdentifier (v : string) (info : ServiceSegmentInfo) : ServiceSegmentInfo :=
  {| iTag := iTag info; iElements := iElements info;
     iPosition := iPosition info; iTimestamp := iTimestamp info;
     iMessageType := iMessageType info;
     iReferenceNumber := iReferenceNumber info;
     iSegmentCount := iSegmentCount info; iSyntaxIdentifier := v;
     iSenderID := iSenderID info; iReceiverID := iReceiverID info;
     iDateTime := iDateTime info;
     iControlReference := iControlReference info;
     iMessageCount := iMessageCount info; iRelease := iRelease info;
     iVersion := iVersion info |}.

Definition set_SenderID (v : string) (info : ServiceSegmentInfo) : ServiceSegmentInfo :=
  {| iTag := iTag info; iElements := iElements info;
     iPosition := iPosition info; iTimestamp := iTimestamp info;
     iMessageType := iMessageType info;
     iReferenceNumber := iReferenceNumber info;
     iSegmentCount := iSegmentCount info;
     iSyntaxIdentifier := iSyntaxIdentifier info; iSenderID := v;
     iReceiverID := iReceiverID info; iDateTime := iDateTime info;
     iControlReference := iControlReference info;
     iMessageCount := iMessageCount info; iRelease := iRelease info;
     iVersion := iVersion info |}.

Definition set_ReceiverID (v : string) (info : ServiceSegmentInfo) : ServiceSegmentInfo :=
  {| iTag := iTag info; iElements := iElements info;
     iPosition := iPosition info; iTimestamp := iTimestamp info;
     iMessageType := iMessageType info;
     iReferenceNumber := iReferenceNumber info;
     iSegmentCount := iSegmentCount info;
     iSyntaxIdentifier := iSyntaxIdentifier info;
     iSenderID := iSenderID info; iReceiverID := v;
     iDateTime := iDateTime info;
     iControlReference := iControlReference info;
     iMessageCount := iMessageCount info; iRelease := iRelease info;
     iVersion := iVersion info |}.

Definition set_DateTime (v : string) (info : ServiceSegmentInfo) : ServiceSegmentInfo :=
  {| iTag := iTag info; iElements := iElements info;
     iPosition := iPosition info; iTimestamp := iTimestamp info;
     iMessageType := iMessageType info;
     iReferenceNumber := iReferenceNumber info;
     iSegmentCount := iSegmentCount info;
     iSyntaxIdentifier := iSyntaxIdentifier info;
     iSenderID := iSenderID info; iReceiverID := iReceiverID info;
     iDateTime := v; iControlReference := iControlReference info;
     iMessageCount := iMessageCount info; iRelease := iRelease info;
     iVersion := iVersion info |}.

Definition set_ControlReference (v : string) (info : ServiceSegmentInfo) : ServiceSegmentInfo :=
  {| iTag := iTag info; iElements := iElements info;
     iPosition := iPosition info; iTimestamp := iTimestamp info;
     iMessageType := iMessageType info;
     iReferenceNumber := iReferenceNumber info;
     iSegmentCount := iSegmentCount info;
     iSyntaxIdentifier := iSyntaxIdentifier info;
     iSenderID := iSenderID info; iReceiverID := iReceiverID info;
     iDateTime := iDateTime info; iControlReference := v;
     iMessageCount := iMessageCount info; iRelease := iRelease info;
     iVersion := iVersion info |}.

Definition set_MessageCount (v : string) (info : ServiceSegmentInfo) : ServiceSegmentInfo :=
  {| iTag := iTag info; iElements := iElements info;
     iPosition := iPosition info; iTimestamp := iTimestamp info;
     iMessageType := iMessageType info;
     iReferenceNumber := iReferenceNumber info;
     iSegmentCount := iSegmentCount info;
     iSyntaxIdentifier := iSyntaxIdentifier info;
     iSenderID := iSenderID info; iReceiverID := iReceiverID info;
     iDateTime := iDateTime info;
     iControlReference := iControlReference info; iMessageCount := v;
     iRelease := iRelease info; iVersion := iVersion info |}.

Definition set_Release (v : string) (info : ServiceSegmentInfo) : ServiceSegmentInfo :=
  {| iTag := iTag info; iElements := iElements info;
     iPosition := iPosition info; iTimestamp := iTimestamp info;
     iMessageType := iMessageType info;
     iReferenceNumber := iReferenceNumber info;
     iSegmentCount := iSegmentCount info;
     iSyntaxIdentifier := iSyntaxIdentifier info;
     iSenderID := iSenderID info; iReceiverID := iReceiverID info;
     iDateTime := iDateTime info;
     iControlReference := iControlReference info;
     iMessageCount := iMessageCount info; iRelease := v;
     iVersion := iVersion info |}.

Definition set_Version (v : string) (info : ServiceSegmentInfo) : ServiceSegmentInfo :=
  {| iTag := iTag info; iElements := iElements info;
     iPosition := iPosition info; iTimestamp := iTimestamp info;
     iMessageType := iMessageType info;
     iReferenceNumber := iReferenceNumber info;
     iSegmentCount := iSegmentCount info;
     iSyntaxIdentifier := iSyntaxIdentifier info;
     iSenderID := iSenderID info; iReceiverID := iReceiverID info;
     iDateTime := iDateTime info;
     iControlReference := iControlReference info;
     iMessageCount := iMessageCount info; iRelease := iRelease info;
     iVersion := v |}.

(** [extractServiceSegmentInfo]; [now] is what [time.Now()] returns. *)
Definition extractServiceSegmentInfo (now : Z) (segment : Segment) : ServiceSegmentInfo :=
  let elems := Elements segment in
  let info :=
    {| iTag := Tag segment; iElements := elems; iPosition := Position segment;
       iTimestamp := now;
       iMessageType := EmptyString; iReferenceNumber := EmptyString;
       iSegmentCount := EmptyString; iSyntaxIdentifier := EmptyString;
       iSenderID := EmptyString; iReceiverID := EmptyString;
       iDateTime := EmptyString; iControlReference := EmptyString;
       iMessageCount := EmptyString; iRelease := EmptyString;
       iVersion := EmptyString |} in
  if String.eqb (Tag segment) "UNH" then
    let info :=
      if len_ge elems 2 then
        let msgTypeParts := Split (at_index elems 1) ":" in
        let info :=
          if len_ge msgTypeParts 1
          then set_MessageType (at_index msgTypeParts 0) info else info in
        let info :=
          if len_ge msgTypeParts 4
          then set_Version (at_index msgTypeParts 3)
                 (set_Release (at_index msgTypeParts 2) info)
          else info in
        info
      else info in
    if len_ge elems 1 then set_ReferenceNumber (at_index elems 0) info else info
  else if String.eqb (Tag segment) "UNT" then
    let info :=
      if len_ge elems 1 then set_SegmentCount (at_index elems 0) info else info in
    if len_ge elems 2 then set_ReferenceNumber (at_index elems 1) info else info
  else if String.eqb (Tag segment) "UNB" then
    let info :=
      if len_ge elems 1 then set_SyntaxIdentifier (at_index elems 0) info else info in
    let info :=
      if len_ge elems 3 then set_SenderID (at_index elems 2) info else info in
    let info :=
      if len_ge elems 4 then set_ReceiverID (at_index elems 3) info else info in
    let info :=
      if len_ge elems 5 then set_DateTime (at_index elems 4) info else info in
    if len_ge elems 6 then set_ControlReference (at_index elems 5) info else info
  else if String.eqb (Tag segment) "UNZ" then
    let info :=
      if len_ge elems 1 then set_MessageCount (at_index elems 0) info else info in
    if len_ge elems 2 then set_ControlReference (at_index elems 1) info else info
  else info.

(** [validateUNH]; [None] is a [nil] error. *)
Definition validateUNH (segment : Segment) : error :=
  if negb (len_ge (Elements segment) 2)
  then Some "UNH must have at least 2 elements"
  else
    let msgTypeParts := Split (at_index (Elements segment) 1) ":" in
    if negb (len_ge msgTypeParts 4)
    then Some "invalid message type format in UNH"
    else
      let release := at_index msgTypeParts 2 in
      let version := at_index msgTypeParts 3 in
      if String.eqb release EmptyString || String.eqb version EmptyString
      then Some "invalid release/version in UNH"
      else None.

(** [validateUNT] *)
Definition validateUNT (segment : Segment) : error :=
  if negb (len_ge (Elements segment) 2)
  then Some "UNT must have at least 2 elements"
  else if String.eqb (at_index (Elements segment) 0) EmptyString
  then Some "segment count missing in UNT"
  else if String.eqb (at_index (Elements segment) 1) EmptyString
  then Some "reference number missing in UNT"
  else None.

(** [validateUNB] *)
Definition validateUNB (segment : Segment) : error :=
  let elems := Elements segment in
  if negb (len_ge elems 5)
  then Some "UNB must have at least 5 elements"
  else if String.eqb (at_index elems 0) EmptyString
  then Some "syntax identifier missing in UNB"
  else if String.eqb (at_index elems 2) EmptyString
          || String.eqb (at_index elems 3) EmptyString
  then Some "sender or receiver ID missing in UNB"
  else if String.eqb (at_index elems 4) EmptyString
  then Some "date/time missing in UNB"
  else if len_ge elems 6 && String.eqb (at_index elems 5) EmptyString
  then Some "interchange control reference missing in UNB"
  else None.

(** [validateUNZ] *)
Definition validateUNZ (segment : Segment) : error :=
  if negb (len_ge (Elements segment) 2)
  then Some "UNZ must have at least 2 elements"
  else if String.eqb (at_index (Elements segment) 0) EmptyString
  then Some "message count missing in UNZ"
  else if String.eqb (at_index (Elements segment) 1) EmptyString
  then Some "interchange control reference missing in UNZ"
  else None.

(** [validateUNG] *)
Definition validateUNG (segment : Segment) : error :=
  let elems := Elements segment in
  if negb (len_ge elems 4)
  then Some "UNG must have at least 4 elements"
  else if String.eqb (at_index elems 0) EmptyString
  then Some "functional group ID missing in UNG"
  else if String.eqb (at_index elems 2) EmptyString
          || String.eqb (at_index elems 3) EmptyString
  then Some "sender or receiver ID missing in UNG"
  else None.

(** [validateUNE] *)
Definition validateUNE (segment : Segment) : error :=
  if negb (len_ge (Elements segment) 2)
  then Some "UNE must have at least 2 elements"
  else if String.eqb (at_index (Elements segment) 0) EmptyString
  then Some "message count missing in UNE"
  else if String.eqb (at_index (Elements segment) 1) EmptyString
  then Some "functional group reference missing in UNE"
  else None.

(** *** Messages and the handler *)

(** The fields of [InterchangeInfo] carry the prefix [x]. *)
Record InterchangeInfo := mkInterchange {
  xSenderID : string;
  xReceiverID : string;
  xDate : string;
  xTime : string;
  xRefNumber : string;
  xMessageType : string
}.

(** [Interchange] is a pointer: [None] is [nil]. *)
Record EDIFACTMessage := mkMessage {
  MessageType : string;
  Segments : list Segment;
  RawContent : string;
  Interchange : option InterchangeInfo
}.

Record ServiceSegmentHandler := mkHandler {
  validators : gmap string (Segment -> error)
}.

Definition registerValidators (ssh : ServiceSegmentHandler) : ServiceSegmentHandler :=
  {| validators :=
       <["UNE" := validateUNE]>
         (<["UNG" := validateUNG]>
            (<["UNZ" := validateUNZ]>
               (<["UNB" := validateUNB]>
                  (<["UNT" := validateUNT]>
                     (<["UNH" := validateUNH]> (validators ssh)))))) |}.

Definition NewServiceSegmentHandler : ServiceSegmentHandler :=
  registerValidators {| validators := ∅ |}.

Record ServiceSegmentResult := mkResult {
  rMessageType : string;
  rValid : bool;
  rErrors : list string;
  rWarnings : list string;
  rServiceSegs : gmap string ServiceSegmentInfo
}.

(** [result.Valid = false] followed by an [append] to [result.Errors]. *)
Definition fail (result : ServiceSegmentResult) (msg : string) : ServiceSegmentResult :=
  {| rMessageType := rMessageType result;
     rValid := false;
     rErrors := rErrors result ++ [msg];
     rWarnings := rWarnings result;
     rServiceSegs := rServiceSegs result |}.

Definition warn (result : ServiceSegmentResult) (msg : string) : ServiceSegmentResult :=
  {| rMessageType := rMessageType result;
     rValid := rValid result;
     rErrors := rErrors result;
     rWarnings := rWarnings result ++ [msg];
     rServiceSegs := rServiceSegs result |}.

Definition record (result : ServiceSegmentResult) (tag : string)
           (info : ServiceSegmentInfo) : ServiceSegmentResult :=
  {| rMessageType := rMessageType result;
     rValid := rValid result;
     rErrors := rErrors result;
     rWarnings := rWarnings result;
     rServiceSegs := <[tag := info]> (rServiceSegs result) |}.

(** One round of the loop of [ProcessMessage].  The state holds the result
    and the number of calls of [time.Now()] made so far; [clock k] is what
    the call after [k] calls returns. *)
Definition process_step (clock : nat -> Z) (ssh : ServiceSegmentHandler)
           (state : ServiceSegmentResult * nat) (segment : Segment)
  : ServiceSegmentResult * nat :=
  let '(result, ticks) := state in
  match validators ssh !! Tag segment with
  | Some validator =>
    let result :=
      match validator segment with
      | Some err => fail result (Tag segment +:+ ": " +:+ err)
      | None => result
      end in
    let info := extractServiceSegmentInfo (clock ticks) segment in
    (record result (Tag segment) info, S ticks)
  | None => (result, ticks)
  end.

(** The two references [validateMessageEnvelope] looks for. *)
Definition refs_step (refs : string * string) (segment : Segment) : string * string :=
  let '(unhRef, untRef) := refs in
  let unhRef :=
    if String.eqb (Tag segment) "UNH" && len_gt (Elements segment) 0
    then at_index (Elements segment) 0 else unhRef in
  let untRef :=
    if String.eqb (Tag segment) "UNT" && len_gt (Elements segment) 1
    then at_index (Elements segment) 1 else untRef in
  (unhRef, untRef).

Definition validateMessageEnvelope (message : EDIFACTMessage)
           (result : ServiceSegmentResult) : ServiceSegmentResult :=
  let '(unhRef, untRef) :=
    fold_left refs_step (Segments message) (EmptyString, EmptyString) in
  let result :=
    if negb (String.eqb unhRef EmptyString) && negb (String.eqb untRef EmptyString)
       && negb (String.eqb unhRef untRef)
    then fail result ("Reference number mismatch: UNH=" +:+ unhRef
                      +:+ ", UNT=" +:+ untRef)
    else result in
  match rServiceSegs result !! "UNT" with
  | Some untInfo =>
    let expectedCount := (Z.of_nat (List.length (Segments message)) - 2)%Z in
    if negb (String.eqb (iSegmentCount untInfo) (Sprintf_d expectedCount))
    then warn result ("Segment count mismatch: expected " +:+ Sprintf_d expectedCount
                      +:+ ", found " +:+ iSegmentCount untInfo)
    else result
  | None => result
  end.

(** One round of the loop of [extractInterchangeInfo]. *)
Definition interchange_step (info : InterchangeInfo) (segment : Segment)
  : InterchangeInfo :=
  let elems := Elements segment in
  let info :=
    if String.eqb (Tag segment) "UNB" then
      let info :=
        if len_ge elems 3
        then {| xSenderID := at_index elems 2; xReceiverID := xReceiverID info;
                xDate := xDate info; xTime := xTime info;
                xRefNumber := xRefNumber info; xMessageType := xMessageType info |}
        else info in
      let info :=
        if len_ge elems 4
        then {| xSenderID := xSenderID info; xReceiverID := at_index elems 3;
                xDate := xDate info; xTime := xTime info;
                xRefNumber := xRefNumber info; xMessageType := xMessageType info |}
        else info in
      let info :=
        if len_ge elems 5 then
          let parts := Split (at_index elems 4) ":" in
          if len_ge parts 2
          then {| xSenderID := xSenderID info; xReceiverID := xReceiverID info;
                  xDate := at_index parts 0; xTime := at_index parts 1;
                  xRefNumber := xRefNumber info; xMessageType := xMessageType info |}
          else info
        else info in
      if len_ge elems 6
      then {| xSenderID := xSenderID info; xReceiverID := xReceiverID info;
              xDate := xDate info; xTime := xTime info;
              xRefNumber := at_index elems 5; xMessageType := xMessageType info |}
      else info
    else info in
  if String.eqb (Tag segment) "UNH" && len_ge elems 2 then
    let msgTypeParts := Split (at_index elems 1) ":" in
    if len_ge msgTypeParts 1
    then {| xSenderID := xSenderID info; xReceiverID := xReceiverID info;
            xDate := xDate info; xTime := xTime info;
            xRefNumber := xRefNumber info; xMessageType := at_index msgTypeParts 0 |}
    else info
  else info.

Definition extractInterchangeInfo (message : EDIFACTMessage) : InterchangeInfo :=
  fold_left interchange_step (Segments message)
            {| xSenderID := EmptyString; xReceiverID := EmptyString;
               xDate := EmptyString; xTime := EmptyString;
               xRefNumber := EmptyString; xMessageType := EmptyString |}.

(** [ProcessMessage] returns its result and leaves the interchange
    information in the message. *)
Definition ProcessMessage (clock : nat -> Z) (ssh : ServiceSegmentHandler)
           (message : EDIFACTMessage) : ServiceSegmentResult * EDIFACTMessage :=
  let result :=
    {| rMessageType := MessageType message; rValid := true; rErrors := [];
       rWarnings := []; rServiceSegs := ∅ |} in
  let '(result, _) :=
    fold_left (process_step clock ssh) (Segments message) (result, 0) in
  let result := validateMessageEnvelope message result in
  (result,
   {| MessageType := MessageType message; Segments := Segments message;
      RawContent := RawContent message;
      Interchange := Some (extractInterchangeInfo message) |}).

(** The loop of [ParseEDIFACTMessage], from index [i] on. *)
Fixpoint parse_loop (i : Z) (segments : list string) (message : EDIFACTMessage)
  : EDIFACTMessage :=
  match segments with
  | [] => message
  | segmentStr :: more =>
    if String.eqb segmentStr EmptyString then parse_loop (i + 1) more message
    else
      match Split segmentStr "+" with
      | [] => parse_loop (i + 1) more message
      | p0 :: elems =>
        let segment :=
          {| Tag := p0; Elements := elems; Position := i;
             Raw := segmentStr +:+ "'" |} in
        let message :=
          {| MessageType := MessageType message;
             Segments := Segments message ++ [segment];
             RawContent := RawContent message;
             Interchange := Interchange message |} in
        let message :=
          if String.eqb (Tag segment) "UNH" && len_gt (Elements segment) 1
          then match Split (at_index (Elements segment) 1) ":" with
               | [] => message
               | t :: _ =>
                 {| MessageType := t;
                    Segments := Segments message;
                    RawContent := RawContent message;
                    Interchange := Interchange message |}
               end
          else message in
        parse_loop (i + 1) more message
      end
  end.

Definition ParseEDIFACTMessage (rawContent : string) : EDIFACTMessage :=
  parse_loop 0 (Split rawContent "'")
             {| MessageType := EmptyString; Segments := []; RawContent := rawContent;
                Interchange := None |}.

End Lesson6.

(** ** Lesson 2 of the advanced course: custom message handlers *)

Module AdvLesson2.

Record Segment := mkSegment {
  Tag : string;
  Elements : list string
}.

Record EDIFACTMessage := mkMessage {
  MessageType : string;
  Segments : list Segment;
  RawContent : string
}.

(** The [MessageHandler] interface.  A handler value is a pointer in the
    source; [addr] is that pointer, so that two handlers of one type can be
    told apart.  What [Process] prints is left out, its error is kept. *)
Record MessageHandler := mkHandler {
  addr : nat;
  GetMessageType : string;
  Process : EDIFACTMessage -> error
}.

(** What a call of the detector does besides returning: the lines it
    prints, and the handler whose [Process] it runs. *)
Inductive event : Type :=
| Printed (line : string)
| Called (handler : nat).

(** A computation that returns a value and leaves a trace of events. *)
Definition traced (A : Type) : Type := A * list event.

Definition ret {A} (a : A) : traced A := (a, []).

Definition bind {A B} (m : traced A) (k : A -> traced B) : traced B :=
  let '(a, t1) := m in let '(b, t2) := k a in (b, t1 ++ t2).

Notation "'do' x <- m ; k" := (bind m (fun x => k))
  (at level 10, x name, m at level 100, k at level 200).

Definition printf (line : string) : traced unit := (tt, [Printed line]).

Definition call (h : MessageHandler) (message : EDIFACTMessage) : traced error :=
  (Process h message, [Called (addr h)]).

Definition nl : string := String (ascii_of_nat 10) EmptyString.

(** *** Business components *)

Record InvoiceItem := mkItem { ProductCode : string }.

Record Invoice := mkInvoice {
  Number : string;
  Date : string;
  Items : list InvoiceItem
}.

Record Order := mkOrder {
  OrderNumber : string;
  OrderDate : string
}.

(** [InvoiceValidator.Validate] *)
Definition InvoiceValidator_Validate (invoice : Invoice) : error :=
  if String.eqb (Number invoice) EmptyString
  then Some "invoice number is required" else None.

(** [OrderValidator.Validate] *)
Definition OrderValidator_Validate (order : Order) : error :=
  if String.eqb (OrderNumber order) EmptyString
  then Some "order number is required" else None.

(** [InvoiceRepository.Save], [OrderRepository.Save] and
    [NotificationService.Notify] print and return [nil].  The processed
    record that [InvoiceProcessor.Process] and [OrderProcessor.Process]
    build is only printed by them; its number is what is kept here. *)
Definition Repository_Save (number : string) : error := None.
Definition NotificationService_Notify (number : string) : error := None.

(** One round of the loop of [extractInvoice]. *)
Definition extractInvoice_step (invoice : Invoice) (segment : Segment) : Invoice :=
  if String.eqb (Tag segment) "BGM" then
    if len_gt (Elements segment) 1
    then {| Number := at_index (Elements segment) 1; Date := Date invoice;
            Items := Items invoice |}
    else invoice
  else if String.eqb (Tag segment) "DTM" then
    if len_gt (Elements segment) 0 then
      let parts := Split (at_index (Elements segment) 0) ":" in
      if len_gt parts 1
      then {| Number := Number invoice; Date := at_index parts 1;
              Items := Items invoice |}
      else invoice
    else invoice
  else if String.eqb (Tag segment) "LIN" then
    if len_gt (Elements segment) 2 then
      let parts := Split (at_index (Elements segment) 2) ":" in
      if len_gt parts 0
      then {| Number := Number invoice; Date := Date invoice;
              Items := Items invoice ++ [ {| ProductCode := at_index parts 0 |} ] |}
      else invoice
    else invoice
  else invoice.

Definition extractInvoice (message : EDIFACTMessage) : Invoice :=
  fold_left extractInvoice_step (Segments message)
            {| Number := EmptyString; Date := EmptyString; Items := [] |}.

(** [fmt.Errorf("validation failed: %v", err)] and its sibling. *)
Definition wrap (pre : string) (err : string) : error := Some (pre +:+ err).

(** [InvoiceHandler.Process] *)
Definition InvoiceHandler_Process (message : EDIFACTMessage) : error :=
  let invoice := extractInvoice message in
  match InvoiceValidator_Validate invoice with
  | Some err => wrap "validation failed: " err
  | None =>
    match Repository_Save (Number invoice) with
    | Some err => wrap "failed to save: " err
    | None => NotificationService_Notify (Number invoice)
    end
  end.

(** One round of the loop of [extractOrder]. *)
Definition extractOrder_step (order : Order) (segment : Segment) : Order :=
  if String.eqb (Tag segment) "BGM" then
    if len_gt (Elements segment) 1
    then {| OrderNumber := at_index (Elements segment) 1; OrderDate := OrderDate order |}
    else order
  else if String.eqb (Tag segment) "DTM" then
    if len_gt (Elements segment) 0 then
      let parts := Split (at_index (Elements segment) 0) ":" in
      if len_gt parts 1
      then {| OrderNumber := OrderNumber order; OrderDate := at_index parts 1 |}
      else order
    else order
  else order.

Definition extractOrder (message : EDIFACTMessage) : Order :=
  fold_left extractOrder_step (Segments message)
            {| OrderNumber := EmptyString; OrderDate := EmptyString |}.

(** [OrderHandler.Process] *)
Definition OrderHandler_Process (message : EDIFACTMessage) : error :=
  let order := extractOrder message in
  match OrderValidator_Validate order with
  | Some err => wrap "validation failed: " err
  | None =>
    match Repository_Save (OrderNumber order) with
    | Some err => wrap "failed to save: " err
    | None => NotificationService_Notify (OrderNumber order)
    end
  end.

(** [NewInvoiceHandler()], allocated at address [a]. *)
Definition NewInvoiceHandler (a : nat) : MessageHandler :=
  {| addr := a; GetMessageType := "INVOIC"; Process := InvoiceHandler_Process |}.

(** [NewOrderHandler()], allocated at address [a]. *)
Definition NewOrderHandler (a : nat) : MessageHandler :=
  {| addr := a; GetMessageType := "ORDERS"; Process := OrderHandler_Process |}.

(** [&GenericHandler{}], allocated at address [a]: its [Process] prints
    two lines and returns [nil]. *)
Definition GenericHandler (a : nat) : MessageHandler :=
  {| addr := a; GetMessageType := "GENERIC"; Process := fun _ => None |}.

(** *** The detector *)

(** [mu] guards [handlers] against concurrent calls; one call at a time is
    modelled here, so the lock has no field. *)
Record MessageDetector := mkDetector {
  handlers : gmap string MessageHandler;
  fallback : MessageHandler
}.

(** [NewMessageDetector()]; the fallback handler is allocated at [a]. *)
Definition NewMessageDetector (a : nat) : MessageDetector :=
  {| handlers := ∅; fallback := GenericHandler a |}.

(** [md.handlers[msgType] = handler] *)
Definition RegisterHandler (md : MessageDetector) (msgType : string)
           (handler : MessageHandler) : MessageDetector :=
  {| handlers := <[msgType := handler]> (handlers md); fallback := fallback md |}.

Definition DetectAndRoute (md : MessageDetector) (message : EDIFACTMessage)
  : traced error :=
  match handlers md !! MessageType message with
  | Some handler =>
    do _ <- printf ("Routing " +:+ MessageType message +:+ " message to "
                    +:+ GetMessageType handler +:+ " handler" +:+ nl);
    call handler message
  | None =>
    do _ <- printf ("No specific handler for " +:+ MessageType message
                    +:+ ", using fallback" +:+ nl);
    call (fallback md) message
  end.

(** The loop of [ParseEDIFACTMessage]. *)
Fixpoint parse_loop (segments : list string) (message : EDIFACTMessage)
  : EDIFACTMessage :=
  match segments with
  | [] => message
  | segmentStr :: more =>
    if String.eqb segmentStr EmptyString then parse_loop more message
    else
      match Split segmentStr "+" with
      | [] => parse_loop more message
      | p0 :: elems =>
        let segment := {| Tag := p0; Elements := elems |} in
        let message :=
          {| MessageType := MessageType message;
             Segments := Segments message ++ [segment];
             RawContent := RawContent message |} in
        let message :=
          if String.eqb (Tag segment) "UNH" && len_gt (Elements segment) 1
          then match Split (at_index (Elements segment) 1) ":" with
               | [] => message
               | t :: _ =>
                 {| MessageType := t;
                    Segments := Segments message;
                    RawContent := RawContent message |}
               end
          else message in
        parse_loop more message
      end
  end.

Definition ParseEDIFACTMessage (rawContent : string) : EDIFACTMessage :=
  parse_loop (Split rawContent "'")
             {| MessageType := EmptyString; Segments := []; RawContent := rawContent |}.

(** The three messages of [main] and one invoice without a number. *)
Definition invoiceMessage : string :=
  "UNH+1+INVOIC:D:97A:UN'BGM+380+INV12345+9'DTM+137:20231201:102'NAD+BY+++ACME CORP'LIN+1++ITEM001:EN'QTY+12:100:PCE'PRI+AAA:25.50:CT'UNT+7+1'".
Definition orderMessage : string :=
  "UNH+1+ORDERS:D:97A:UN'BGM+220+PO67890+9'DTM+137:20231201:102'NAD+BY+++ACME CORP'LIN+1++ITEM002:EN'QTY+12:50:PCE'UNT+6+1'".
Definition unknownMessage : string :=
  "UNH+1+UNKNOWN:D:97A:UN'BGM+999+TEST123+9'UNT+2+1'".
Definition invoiceWithoutNumber : string :=
  "UNH+1+INVOIC:D:97A:UN'DTM+137:20231201:102'UNT+3+1'".

(** *** The composite handler *)

(** The field is [handlers] in the source, as in [MessageDetector]. *)
Record CompositeHandler := mkComposite {
  members : list MessageHandler
}.

Definition NewCompositeHandler (handlers : list MessageHandler) : CompositeHandler :=
  {| members := handlers |}.

(** The loop of [CompositeHandler.Process] from index [i] on: it stops at
    the first handler that fails. *)
Fixpoint composite_loop (i : Z) (handlers : list MessageHandler)
         (message : EDIFACTMessage) : traced error :=
  match handlers with
  | [] => ret None
  | handler :: more =>
    do _ <- printf ("Step " +:+ Sprintf_d (i + 1) +:+ ": Applying "
                    +:+ GetMessageType handler +:+ " handler" +:+ nl);
    do err <- call handler message;
    match err with
    | Some e =>
      ret (Some ("handler " +:+ GetMessageType handler +:+ " failed: " +:+ e))
    | None => composite_loop (i + 1) more message
    end
  end.

Definition CompositeHandler_Process (ch : CompositeHandler) (message : EDIFACTMessage)
  : traced error :=
  do _ <- printf ("Processing with composite handler..." +:+ nl);
  composite_loop 0 (members ch) message.

(** The handlers run in a trace, in order. *)
Definition calls (trace : list event) : list nat :=
  flat_map (fun ev => match ev with Called a => [a] | Printed _ => [] end) trace.

(** A detector after a run of registrations, in the order given. *)
Definition register_all (md : MessageDetector) (regs : list (string * MessageHandler))
  : MessageDetector :=
  fold_left (fun md r => RegisterHandler md (fst r) (snd r)) regs md.

End AdvLesson2.

(** ** Reading [ReplaceAll] byte by byte *)

(** [expand f s] writes [f x] for every byte [x] of [s]. *)
Fixpoint expand (f : ascii -> string) (s : string) : string :=
  match s with
  | EmptyString => EmptyString
  | String x rest => f x +:+ expand f rest
  end.

(** What [EscapeSpecialCharacters] writes for one byte, for the release
    character [e], the element separator [p], the component separator [c]
    and the segment terminator [t]. *)
Definition escape_byte (e p c t x : ascii) : string :=
  if Ascii.eqb x e then String e (String e "")
  else if Ascii.eqb x p then String e (String p "")
  else if Ascii.eqb x c then String e (String c "")
  else if Ascii.eqb x t then String e (String t "")
  else String x "".

(** [f] with the byte [x] written as it is. *)
Definition plain_at (x : ascii) (f : ascii -> string) (a : ascii) : string :=
  if Ascii.eqb a x then String x "" else f a.

(** Delimiters of one byte each. *)
Definition byte_delimiters (e p c t : ascii) : EDIFACTDelimiters :=
  {| SegmentTerminator := String t "";
     DataElementSeparator := String p "";
     ComponentSeparator := String c "";
     ReleaseCharacter := String e "" |}.

Fixpoint distinct (l : list ascii) : bool :=
  match l with
  | [] => true
  | x :: rest => forallb (fun y => negb (Ascii.eqb x y)) rest && distinct rest
  end.

(** ** The elements [AddElement] builds, one after the other *)

(** The element that [AddElement] appends for [value] at [position]. *)
Definition element_of (d : EDIFACTDelimiters) (position : Z) (value : string)
  : Lesson2.EDIFACTElement :=
  {| Lesson2.Position := position;
     Lesson2.Value := value;
     Lesson2.IsEmpty := String.eqb value EmptyString;
     Lesson2.IsComposite := Contains value (ComponentSeparator d);
     Lesson2.Components :=
       if Contains value (ComponentSeparator d)
       then Split value (ComponentSeparator d) else [] |}.

(** The elements appended for [values] to a segment that holds [n]. *)
Fixpoint elements_from (d : EDIFACTDelimiters) (n : nat) (values : list string)
  : list Lesson2.EDIFACTElement :=
  match values with
  | [] => []
  | v :: more => element_of d (Z.of_nat n + 1) v :: elements_from d (S n) more
  end.

(** The value of a result, [""] for an error. *)
Definition value_or_empty (r : result string) : string :=
  match r with
  | Ok v => v
  | Err _ => EmptyString
  end.

(** ** The segments [ParseEDIFACTMessage] builds, piece by piece *)

(** The segments the loop of lesson 4 appends for [pieces], from index [i]
    on. *)
Fixpoint segments_of (i : Z) (pieces : list string) : list Lesson4.Segment :=
  match pieces with
  | [] => []
  | piece :: more =>
    if String.eqb piece EmptyString then segments_of (i + 1) more
    else match Split piece "+" with
         | [] => segments_of (i + 1) more
         | p0 :: elems =>
           {| Lesson4.Tag := p0; Lesson4.Elements := elems; Lesson4.Position := i |}
             :: segments_of (i + 1) more
         end
  end.

(** A header the type is read from: tagged [UNH], with two elements or
    more. *)
Definition is_header (tag : string) (elems : list string) : bool :=
  String.eqb tag "UNH" && len_gt elems 1.

(** The first component of the second element. *)
Definition header_type (elems : list string) : string :=
  hd EmptyString (Split (at_index elems 1) ":").

(** The type after one more segment. *)
Definition type_step (t : string) (seg : Lesson4.Segment) : string :=
  if is_header (Lesson4.Tag seg) (Lesson4.Elements seg)
  then header_type (Lesson4.Elements seg) else t.

(** An analysis is consistent when it is valid exactly if it holds no
    error. *)
Definition consistent (a : Lesson4.MessageAnalysis) : Prop :=
  Lesson4.maValid a = true <-> Lesson4.maErrors a = [].

(** A result is consistent when it is valid exactly if it holds no
    error. *)
Definition result_consistent (r : Lesson6.ServiceSegmentResult) : Prop :=
  Lesson6.rValid r = true <-> Lesson6.rErrors r = [].

(** The tags [NewServiceSegmentHandler] has a validator for. *)
Definition validated_tags : list string :=
  ["UNH"; "UNT"; "UNB"; "UNZ"; "UNG"; "UNE"].

(** The error a validator of the handler reports for a segment, as
    [ProcessMessage] writes it, if any. *)
Definition validator_errors (ssh : Lesson6.ServiceSegmentHandler)
           (seg : Lesson6.Segment) : list string :=
  match Lesson6.validators ssh !! Lesson6.Tag seg with
  | Some validator =>
    match validator seg with
    | Some err => [Lesson6.Tag seg +:+ ": " +:+ err]
    | None => []
    end
  | None => []
  end.

(** Whether the handler holds a validator for the tag of a segment. *)
Definition is_validated (ssh : Lesson6.ServiceSegmentHandler)
           (seg : Lesson6.Segment) : bool :=
  match Lesson6.validators ssh !! Lesson6.Tag seg with
  | Some _ => true
  | None => false
  end.

(** A segment the invoice number is read from: tagged [BGM], with two
    elements or more. *)
Definition has_number (seg : AdvLesson2.Segment) : bool :=
  String.eqb (AdvLesson2.Tag seg) "BGM" && len_gt (AdvLesson2.Elements seg) 1.

(** A segment an invoice item is read from: tagged [LIN], with three
    elements or more. *)
Definition is_line_item (seg : AdvLesson2.Segment) : bool :=
  String.eqb (AdvLesson2.Tag seg) "LIN" && len_gt (AdvLesson2.Elements seg) 2.

(** A segment as text: tag and elements with [+] between them. *)
Definition render (tag : string) (elems : list string) : string :=
  Join (tag :: elems) "+".

(** A segment of lesson 4 as lesson 6 stores it, with its raw text. *)
Definition with_raw (seg : Lesson4.Segment) : Lesson6.Segment :=
  {| Lesson6.Tag := Lesson4.Tag seg;
     Lesson6.Elements := Lesson4.Elements seg;
     Lesson6.Position := Lesson4.Position seg;
     Lesson6.Raw := render (Lesson4.Tag seg) (Lesson4.Elements seg) +:+ "'" |}.

(** A segment of lesson 4 as the advanced lesson 2 stores it, without its
    position. *)
Definition without_position (seg : Lesson4.Segment) : AdvLesson2.Segment :=
  {| AdvLesson2.Tag := Lesson4.Tag seg; AdvLesson2.Elements := Lesson4.Elements seg |}.

(** * Properties *)

(** ** The models of the library functions on the inputs of Go's own
    documentation *)

Example Split_doc_1 : Split "a+b++c" "+" = ["a"; "b"; ""; "c"].
Proof. reflexivity. Qed.

Example Split_doc_2 : Split "a man a plan a canal panama" "a "
                      = [""; "man "; "plan "; "canal panama"].
Proof. reflexivity. Qed.

Example Split_doc_3 : Split " xyz " "" = [" "; "x"; "y"; "z"; " "].
Proof. reflexivity. Qed.

Example Split_doc_4 : Split "" "Bernardo O'Higgins" = [""].
Proof. reflexivity. Qed.

Example Split_empty_empty : Split "" "" = [].
Proof. reflexivity. Qed.

Example ReplaceAll_doc_1 : ReplaceAll "oink oink oink" "k" "ky" = "oinky oinky oinky".
Proof. reflexivity. Qed.

Example ReplaceAll_doc_2 : ReplaceAll "oink oink oink" "oink" "moo" = "moo moo moo".
Proof. reflexivity. Qed.

Example ReplaceAll_overlap : ReplaceAll "aaaaa" "aa" "b" = "bba".
Proof. reflexivity. Qed.

Example ReplaceAll_empty_old : ReplaceAll "ab" "" "-" = "-a-b-".
Proof. reflexivity. Qed.

Example TrimSuffix_doc : TrimSuffix "UNH+1'" "'" = "UNH+1".
Proof. reflexivity. Qed.

Example Join_doc : Join ["foo"; "bar"; "baz"] ", " = "foo, bar, baz".
Proof. reflexivity. Qed.

(** ** Strings: append, take, drop, prefix *)

Section StringFacts.

Lemma sapp_nil_r (s : string) : s +:+ "" = s.
Proof. induction s as [|c s IH]; simpl; [reflexivity | now rewrite IH]. Qed.

Lemma sapp_assoc (a b c : string) : (a +:+ b) +:+ c = a +:+ (b +:+ c).
Proof. induction a as [|x a IH]; simpl; [reflexivity | now rewrite IH]. Qed.

Lemma slength_app (a b : string) :
  String.length (a +:+ b) = String.length a + String.length b.
Proof. induction a as [|x a IH]; simpl; [reflexivity | now rewrite IH]. Qed.

Lemma drop_0 (s : string) : drop 0 s = s.
Proof. now destruct s. Qed.

Lemma drop_length_le (n : nat) (s : string) :
  String.length (drop n s) <= String.length s.
Proof.
  revert s; induction n as [|n IH]; intros [|c s]; simpl; try lia.
  specialize (IH s); lia.
Qed.

Lemma take_drop (n : nat) (s : string) : take n s +:+ drop n s = s.
Proof.
  revert s; induction n as [|n IH]; intros [|c s]; simpl; try reflexivity.
  now rewrite IH.
Qed.

Lemma take_app (a b : string) : take (String.length a) (a +:+ b) = a.
Proof. induction a as [|x a IH]; simpl; [now destruct b | now rewrite IH]. Qed.

Lemma drop_app (a b : string) : drop (String.length a) (a +:+ b) = b.
Proof. induction a as [|x a IH]; simpl; [apply drop_0 | exact IH]. Qed.

Lemma prefix_nil (s : string) : String.prefix "" s = true.
Proof. now destruct s. Qed.

Lemma prefix_cons (c x : ascii) (a s : string) :
  String.prefix (String c a) (String x s) = Ascii.eqb c x && String.prefix a s.
Proof.
  simpl. destruct (ascii_dec c x) as [->|Hne].
  - now rewrite Ascii.eqb_refl.
  - apply Ascii.eqb_neq in Hne. now rewrite Hne.
Qed.

Lemma prefix_drop (a s : string) :
  String.prefix a s = true -> s = a +:+ drop (String.length a) s.
Proof.
  revert s; induction a as [|c a IH]; intros s H.
  - simpl. now destruct s.
  - destruct s as [|x s]; [discriminate|].
    rewrite prefix_cons in H. apply andb_true_iff in H as [Hc Ha].
    apply Ascii.eqb_eq in Hc; subst x. simpl. f_equal. now apply IH.
Qed.

End StringFacts.

(** ** [Join] after [Split] *)

Section SplitJoin.

Lemma Join_cons_char (c : ascii) (p : string) (ps : list string) (sep : string) :
  Join (String c p :: ps) sep = String c (Join (p :: ps) sep).
Proof. now destruct ps. Qed.

Lemma Join_cons_cons (x y : string) (l : list string) (sep : string) :
  Join (x :: y :: l) sep = x +:+ sep +:+ Join (y :: l) sep.
Proof. reflexivity. Qed.

Lemma Join_cons_empty (p : string) (ps : list string) (sep : string) :
  Join ("" :: p :: ps) sep = sep +:+ Join (p :: ps) sep.
Proof. reflexivity. Qed.

Lemma split_go_skip (sep : string) (k : nat) (s : string) :
  split_go sep k s = split_go sep 0 (drop k s).
Proof.
  revert s; induction k as [|k IH]; intros s.
  - now rewrite drop_0.
  - destruct s as [|c s]; [reflexivity|]. simpl. apply IH.
Qed.

(** Joining the pieces of the scan gives the scanned text back. *)
Lemma split_go_join (x : ascii) (sep0 : string) (n : nat) :
  let sep := String x sep0 in
  forall s, String.length s <= n ->
            Join (fst (split_go sep 0 s) :: snd (split_go sep 0 s)) sep = s.
Proof.
  intros sep. induction n as [|n IH]; intros s Hn.
  - destruct s; [reflexivity | simpl in Hn; lia].
  - destruct s as [|c s]; [reflexivity|].
    cbn [split_go]. destruct (String.prefix sep (String c s)) eqn:Hp.
    + rewrite split_go_skip. cbn [fst snd].
      destruct (split_go sep 0 (drop (String.length sep - 1) s)) as [p ps] eqn:E.
      rewrite Join_cons_empty.
      assert (Hd : String.length (drop (String.length sep - 1) s) <= n).
      { pose proof (drop_length_le (String.length sep - 1) s). simpl in Hn. lia. }
      specialize (IH _ Hd). rewrite E in IH. cbn [fst snd] in IH. rewrite IH.
      apply prefix_drop in Hp. rewrite Hp at 1.
      subst sep. simpl. now rewrite Nat.sub_0_r.
    + destruct (split_go sep 0 s) as [p ps] eqn:E. cbn [fst snd].
      rewrite Join_cons_char. f_equal.
      assert (Hs : String.length s <= n) by (simpl in Hn; lia).
      specialize (IH _ Hs). now rewrite E in IH.
Qed.

Lemma explode_go_join (k : nat) (s : string) :
  fst (explode_go k s) +:+ Join (snd (explode_go k s)) "" = s.
Proof.
  revert k; induction s as [|c s IH]; intros k; [reflexivity|].
  cbn [explode_go]. destruct k as [|k].
  - specialize (IH (Utf8.width (String c s) - 1)).
    destruct (explode_go (Utf8.width (String c s) - 1) s) as [p ps].
    cbn [fst snd] in *. destruct ps as [|q ps].
    + cbn [Join] in *. rewrite sapp_nil_r in IH. simpl. now rewrite IH.
    + rewrite Join_cons_cons.
      change (String c (p +:+ Join (q :: ps) "") = String c s).
      now rewrite IH.
  - specialize (IH k). destruct (explode_go k s) as [p ps].
    cbn [fst snd] in *. simpl. now rewrite IH.
Qed.

Lemma explode_nil_iff (s : string) : explode s = [] <-> s = "".
Proof.
  unfold explode. destruct s as [|c s]; [easy|].
  cbn [explode_go]. destruct (explode_go _ s); cbn [snd]. easy.
Qed.

Lemma Join_Split (s sep : string) : Join (Split s sep) sep = s.
Proof.
  unfold Split. destruct sep as [|x sep].
  - pose proof (explode_go_join 0 s) as H. unfold explode.
    destruct s as [|c s]; [reflexivity|].
    cbn [explode_go] in *. destruct (explode_go _ s); exact H.
  - pose proof (split_go_join x sep _ s (le_n _)) as H.
    now destruct (split_go (String x sep) 0 s).
Qed.

Lemma Split_nonempty_sep (s sep : string) : sep <> "" -> Split s sep <> [].
Proof.
  intros Hsep. unfold Split. destruct sep; [congruence|].
  now destruct (split_go _ 0 s).
Qed.

End SplitJoin.

(** ** Suffixes *)

Section Suffix.

Lemma HasSuffix_app (x suffix : string) : HasSuffix (x +:+ suffix) suffix = true.
Proof.
  unfold HasSuffix. rewrite slength_app.
  replace (String.length x + String.length suffix - String.length suffix)
    with (String.length x) by lia.
  rewrite drop_app, String.eqb_refl, andb_true_r.
  apply Nat.leb_le. lia.
Qed.

Lemma TrimSuffix_app (x suffix : string) : TrimSuffix (x +:+ suffix) suffix = x.
Proof.
  unfold TrimSuffix. rewrite HasSuffix_app, slength_app.
  replace (String.length x + String.length suffix - String.length suffix)
    with (String.length x) by lia.
  apply take_app.
Qed.

Lemma TrimSuffix_empty (suffix : string) : TrimSuffix "" suffix = "".
Proof. unfold TrimSuffix. now destruct (HasSuffix "" suffix). Qed.

End Suffix.

(** ** What [ParseSegment] builds *)

Section ParseSegmentFacts.

Lemma fold_snoc_Elements (rest : list string) (seg : Lesson1.EDIFACTSegment) :
  fold_left
    (fun segment p =>
       {| Lesson1.Tag := Lesson1.Tag segment;
          Lesson1.Elements := Lesson1.Elements segment ++ [p];
          Lesson1.Delimiters := Lesson1.Delimiters segment |})
    rest seg
  = {| Lesson1.Tag := Lesson1.Tag seg;
       Lesson1.Elements := Lesson1.Elements seg ++ rest;
       Lesson1.Delimiters := Lesson1.Delimiters seg |}.
Proof.
  revert seg; induction rest as [|p rest IH]; intros seg; simpl.
  - rewrite app_nil_r. now destruct seg.
  - rewrite IH. simpl. now rewrite <- app_assoc.
Qed.

Lemma fold_snoc_parts (es : list string) (acc : list string) :
  fold_left (fun parts element => parts ++ [element]) es acc = acc ++ es.
Proof.
  revert acc; induction es as [|e es IH]; intros acc; simpl.
  - now rewrite app_nil_r.
  - rewrite IH. now rewrite <- app_assoc.
Qed.

(** The lesson 1 parser, without its loop. *)
Lemma ParseSegment1_unfold (s : string) (d : EDIFACTDelimiters) :
  Lesson1.ParseSegment s d =
  match Split (TrimSuffix s (SegmentTerminator d)) (DataElementSeparator d) with
  | [] => Err "empty segment"
  | p0 :: rest =>
    Ok {| Lesson1.Tag := p0; Lesson1.Elements := rest; Lesson1.Delimiters := d |}
  end.
Proof.
  unfold Lesson1.ParseSegment.
  destruct (Split _ _) as [|p0 rest]; [reflexivity|].
  now rewrite fold_snoc_Elements.
Qed.

Lemma ToString1_unfold (seg : Lesson1.EDIFACTSegment) :
  Lesson1.ToString seg =
  Join (Lesson1.Tag seg :: Lesson1.Elements seg)
       (DataElementSeparator (Lesson1.Delimiters seg))
  +:+ SegmentTerminator (Lesson1.Delimiters seg).
Proof. unfold Lesson1.ToString. now rewrite fold_snoc_parts. Qed.

Lemma AddElement_Value (v : string) (seg : Lesson2.EDIFACTSegment) :
  Lesson2.Tag (Lesson2.AddElement seg v) = Lesson2.Tag seg /\
  Lesson2.Delimiters (Lesson2.AddElement seg v) = Lesson2.Delimiters seg /\
  map Lesson2.Value (Lesson2.Elements (Lesson2.AddElement seg v))
  = map Lesson2.Value (Lesson2.Elements seg) ++ [v].
Proof.
  unfold Lesson2.AddElement; simpl. repeat split. now rewrite map_app.
Qed.

Lemma fold_AddElement (rest : list string) (seg : Lesson2.EDIFACTSegment) :
  Lesson2.Tag (fold_left Lesson2.AddElement rest seg) = Lesson2.Tag seg /\
  Lesson2.Delimiters (fold_left Lesson2.AddElement rest seg) = Lesson2.Delimiters seg /\
  map Lesson2.Value (Lesson2.Elements (fold_left Lesson2.AddElement rest seg))
  = map Lesson2.Value (Lesson2.Elements seg) ++ rest.
Proof.
  revert seg; induction rest as [|v rest IH]; intros seg; simpl.
  - now rewrite app_nil_r.
  - destruct (IH (Lesson2.AddElement seg v)) as (Ht & Hd & Hv).
    destruct (AddElement_Value v seg) as (Ht' & Hd' & Hv').
    rewrite Ht, Hd, Hv, Ht', Hd', Hv'. now rewrite <- app_assoc.
Qed.

(** When the lesson 1 parser fails: only on an empty separator and a text
    that is empty once its terminator is cut off. *)
Lemma ParseSegment1_Err_iff (s : string) (d : EDIFACTDelimiters) :
  Lesson1.ParseSegment s d = Err "empty segment" <->
  DataElementSeparator d = "" /\ TrimSuffix s (SegmentTerminator d) = "".
Proof.
  rewrite ParseSegment1_unfold.
  destruct (DataElementSeparator d) as [|x sep] eqn:Hsep.
  - unfold Split. destruct (explode _) eqn:E.
    + apply explode_nil_iff in E. tauto.
    + split; [discriminate|]. intros [_ H]. apply explode_nil_iff in H. congruence.
  - pose proof (Split_nonempty_sep (TrimSuffix s (SegmentTerminator d)) (String x sep)) as H.
    destruct (Split _ _); [now exfalso; apply H|].
    split; [discriminate | intros [? _]; discriminate].
Qed.

End ParseSegmentFacts.

(** ** Splitting at a one-byte separator *)

Section SingleByteSeparator.

Variable c : ascii.

Let sep : string := String c "".

Lemma Contains_cons (x : ascii) (s : string) :
  Contains (String x s) sep = Ascii.eqb c x || Contains s sep.
Proof.
  unfold sep. cbn [Contains]. rewrite prefix_cons, prefix_nil.
  now rewrite andb_true_r.
Qed.

Lemma split_go_cons (x : ascii) (s : string) :
  split_go sep 0 (String x s) =
  if Ascii.eqb c x
  then ("", fst (split_go sep 0 s) :: snd (split_go sep 0 s))
  else (String x (fst (split_go sep 0 s)), snd (split_go sep 0 s)).
Proof.
  unfold sep. cbn [split_go]. rewrite prefix_cons, prefix_nil, andb_true_r.
  simpl. now destruct (Ascii.eqb c x), (split_go (String c "") 0 s).
Qed.

Lemma split_go_no_sep (a : string) :
  Contains a sep = false -> split_go sep 0 a = (a, []).
Proof.
  induction a as [|x a IH]; intros H; [reflexivity|].
  rewrite Contains_cons in H. apply orb_false_iff in H as [Hx Ha].
  rewrite split_go_cons, Hx, (IH Ha). reflexivity.
Qed.

Lemma split_go_app (a b : string) :
  Contains a sep = false ->
  split_go sep 0 (a +:+ String c b)
  = (a, fst (split_go sep 0 b) :: snd (split_go sep 0 b)).
Proof.
  induction a as [|x a IH]; intros H.
  - change ("" +:+ String c b) with (String c b).
    rewrite split_go_cons. now rewrite Ascii.eqb_refl.
  - rewrite Contains_cons in H. apply orb_false_iff in H as [Hx Ha].
    change (String x a +:+ String c b) with (String x (a +:+ String c b)).
    rewrite split_go_cons, Hx, (IH Ha). reflexivity.
Qed.

Lemma Split_sep (s : string) :
  Split s sep = fst (split_go sep 0 s) :: snd (split_go sep 0 s).
Proof. unfold Split, sep. now destruct (split_go (String c "") 0 s). Qed.

(** Pieces without the separator, joined and split again, come back one
    by one: empty pieces too. *)
Lemma Split_Join (p0 : string) (ps : list string) :
  Forall (fun p => Contains p sep = false) (p0 :: ps) ->
  Split (Join (p0 :: ps) sep) sep = p0 :: ps.
Proof.
  revert p0; induction ps as [|p1 ps IH]; intros p0 H.
  - inversion H; subst. rewrite Split_sep. cbn [Join].
    now rewrite split_go_no_sep.
  - inversion H as [|? ? H0 Hps]; subst.
    rewrite Join_cons_cons, Split_sep.
    change (p0 +:+ sep +:+ Join (p1 :: ps) sep)
      with (p0 +:+ String c (Join (p1 :: ps) sep)).
    rewrite split_go_app by exact H0. cbn [fst snd].
    rewrite <- Split_sep. now rewrite IH.
Qed.

End SingleByteSeparator.

(** ** Escaping, byte by byte *)

Ltac eqb_cases :=
  repeat match goal with
         | |- context [Ascii.eqb ?a ?b] =>
           destruct (Ascii.eqb_spec a b); subst; try congruence
         | H : context [Ascii.eqb ?a ?b] |- _ =>
           destruct (Ascii.eqb_spec a b); subst; try congruence
         end.

Section Expand.

Lemma expand_app (f : ascii -> string) (a b : string) :
  expand f (a +:+ b) = expand f a +:+ expand f b.
Proof.
  induction a as [|x a IH]; [reflexivity|].
  change (String x a +:+ b) with (String x (a +:+ b)).
  cbn [expand]. now rewrite IH, sapp_assoc.
Qed.

Lemma expand_ext (f g : ascii -> string) (s : string) :
  (forall x, f x = g x) -> expand f s = expand g s.
Proof. intros H. induction s as [|x s IH]; cbn [expand]; [reflexivity|]. now rewrite H, IH. Qed.

Lemma expand_expand (f g : ascii -> string) (s : string) :
  expand g (expand f s) = expand (fun x => expand g (f x)) s.
Proof.
  induction s as [|x s IH]; [reflexivity|].
  cbn [expand]. now rewrite expand_app, IH.
Qed.

Lemma expand_id (f : ascii -> string) (s : string) :
  (forall x, f x = String x "") -> expand f s = s.
Proof.
  intros H. induction s as [|x s IH]; cbn [expand]; [reflexivity|].
  now rewrite H, IH.
Qed.

(** Replacing a one-byte [old] rewrites the text byte by byte. *)
Lemma ReplaceAll_byte (o : ascii) (new s : string) :
  ReplaceAll s (String o "") new
  = expand (fun x => if Ascii.eqb x o then new else String x "") s.
Proof.
  unfold ReplaceAll. destruct (String.eqb_spec (String o "") new) as [<-|Hne].
  - symmetry. apply expand_id. intros x. now eqb_cases.
  - induction s as [|x s IH]; [reflexivity|].
    cbn [replace_go expand]. rewrite prefix_cons, prefix_nil, andb_true_r.
    rewrite Ascii.eqb_sym. destruct (Ascii.eqb x o).
    + simpl String.length. simpl Nat.sub. now rewrite IH.
    + now rewrite IH.
Qed.

End Expand.

Section Escaping.

Variables e p c t : ascii.
Hypothesis Hep : e <> p.
Hypothesis Hec : e <> c.
Hypothesis Het : e <> t.
Hypothesis Hpc : p <> c.
Hypothesis Hpt : p <> t.
Hypothesis Hct : c <> t.

Let d : EDIFACTDelimiters := byte_delimiters e p c t.

Lemma Escape_expand (s : string) :
  Lesson1.EscapeSpecialCharacters s d = expand (escape_byte e p c t) s.
Proof.
  unfold Lesson1.EscapeSpecialCharacters, d, byte_delimiters.
  cbn [ReleaseCharacter DataElementSeparator ComponentSeparator SegmentTerminator].
  rewrite !ReplaceAll_byte, !expand_expand.
  apply expand_ext. intros x. unfold escape_byte.
  destruct (Ascii.eqb_spec x e) as [->|Hxe].
  { cbn. eqb_cases. cbn. eqb_cases. cbn. eqb_cases. reflexivity. }
  cbn. destruct (Ascii.eqb_spec x p) as [->|Hxp].
  { cbn. eqb_cases. cbn. eqb_cases. reflexivity. }
  cbn. destruct (Ascii.eqb_spec x c) as [->|Hxc].
  { cbn. eqb_cases. reflexivity. }
  cbn. destruct (Ascii.eqb_spec x t) as [->|Hxt]; reflexivity.
Qed.

Lemma replace_go_cons (old new : string) (x : ascii) (s : string) :
  replace_go old new 0 (String x s)
  = if String.prefix old (String x s)
    then new +:+ replace_go old new (String.length old - 1) s
    else String x (replace_go old new 0 s).
Proof. reflexivity. Qed.

Section UnescapeStep.

Variable x : ascii.
Variable g : ascii -> string.
Hypothesis Hex : e <> x.
Hypothesis Hgx : g x = String e (String x "").
Hypothesis Hg : forall a, a <> x ->
  (g a = String a "" /\ a <> e) \/ (exists b, g a = String e (String b "") /\ b <> x).

Lemma expand_head (s : string) : String.prefix (String x "") (expand g s) = false.
Proof.
  destruct s as [|a s]; [reflexivity|]. cbn [expand].
  destruct (ascii_dec a x) as [->|Hax].
  - rewrite Hgx.
    change (String e (String x "") +:+ expand g s)
      with (String e (String x (expand g s))).
    rewrite prefix_cons. now eqb_cases.
  - destruct (Hg a Hax) as [[-> _]|(b & -> & _)].
    + change (String a "" +:+ expand g s) with (String a (expand g s)).
      rewrite prefix_cons. now eqb_cases.
    + change (String e (String b "") +:+ expand g s)
        with (String e (String b (expand g s))).
      rewrite prefix_cons. now eqb_cases.
Qed.

(** One pass of [UnescapeSpecialCharacters]: the release character in
    front of [x] goes, everything else stays. *)
Lemma unescape_step (s : string) :
  ReplaceAll (expand g s) (String e (String x "")) (String x "")
  = expand (plain_at x g) s.
Proof.
  unfold ReplaceAll.
  destruct (String.eqb_spec (String e (String x "")) (String x "")) as [Heq|_];
    [discriminate Heq|].
  induction s as [|a s IH]; [reflexivity|]. cbn [expand]. unfold plain_at at 1.
  destruct (Ascii.eqb_spec a x) as [->|Hax].
  - rewrite Hgx.
    change (String e (String x "") +:+ expand g s)
      with (String e (String x (expand g s))).
    rewrite replace_go_cons, !prefix_cons, prefix_nil, !Ascii.eqb_refl.
    cbn [andb String.length Nat.sub replace_go]. now rewrite IH.
  - destruct (Hg a Hax) as [[-> Hae]|(b & -> & Hbx)].
    + change (String a "" +:+ expand g s) with (String a (expand g s)).
      rewrite replace_go_cons, prefix_cons.
      destruct (Ascii.eqb_spec e a) as [Hea|_]; [congruence|].
      cbn [andb]. now rewrite IH.
    + change (String e (String b "") +:+ expand g s)
        with (String e (String b (expand g s))).
      rewrite replace_go_cons, !prefix_cons.
      destruct (Ascii.eqb_spec x b) as [Hxb|_]; [congruence|].
      rewrite andb_false_r, replace_go_cons, prefix_cons, expand_head, andb_false_r.
      now rewrite IH.
Qed.

End UnescapeStep.

(** The last pass: a doubled release character becomes one. *)
Lemma unescape_release (s : string) :
  ReplaceAll
    (expand (fun a => if Ascii.eqb a e then String e (String e "") else String a "") s)
    (String e (String e "")) (String e "")
  = s.
Proof.
  unfold ReplaceAll.
  destruct (String.eqb_spec (String e (String e "")) (String e "")) as [Heq|_];
    [discriminate Heq|].
  induction s as [|a s IH]; [reflexivity|]. cbn [expand].
  destruct (Ascii.eqb_spec a e) as [->|Hae].
  - match goal with
    | |- context [String e (String e "") +:+ ?R] =>
      change (String e (String e "") +:+ R) with (String e (String e R))
    end.
    rewrite replace_go_cons, !prefix_cons, prefix_nil, !Ascii.eqb_refl.
    cbn [andb String.length Nat.sub replace_go]. now rewrite IH.
  - match goal with
    | |- context [String a "" +:+ ?R] =>
      change (String a "" +:+ R) with (String a R)
    end.
    rewrite replace_go_cons, prefix_cons.
    destruct (Ascii.eqb_spec e a) as [Hea|_]; [congruence|].
    cbn [andb]. now rewrite IH.
Qed.

Lemma Unescape_expand (s : string) :
  Lesson1.UnescapeSpecialCharacters (expand (escape_byte e p c t) s) d = s.
Proof.
  unfold Lesson1.UnescapeSpecialCharacters, d, byte_delimiters.
  cbn [ReleaseCharacter DataElementSeparator ComponentSeparator SegmentTerminator].
  change (String e "" +:+ String t "") with (String e (String t "")).
  change (String e "" +:+ String c "") with (String e (String c "")).
  change (String e "" +:+ String p "") with (String e (String p "")).
  change (String e "" +:+ String e "") with (String e (String e "")).
  rewrite (unescape_step t (escape_byte e p c t)).
  2: exact Het.
  2: { unfold escape_byte. now eqb_cases. }
  2: { intros a Ha. unfold escape_byte. eqb_cases; eauto. }
  rewrite (unescape_step c (plain_at t (escape_byte e p c t))).
  2: exact Hec.
  2: { unfold plain_at, escape_byte. now eqb_cases. }
  2: { intros a Ha. unfold plain_at, escape_byte. eqb_cases; eauto. }
  rewrite (unescape_step p (plain_at c (plain_at t (escape_byte e p c t)))).
  2: exact Hep.
  2: { unfold plain_at, escape_byte. now eqb_cases. }
  2: { intros a Ha. unfold plain_at, escape_byte. eqb_cases; eauto. }
  rewrite <- (unescape_release s) at 2.
  f_equal. apply expand_ext. intros a.
  unfold plain_at, escape_byte. now eqb_cases.
Qed.

(** Unescaping undoes escaping, for four distinct one-byte delimiters. *)
Lemma Unescape_Escape (s : string) :
  Lesson1.UnescapeSpecialCharacters (Lesson1.EscapeSpecialCharacters s d) d = s.
Proof. rewrite Escape_expand. apply Unescape_expand. Qed.

(** The escaped text has an element separator only where the text has
    one, and ends with the segment terminator only if the text does. *)

Lemma Contains_nil (x : ascii) : Contains "" (String x "") = false.
Proof. reflexivity. Qed.

Lemma Contains_app (x : ascii) (a b : string) :
  Contains (a +:+ b) (String x "")
  = Contains a (String x "") || Contains b (String x "").
Proof.
  induction a as [|y a IH]; [reflexivity|].
  change (String y a +:+ b) with (String y (a +:+ b)).
  now rewrite !Contains_cons, IH, orb_assoc.
Qed.

Lemma Contains_escape (s : string) :
  Contains s (String p "") = false ->
  Contains (expand (escape_byte e p c t) s) (String p "") = false.
Proof.
  induction s as [|x s IH]; intros H; [reflexivity|].
  rewrite Contains_cons in H. apply orb_false_iff in H as [Hx Hs].
  cbn [expand]. rewrite Contains_app, (IH Hs), orb_false_r.
  unfold escape_byte.
  eqb_cases; rewrite ?Contains_cons, ?Contains_nil; now eqb_cases.
Qed.

Lemma HasSuffix_cons (x y : ascii) (s : string) :
  HasSuffix (String y s) (String x "")
  = match s with
    | EmptyString => Ascii.eqb y x
    | _ => HasSuffix s (String x "")
    end.
Proof.
  destruct s as [|z s].
  - unfold HasSuffix. cbn. destruct (Ascii.eqb y x); reflexivity.
  - unfold HasSuffix. cbn [String.length Nat.leb Nat.sub andb drop].
    now rewrite Nat.sub_0_r.
Qed.

Lemma HasSuffix_app_r (x : ascii) (a b : string) :
  b <> "" -> HasSuffix (a +:+ b) (String x "") = HasSuffix b (String x "").
Proof.
  intros Hb. induction a as [|y a IH]; [reflexivity|].
  change (String y a +:+ b) with (String y (a +:+ b)).
  rewrite HasSuffix_cons, IH.
  destruct (a +:+ b) eqn:E; [|reflexivity].
  destruct a; [simpl in E; congruence | discriminate].
Qed.

Lemma escape_byte_nonempty (x : ascii) : escape_byte e p c t x <> "".
Proof. unfold escape_byte. now eqb_cases. Qed.

Lemma expand_escape_nonempty (s : string) :
  s <> "" -> expand (escape_byte e p c t) s <> "".
Proof.
  destruct s as [|x s]; [congruence|]. intros _. cbn [expand].
  pose proof (escape_byte_nonempty x). now destruct (escape_byte e p c t x).
Qed.

Lemma HasSuffix_escape (s : string) :
  HasSuffix s (String t "") = false ->
  HasSuffix (expand (escape_byte e p c t) s) (String t "") = false.
Proof.
  induction s as [|x s IH]; intros H; [reflexivity|].
  rewrite HasSuffix_cons in H. cbn [expand].
  destruct s as [|y s].
  - cbn [expand]. rewrite sapp_nil_r. unfold escape_byte.
    eqb_cases; rewrite !HasSuffix_cons; now eqb_cases.
  - rewrite HasSuffix_app_r by (apply expand_escape_nonempty; discriminate).
    now apply IH.
Qed.

(** Without an element separator in the text and without a segment
    terminator at its end, the escaped text is one token. *)
Lemma ParseSegment_Escape (s : string) :
  Contains s (String p "") = false ->
  HasSuffix s (String t "") = false ->
  Lesson1.ParseSegment (Lesson1.EscapeSpecialCharacters s d) d
  = Ok {| Lesson1.Tag := Lesson1.EscapeSpecialCharacters s d;
          Lesson1.Elements := [];
          Lesson1.Delimiters := d |}.
Proof.
  intros Hp Ht. rewrite ParseSegment1_unfold, Escape_expand.
  unfold d, byte_delimiters.
  cbn [SegmentTerminator DataElementSeparator].
  unfold TrimSuffix. rewrite (HasSuffix_escape s Ht).
  rewrite Split_sep, split_go_no_sep by (now apply Contains_escape).
  reflexivity.
Qed.

End Escaping.

(** ** Composite elements (lesson 3) *)

(** C10. For every text and every delimiter configuration, splitting the
    text into components with [ParseCompositeElement] and joining the
    components again with [ToString] gives the text back unchanged; empty
    components, also leading and trailing ones, are kept. *)
Theorem composite_ToString_Parse (s : string) (d : EDIFACTDelimiters) :
  Lesson3.ToString (Lesson3.ParseCompositeElement s d) d = s.
Proof.
  unfold Lesson3.ToString, Lesson3.ParseCompositeElement. cbn [Lesson3.Components].
  apply Join_Split.
Qed.

(** ** Parsing one segment (lessons 1, 2 and 4) *)

(** C5. With the standard delimiters, [NAD+BY+++NAME'] parses to the tag
    [NAD] and exactly four elements, [BY], two empty strings and [NAME], in
    the segment parser of lesson 1 as in the message parser of lesson 4.
    In general, for a one-byte element separator, a tag and elements that
    do not contain it are recovered from the text [ToString] writes, in
    number and in order: an empty element between two separators stays an
    empty element. *)
Theorem ParseSegment_keeps_empty_elements :
  Lesson1.ParseSegment "NAD+BY+++NAME'" standard_delimiters
  = Ok {| Lesson1.Tag := "NAD";
          Lesson1.Elements := ["BY"; ""; ""; "NAME"];
          Lesson1.Delimiters := standard_delimiters |}
  /\ Lesson4.Segments (Lesson4.ParseEDIFACTMessage "NAD+BY+++NAME'")
     = [ {| Lesson4.Tag := "NAD";
            Lesson4.Elements := ["BY"; ""; ""; "NAME"];
            Lesson4.Position := 0 |} ]
  /\ forall (d : EDIFACTDelimiters) (c : ascii) (tag : string) (es : list string),
      DataElementSeparator d = String c "" ->
      Forall (fun p => Contains p (String c "") = false) (tag :: es) ->
      Lesson1.ParseSegment
        (Lesson1.ToString
           {| Lesson1.Tag := tag; Lesson1.Elements := es; Lesson1.Delimiters := d |}) d
      = Ok {| Lesson1.Tag := tag; Lesson1.Elements := es; Lesson1.Delimiters := d |}.
Proof.
  split; [reflexivity|]. split; [reflexivity|].
  intros d c tag es Hsep Hes.
  rewrite ParseSegment1_unfold, ToString1_unfold. cbn [Lesson1.Tag Lesson1.Elements Lesson1.Delimiters].
  rewrite TrimSuffix_app, Hsep, Split_Join by exact Hes.
  reflexivity.
Qed.

(** The general part of C5 at the segment [NAD+BY+++NAME']. *)
Lemma ParseSegment_keeps_empty_elements_witness :
  Forall (fun p => Contains p "+" = false) ["NAD"; "BY"; ""; ""; "NAME"]
  /\ Lesson1.ToString
       {| Lesson1.Tag := "NAD"; Lesson1.Elements := ["BY"; ""; ""; "NAME"];
          Lesson1.Delimiters := standard_delimiters |} = "NAD+BY+++NAME'"
  /\ Lesson1.ParseSegment
       (Lesson1.ToString
          {| Lesson1.Tag := "NAD"; Lesson1.Elements := ["BY"; ""; ""; "NAME"];
             Lesson1.Delimiters := standard_delimiters |}) standard_delimiters
     = Ok {| Lesson1.Tag := "NAD"; Lesson1.Elements := ["BY"; ""; ""; "NAME"];
             Lesson1.Delimiters := standard_delimiters |}.
Proof.
  assert (H : Forall (fun p => Contains p "+" = false) ["NAD"; "BY"; ""; ""; "NAME"]).
  { repeat constructor. }
  split; [exact H|]. split; [reflexivity|].
  exact (proj2 (proj2 ParseSegment_keeps_empty_elements)
               standard_delimiters "+"%char "NAD" ["BY"; ""; ""; "NAME"]
               eq_refl H).
Defined.

(** C6, as the code has it. [ParseSegment] stores every token as it stands
    in the raw text and unescapes nothing: the tag and the element values,
    joined with the element separator, are the raw text less its trailing
    segment terminator, in lesson 1 as in lesson 2.  A doubled release
    character in the raw text is therefore still doubled in the element
    value. *)
Theorem ParseSegment_stores_tokens_verbatim
        (s : string) (d : EDIFACTDelimiters) :
  (forall seg, Lesson1.ParseSegment s d = Ok seg ->
     Join (Lesson1.Tag seg :: Lesson1.Elements seg) (DataElementSeparator d)
     = TrimSuffix s (SegmentTerminator d))
  /\
  (forall seg, Lesson2.ParseSegment s d = Ok seg ->
     Join (Lesson2.Tag seg :: map Lesson2.Value (Lesson2.Elements seg))
          (DataElementSeparator d)
     = TrimSuffix s (SegmentTerminator d)).
Proof.
  split; intros seg H.
  - rewrite ParseSegment1_unfold in H.
    pose proof (Join_Split (TrimSuffix s (SegmentTerminator d))
                           (DataElementSeparator d)) as HJ.
    destruct (Split _ _) as [|p0 rest]; [discriminate|].
    injection H as <-. exact HJ.
  - unfold Lesson2.ParseSegment in H.
    pose proof (Join_Split (TrimSuffix s (SegmentTerminator d))
                           (DataElementSeparator d)) as HJ.
    destruct (Split _ _) as [|p0 rest]; [discriminate|].
    injection H as <-.
    destruct (fold_AddElement rest (Lesson2.NewEDIFACTSegment p0 d)) as (Ht & _ & Hv).
    rewrite Ht, Hv. exact HJ.
Qed.

(** C6 at the raw segment [FTX+AAA+a??b']. *)
Lemma ParseSegment_stores_tokens_verbatim_witness :
  exists seg,
    Lesson1.ParseSegment "FTX+AAA+a??b'" standard_delimiters = Ok seg
    /\ Lesson1.Elements seg = ["AAA"; "a??b"]
    /\ Join (Lesson1.Tag seg :: Lesson1.Elements seg) "+" = "FTX+AAA+a??b".
Proof.
  eexists. split; [reflexivity|]. split; [reflexivity|].
  exact (proj1 (ParseSegment_stores_tokens_verbatim "FTX+AAA+a??b'" standard_delimiters)
               _ eq_refl).
Defined.

(** C6 fails as stated: the element [a??b] of the raw segment is stored
    with both release characters, in lesson 1 and in lesson 2; it is
    [UnescapeSpecialCharacters], called on its own, that makes [a?b] of it. *)
Lemma ParseSegment_does_not_unescape :
  Lesson1.ParseSegment "FTX+AAA+a??b'" standard_delimiters
  = Ok {| Lesson1.Tag := "FTX"; Lesson1.Elements := ["AAA"; "a??b"];
          Lesson1.Delimiters := standard_delimiters |}
  /\ (exists seg, Lesson2.ParseSegment "FTX+AAA+a??b'" standard_delimiters = Ok seg
                 /\ map Lesson2.Value (Lesson2.Elements seg) = ["AAA"; "a??b"])
  /\ Lesson1.UnescapeSpecialCharacters "a??b" standard_delimiters = "a?b"
  /\ "a??b" <> "a?b".
Proof.
  split; [reflexivity|]. split; [eexists; split; reflexivity|].
  split; [reflexivity | discriminate].
Qed.

(** C7, as the code has it. An empty raw input is parsed without failure:
    [ParseEDIFACTMessage] has no error result and returns a message with an
    empty type and no segments, in lesson 4 as in the advanced lesson 2;
    [ParseSegment] returns a segment with an empty tag and no elements,
    whatever the delimiters, provided the element separator is not empty. *)
Theorem empty_input_parses
        (d : EDIFACTDelimiters) (Hsep : DataElementSeparator d <> "") :
  Lesson4.ParseEDIFACTMessage ""
  = {| Lesson4.MessageType := ""; Lesson4.Segments := [];
       Lesson4.Groups := []; Lesson4.RawContent := "" |}
  /\ AdvLesson2.ParseEDIFACTMessage ""
     = {| AdvLesson2.MessageType := ""; AdvLesson2.Segments := [];
          AdvLesson2.RawContent := "" |}
  /\ Lesson1.ParseSegment "" d
     = Ok {| Lesson1.Tag := ""; Lesson1.Elements := []; Lesson1.Delimiters := d |}
  /\ Lesson2.ParseSegment "" d
     = Ok {| Lesson2.Tag := ""; Lesson2.Elements := []; Lesson2.Delimiters := d |}.
Proof.
  split; [reflexivity|]. split; [reflexivity|].
  unfold Lesson2.ParseSegment. rewrite ParseSegment1_unfold, TrimSuffix_empty.
  destruct (DataElementSeparator d) as [|x sep]; [congruence|].
  split; reflexivity.
Qed.

(** C7 with the standard delimiters. *)
Lemma empty_input_parses_witness :
  DataElementSeparator standard_delimiters <> ""
  /\ Lesson1.ParseSegment "" standard_delimiters
     = Ok {| Lesson1.Tag := ""; Lesson1.Elements := [];
             Lesson1.Delimiters := standard_delimiters |}.
Proof.
  assert (H : DataElementSeparator standard_delimiters <> "") by discriminate.
  split; [exact H|].
  exact (proj1 (proj2 (proj2 (empty_input_parses standard_delimiters H)))).
Defined.

(** C7 fails as stated: on the empty input the message parser returns a
    message, and the segment parser a segment and no error. *)
Lemma empty_input_is_no_error :
  Lesson4.Segments (Lesson4.ParseEDIFACTMessage "") = []
  /\ Lesson4.MessageType (Lesson4.ParseEDIFACTMessage "") = ""
  /\ (forall msg, Lesson1.ParseSegment "" standard_delimiters <> Err msg).
Proof.
  split; [reflexivity|]. split; [reflexivity|]. intros msg. discriminate.
Qed.

(** C9, as the code has it. For every input and every delimiter
    configuration whose data element separator is not empty, [ParseSegment]
    returns a segment and no error, in lesson 1 as in lesson 2: a split at a
    non-empty separator has at least one part.  The error branch is taken
    when the separator is empty and the input is empty once its segment
    terminator is cut off. *)
Theorem ParseSegment_succeeds (s : string) (d : EDIFACTDelimiters) :
  (DataElementSeparator d <> "" ->
   (exists seg, Lesson1.ParseSegment s d = Ok seg)
   /\ (exists seg, Lesson2.ParseSegment s d = Ok seg))
  /\
  (DataElementSeparator d = "" ->
   TrimSuffix s (SegmentTerminator d) = "" ->
   Lesson1.ParseSegment s d = Err "empty segment"
   /\ Lesson2.ParseSegment s d = Err "empty segment").
Proof.
  split.
  - intros Hsep.
    pose proof (Split_nonempty_sep (TrimSuffix s (SegmentTerminator d)) _ Hsep) as H.
    unfold Lesson2.ParseSegment. rewrite ParseSegment1_unfold.
    destruct (Split _ _) as [|p0 rest]; [congruence|].
    split; eexists; reflexivity.
  - intros Hsep Hs.
    unfold Lesson2.ParseSegment. rewrite ParseSegment1_unfold, Hsep, Hs.
    split; reflexivity.
Qed.

(** C9 on the empty input: with the standard delimiters, and with an
    empty element separator. *)
Lemma ParseSegment_succeeds_witness :
  DataElementSeparator standard_delimiters <> ""
  /\ (exists seg, Lesson1.ParseSegment "" standard_delimiters = Ok seg)
  /\ (exists seg, Lesson2.ParseSegment "" standard_delimiters = Ok seg)
  /\ Lesson1.ParseSegment "'" (mkDelimiters "'" "" ":" "?") = Err "empty segment".
Proof.
  assert (H : DataElementSeparator standard_delimiters <> "") by discriminate.
  split; [exact H|].
  destruct (proj1 (ParseSegment_succeeds "" standard_delimiters) H) as [H1 H2].
  split; [exact H1|]. split; [exact H2|].
  exact (proj1 (proj2 (ParseSegment_succeeds "'" (mkDelimiters "'" "" ":" "?"))
                      eq_refl eq_refl)).
Defined.

(** C9 fails as stated: with an empty data element separator, the split of
    an empty text has no part and both parsers take their error branch, on
    the empty input and on an input that is only the segment terminator. *)
Lemma ParseSegment_error_branch_reached :
  let d := {| SegmentTerminator := "'"; DataElementSeparator := "";
              ComponentSeparator := ":"; ReleaseCharacter := "?" |} in
  Lesson1.ParseSegment "" d = Err "empty segment"
  /\ Lesson1.ParseSegment "'" d = Err "empty segment"
  /\ Lesson2.ParseSegment "" d = Err "empty segment".
Proof. repeat split; reflexivity. Qed.

(** ** Escaping and tokenizing (lesson 1) *)

Lemma distinct_four (e p c t : ascii) :
  distinct [e; p; c; t] = true ->
  e <> p /\ e <> c /\ e <> t /\ p <> c /\ p <> t /\ c <> t.
Proof.
  cbn [distinct forallb]. intros H.
  repeat (apply andb_true_iff in H as [? H]).
  repeat match goal with
         | H : _ && _ = true |- _ => apply andb_true_iff in H as [? ?]
         | H : negb _ = true |- _ => apply negb_true_iff, Ascii.eqb_neq in H
         end.
  tauto.
Qed.

(** C1, as the code has it. For four distinct one-byte delimiters and
    every text, [UnescapeSpecialCharacters] undoes
    [EscapeSpecialCharacters].  [ParseSegment] splits at every element
    separator and cuts a segment terminator at the end, escaped or not; so
    escaping, tokenizing and unescaping gives the text back, as the only
    token, when the text has no element separator and does not end with the
    segment terminator. *)
Theorem escape_tokenize_unescape (e p c t : ascii) (s : string) :
  distinct [e; p; c; t] = true ->
  let d := byte_delimiters e p c t in
  Lesson1.UnescapeSpecialCharacters (Lesson1.EscapeSpecialCharacters s d) d = s
  /\ (Contains s (String p "") = false ->
      HasSuffix s (String t "") = false ->
      exists seg,
        Lesson1.ParseSegment (Lesson1.EscapeSpecialCharacters s d) d = Ok seg
        /\ Lesson1.Elements seg = []
        /\ Lesson1.UnescapeSpecialCharacters (Lesson1.Tag seg) d = s).
Proof.
  intros Hd d. apply distinct_four in Hd as (Hep & Hec & Het & Hpc & Hpt & Hct).
  pose proof (Unescape_Escape e p c t Hep Hec Het Hpc Hpt Hct s) as HU.
  split; [exact HU|]. intros Hp Ht.
  eexists. split; [now apply ParseSegment_Escape|].
  split; [reflexivity | exact HU].
Qed.

(** C1 at the text [a:b?c'd], which holds three of the standard
    delimiters. *)
Lemma escape_tokenize_unescape_witness :
  distinct ["?"; "+"; ":"; "'"]%char = true
  /\ byte_delimiters "?" "+" ":" "'" = standard_delimiters
  /\ Lesson1.EscapeSpecialCharacters "a:b?c'd" standard_delimiters = "a?:b??c?'d"
  /\ Lesson1.UnescapeSpecialCharacters
       (Lesson1.EscapeSpecialCharacters "a:b?c'd" standard_delimiters)
       standard_delimiters = "a:b?c'd"
  /\ exists seg,
       Lesson1.ParseSegment
         (Lesson1.EscapeSpecialCharacters "a:b?c'd" standard_delimiters)
         standard_delimiters = Ok seg
       /\ Lesson1.Elements seg = []
       /\ Lesson1.UnescapeSpecialCharacters (Lesson1.Tag seg) standard_delimiters
          = "a:b?c'd".
Proof.
  split; [reflexivity|]. split; [reflexivity|]. split; [reflexivity|].
  pose proof (escape_tokenize_unescape "?" "+" ":" "'" "a:b?c'd" eq_refl) as [H1 H2].
  split; [exact H1|]. exact (H2 eq_refl eq_refl).
Defined.

(** C1 fails as stated: the text [a+b] holds the element separator; it is
    escaped to [a?+b], which [ParseSegment] splits at the escaped separator
    into the tokens [a?] and [b]; unescaping them leaves them as they are,
    and the text is not recovered. *)
Lemma escaped_separator_is_split :
  Contains "a+b" "+" = true
  /\ Lesson1.EscapeSpecialCharacters "a+b" standard_delimiters = "a?+b"
  /\ Lesson1.ParseSegment "a?+b" standard_delimiters
     = Ok {| Lesson1.Tag := "a?"; Lesson1.Elements := ["b"];
             Lesson1.Delimiters := standard_delimiters |}
  /\ map (fun token => Lesson1.UnescapeSpecialCharacters token standard_delimiters)
         ["a?"; "b"] = ["a?"; "b"]
  /\ ["a?"; "b"] <> ["a+b"].
Proof. repeat split; try reflexivity. discriminate. Qed.

(** ** The message header (lessons 4 and 6) *)

(** C3 on the header [UNH+1+INVOIC:D:97A:UN']. The message type is read
    from the first component, here and in [ParseEDIFACTMessage]; but
    [extractServiceSegmentInfo] reads the release from the third component
    and the version from the fourth, so that it reports release [97A] and
    version [UN] where the lesson's own text names release [D], version
    [97A] and agency [UN]; no field holds the agency. *)
Theorem extractServiceSegmentInfo_header (now : Z) :
  let segment :=
    {| Lesson6.Tag := "UNH"; Lesson6.Elements := ["1"; "INVOIC:D:97A:UN"];
       Lesson6.Position := 0; Lesson6.Raw := "UNH+1+INVOIC:D:97A:UN'" |} in
  let info := Lesson6.extractServiceSegmentInfo now segment in
  Split "INVOIC:D:97A:UN" ":" = ["INVOIC"; "D"; "97A"; "UN"]
  /\ Lesson6.iMessageType info = "INVOIC"
  /\ Lesson6.iRelease info = "97A"
  /\ Lesson6.iVersion info = "UN"
  /\ Lesson6.iRelease info <> "D"
  /\ Lesson6.iVersion info <> "97A"
  /\ Lesson6.validateUNH segment = None
  /\ Lesson4.MessageType (Lesson4.ParseEDIFACTMessage "UNH+1+INVOIC:D:97A:UN'")
     = "INVOIC".
Proof. repeat split; try reflexivity; discriminate. Qed.

(** ** Routing (advanced lesson 2) *)

Section Routing.

Import AdvLesson2.

Lemma register_all_fallback (regs : list (string * MessageHandler)) (md : MessageDetector) :
  fallback (register_all md regs) = fallback md.
Proof.
  revert md; induction regs as [|r regs IH]; intros md; [reflexivity|].
  unfold register_all in *. cbn [fold_left]. now rewrite IH.
Qed.

Lemma register_all_other (regs : list (string * MessageHandler))
      (md : MessageDetector) (ty : string) :
  Forall (fun r => fst r <> ty) regs ->
  handlers (register_all md regs) !! ty = handlers md !! ty.
Proof.
  revert md; induction regs as [|r regs IH]; intros md H; [reflexivity|].
  inversion H as [|? ? Hr Hregs]; subst.
  unfold register_all in *. cbn [fold_left]. rewrite (IH _ Hregs).
  unfold RegisterHandler. cbn [handlers]. now apply lookup_insert_ne.
Qed.

Lemma DetectAndRoute_registered (md : MessageDetector) (m : EDIFACTMessage)
      (h : MessageHandler) :
  handlers md !! MessageType m = Some h ->
  DetectAndRoute md m
  = (Process h m,
     [Printed ("Routing " +:+ MessageType m +:+ " message to "
               +:+ GetMessageType h +:+ " handler" +:+ nl);
      Called (addr h)]).
Proof. intros H. unfold DetectAndRoute. now rewrite H. Qed.

Lemma DetectAndRoute_unregistered (md : MessageDetector) (m : EDIFACTMessage) :
  handlers md !! MessageType m = None ->
  DetectAndRoute md m
  = (Process (fallback md) m,
     [Printed ("No specific handler for " +:+ MessageType m
               +:+ ", using fallback" +:+ nl);
      Called (addr (fallback md))]).
Proof. intros H. unfold DetectAndRoute. now rewrite H. Qed.

End Routing.

(** C2, as the code has it. The registry is a map from message type to
    handler, and a registration under a type replaces the one before: when
    [h1] is registered for a type and [h2] is registered for it later,
    whatever is registered in between, a message of that type is routed to
    [h2], whose result is returned, and [h1] is not run. *)
Theorem last_registration_wins
        (md : AdvLesson2.MessageDetector) (ty : string)
        (h1 h2 : AdvLesson2.MessageHandler)
        (between : list (string * AdvLesson2.MessageHandler))
        (m : AdvLesson2.EDIFACTMessage) :
  AdvLesson2.MessageType m = ty ->
  AdvLesson2.addr h1 <> AdvLesson2.addr h2 ->
  let md' :=
    AdvLesson2.RegisterHandler
      (AdvLesson2.register_all (AdvLesson2.RegisterHandler md ty h1) between) ty h2 in
  fst (AdvLesson2.DetectAndRoute md' m) = AdvLesson2.Process h2 m
  /\ AdvLesson2.calls (snd (AdvLesson2.DetectAndRoute md' m)) = [AdvLesson2.addr h2]
  /\ ~ In (AdvLesson2.addr h1) (AdvLesson2.calls (snd (AdvLesson2.DetectAndRoute md' m))).
Proof.
  intros Hty Hne md'.
  assert (H : AdvLesson2.handlers md' !! AdvLesson2.MessageType m = Some h2).
  { subst ty md'. unfold AdvLesson2.RegisterHandler at 1. cbn [AdvLesson2.handlers].
    apply lookup_insert_eq. }
  rewrite (DetectAndRoute_registered md' m h2 H). cbn [fst snd].
  split; [reflexivity|]. split; [reflexivity|].
  intros [Hin|[]]. congruence.
Qed.

(** C2 for two order handlers and the order message of [main]. *)
Lemma last_registration_wins_witness :
  let h1 := AdvLesson2.NewOrderHandler 1 in
  let h2 := AdvLesson2.NewOrderHandler 2 in
  let m := AdvLesson2.ParseEDIFACTMessage AdvLesson2.orderMessage in
  let md' :=
    AdvLesson2.RegisterHandler
      (AdvLesson2.register_all
         (AdvLesson2.RegisterHandler (AdvLesson2.NewMessageDetector 0) "ORDERS" h1) [])
      "ORDERS" h2 in
  AdvLesson2.MessageType m = "ORDERS"
  /\ fst (AdvLesson2.DetectAndRoute md' m) = AdvLesson2.Process h2 m
  /\ AdvLesson2.calls (snd (AdvLesson2.DetectAndRoute md' m)) = [2]
  /\ ~ In 1 (AdvLesson2.calls (snd (AdvLesson2.DetectAndRoute md' m))).
Proof.
  intros h1 h2 m md'.
  assert (Hty : AdvLesson2.MessageType m = "ORDERS") by reflexivity.
  assert (Hne : AdvLesson2.addr h1 <> AdvLesson2.addr h2) by (simpl; lia).
  split; [exact Hty|].
  exact (last_registration_wins (AdvLesson2.NewMessageDetector 0) "ORDERS"
                                h1 h2 [] m Hty Hne).
Defined.

(** C2 fails as stated: of two order handlers registered one after the
    other for [ORDERS], the order message of [main] is routed to the second
    and the first is not run. *)
Lemma first_registration_is_replaced :
  let h1 := AdvLesson2.NewOrderHandler 1 in
  let h2 := AdvLesson2.NewOrderHandler 2 in
  let md :=
    AdvLesson2.RegisterHandler
      (AdvLesson2.RegisterHandler (AdvLesson2.NewMessageDetector 0) "ORDERS" h1)
      "ORDERS" h2 in
  AdvLesson2.DetectAndRoute md (AdvLesson2.ParseEDIFACTMessage AdvLesson2.orderMessage)
  = (None,
     [AdvLesson2.Printed ("Routing ORDERS message to ORDERS handler" +:+ AdvLesson2.nl);
      AdvLesson2.Called 2]).
Proof. vm_compute. reflexivity. Qed.

(** C4. When no handler is registered for the type of a message, also
    when none is registered at all, the detector built by
    [NewMessageDetector] returns no error: it runs its generic fallback
    handler, and only that one, whose [Process] returns [nil] on every
    message. *)
Theorem unregistered_type_falls_back
        (a : nat) (regs : list (string * AdvLesson2.MessageHandler))
        (m : AdvLesson2.EDIFACTMessage) :
  Forall (fun r => fst r <> AdvLesson2.MessageType m) regs ->
  AdvLesson2.DetectAndRoute
    (AdvLesson2.register_all (AdvLesson2.NewMessageDetector a) regs) m
  = (None,
     [AdvLesson2.Printed ("No specific handler for " +:+ AdvLesson2.MessageType m
                          +:+ ", using fallback" +:+ AdvLesson2.nl);
      AdvLesson2.Called a])
  /\ forall m', AdvLesson2.Process (AdvLesson2.GenericHandler a) m' = None.
Proof.
  intros H. split; [|reflexivity].
  rewrite DetectAndRoute_unregistered.
  - now rewrite register_all_fallback.
  - rewrite (register_all_other regs _ _ H). apply lookup_empty.
Qed.

(** C4 for the detector of [main] and its message of unknown type, and
    for a detector without registrations. *)
Lemma unregistered_type_falls_back_witness :
  let regs := [("INVOIC", AdvLesson2.NewInvoiceHandler 1);
               ("ORDERS", AdvLesson2.NewOrderHandler 2)] in
  let m := AdvLesson2.ParseEDIFACTMessage AdvLesson2.unknownMessage in
  AdvLesson2.MessageType m = "UNKNOWN"
  /\ fst (AdvLesson2.DetectAndRoute
            (AdvLesson2.register_all (AdvLesson2.NewMessageDetector 0) regs) m) = None
  /\ fst (AdvLesson2.DetectAndRoute
            (AdvLesson2.register_all (AdvLesson2.NewMessageDetector 0) []) m) = None.
Proof.
  intros regs m.
  assert (H : Forall (fun r => fst r <> AdvLesson2.MessageType m) regs).
  { repeat constructor; discriminate. }
  split; [reflexivity|]. split.
  - exact (f_equal fst (proj1 (unregistered_type_falls_back 0 regs m H))).
  - exact (f_equal fst (proj1 (unregistered_type_falls_back 0 [] m
                                 (List.Forall_nil _)))).
Defined.

(** C8. When a handler is registered for the type of a message and its
    [Process] returns an error, the detector returns that very error: it
    runs that handler once and runs no other handler, nor the fallback. *)
Theorem handler_error_is_returned
        (md : AdvLesson2.MessageDetector) (m : AdvLesson2.EDIFACTMessage)
        (h : AdvLesson2.MessageHandler) (err : string) :
  AdvLesson2.handlers md !! AdvLesson2.MessageType m = Some h ->
  AdvLesson2.Process h m = Some err ->
  fst (AdvLesson2.DetectAndRoute md m) = Some err
  /\ AdvLesson2.calls (snd (AdvLesson2.DetectAndRoute md m)) = [AdvLesson2.addr h].
Proof.
  intros Hh Herr. rewrite (DetectAndRoute_registered md m h Hh).
  cbn [fst snd]. split; [exact Herr | reflexivity].
Qed.

(** C8 for the invoice handler and an invoice without a number. *)
Lemma handler_error_is_returned_witness :
  let h := AdvLesson2.NewInvoiceHandler 1 in
  let md := AdvLesson2.RegisterHandler
              (AdvLesson2.RegisterHandler (AdvLesson2.NewMessageDetector 0) "INVOIC" h)
              "ORDERS" (AdvLesson2.NewOrderHandler 2) in
  let m := AdvLesson2.ParseEDIFACTMessage AdvLesson2.invoiceWithoutNumber in
  AdvLesson2.Process h m = Some "validation failed: invoice number is required"
  /\ fst (AdvLesson2.DetectAndRoute md m)
     = Some "validation failed: invoice number is required"
  /\ AdvLesson2.calls (snd (AdvLesson2.DetectAndRoute md m)) = [1].
Proof.
  intros h md m.
  assert (Hh : AdvLesson2.handlers md !! AdvLesson2.MessageType m = Some h).
  { vm_compute. reflexivity. }
  assert (He : AdvLesson2.Process h m
               = Some "validation failed: invoice number is required").
  { vm_compute. reflexivity. }
  split; [exact He|].
  exact (handler_error_is_returned md m h _ Hh He).
Defined.

(** * Further properties of the lessons *)

(** ** Segments written and read back (lessons 1 and 2) *)

Section WriteAfterRead.

Lemma TrimSuffix_HasSuffix (s suffix : string) :
  HasSuffix s suffix = true -> TrimSuffix s suffix +:+ suffix = s.
Proof.
  intros H. unfold TrimSuffix. rewrite H. unfold HasSuffix in H.
  apply andb_true_iff in H as [_ H]. apply String.eqb_eq in H.
  rewrite <- H at 2. apply take_drop.
Qed.

Lemma TrimSuffix_not_HasSuffix (s suffix : string) :
  HasSuffix s suffix = false -> TrimSuffix s suffix = s.
Proof. intros H. unfold TrimSuffix. now rewrite H. Qed.

Lemma fold_snoc_Values (es : list Lesson2.EDIFACTElement) (acc : list string) :
  fold_left (fun parts element => parts ++ [Lesson2.Value element]) es acc
  = acc ++ map Lesson2.Value es.
Proof.
  revert acc; induction es as [|e es IH]; intros acc; simpl.
  - now rewrite app_nil_r.
  - rewrite IH. now rewrite <- app_assoc.
Qed.

Lemma ToString2_unfold (seg : Lesson2.EDIFACTSegment) :
  Lesson2.ToString seg =
  Join (Lesson2.Tag seg :: map Lesson2.Value (Lesson2.Elements seg))
       (DataElementSeparator (Lesson2.Delimiters seg))
  +:+ SegmentTerminator (Lesson2.Delimiters seg).
Proof. unfold Lesson2.ToString. now rewrite fold_snoc_Values. Qed.

Lemma ParseSegment1_Delimiters (s : string) (d : EDIFACTDelimiters)
      (seg : Lesson1.EDIFACTSegment) :
  Lesson1.ParseSegment s d = Ok seg -> Lesson1.Delimiters seg = d.
Proof.
  rewrite ParseSegment1_unfold. destruct (Split _ _); [discriminate|].
  now intros [= <-].
Qed.

Lemma ParseSegment2_Delimiters (s : string) (d : EDIFACTDelimiters)
      (seg : Lesson2.EDIFACTSegment) :
  Lesson2.ParseSegment s d = Ok seg -> Lesson2.Delimiters seg = d.
Proof.
  unfold Lesson2.ParseSegment. destruct (Split _ _) as [|p0 rest]; [discriminate|].
  intros [= <-]. now destruct (fold_AddElement rest (Lesson2.NewEDIFACTSegment p0 d))
    as (_ & -> & _).
Qed.

End WriteAfterRead.

(** X1. [ToString] after [ParseSegment] writes the text that was read,
    with exactly one segment terminator at its end: a text that ends with
    the terminator comes back unchanged, a text without it comes back with
    the terminator added.  This holds in lesson 1 and in lesson 2, for all
    delimiters. *)
Theorem ToString_after_ParseSegment (s : string) (d : EDIFACTDelimiters) :
  (forall seg, Lesson1.ParseSegment s d = Ok seg ->
     Lesson1.ToString seg = TrimSuffix s (SegmentTerminator d) +:+ SegmentTerminator d
     /\ (HasSuffix s (SegmentTerminator d) = true -> Lesson1.ToString seg = s)
     /\ (HasSuffix s (SegmentTerminator d) = false ->
         Lesson1.ToString seg = s +:+ SegmentTerminator d))
  /\
  (forall seg, Lesson2.ParseSegment s d = Ok seg ->
     Lesson2.ToString seg = TrimSuffix s (SegmentTerminator d) +:+ SegmentTerminator d
     /\ (HasSuffix s (SegmentTerminator d) = true -> Lesson2.ToString seg = s)
     /\ (HasSuffix s (SegmentTerminator d) = false ->
         Lesson2.ToString seg = s +:+ SegmentTerminator d)).
Proof.
  pose proof (Join_Split (TrimSuffix s (SegmentTerminator d))
                         (DataElementSeparator d)) as HJ.
  split; intros seg H.
  - assert (E : Lesson1.ToString seg
                = TrimSuffix s (SegmentTerminator d) +:+ SegmentTerminator d).
    { rewrite ToString1_unfold, (ParseSegment1_Delimiters _ _ _ H).
      rewrite ParseSegment1_unfold in H.
      destruct (Split _ _) as [|p0 rest]; [discriminate|].
      injection H as <-. cbn [Lesson1.Tag Lesson1.Elements]. now rewrite HJ. }
    split; [exact E|]. split; intros Hs; rewrite E.
    + now apply TrimSuffix_HasSuffix.
    + now rewrite TrimSuffix_not_HasSuffix.
  - assert (E : Lesson2.ToString seg
                = TrimSuffix s (SegmentTerminator d) +:+ SegmentTerminator d).
    { rewrite ToString2_unfold, (ParseSegment2_Delimiters _ _ _ H).
      unfold Lesson2.ParseSegment in H.
      destruct (Split _ _) as [|p0 rest]; [discriminate|].
      injection H as <-.
      destruct (fold_AddElement rest (Lesson2.NewEDIFACTSegment p0 d)) as (Ht & _ & Hv).
      rewrite Ht, Hv. cbn [Lesson2.NewEDIFACTSegment Lesson2.Tag Lesson2.Elements map app].
      now rewrite HJ. }
    split; [exact E|]. split; intros Hs; rewrite E.
    + now apply TrimSuffix_HasSuffix.
    + now rewrite TrimSuffix_not_HasSuffix.
Qed.

(** X1 on a line item with an empty element, and on a name segment read
    without its terminator. *)
Lemma ToString_after_ParseSegment_witness :
  (exists seg, Lesson1.ParseSegment "LIN+1++1234567890123:EN'" standard_delimiters = Ok seg
               /\ Lesson1.ToString seg = "LIN+1++1234567890123:EN'")
  /\ (exists seg, Lesson2.ParseSegment "NAD+BY+++ACME CORP" standard_delimiters = Ok seg
                  /\ Lesson2.ToString seg = "NAD+BY+++ACME CORP'").
Proof.
  split.
  - destruct (Lesson1.ParseSegment "LIN+1++1234567890123:EN'" standard_delimiters)
      as [seg|msg] eqn:E; [|vm_compute in E; discriminate E].
    exists seg. split; [reflexivity|].
    assert (Hs : HasSuffix "LIN+1++1234567890123:EN'"
                           (SegmentTerminator standard_delimiters) = true)
      by (vm_compute; reflexivity).
    exact (proj1 (proj2 (proj1 (ToString_after_ParseSegment _ _) seg E)) Hs).
  - destruct (Lesson2.ParseSegment "NAD+BY+++ACME CORP" standard_delimiters)
      as [seg|msg] eqn:E; [|vm_compute in E; discriminate E].
    exists seg. split; [reflexivity|].
    assert (Hs : HasSuffix "NAD+BY+++ACME CORP"
                           (SegmentTerminator standard_delimiters) = false)
      by (vm_compute; reflexivity).
    exact (proj2 (proj2 (proj2 (ToString_after_ParseSegment _ _) seg E)) Hs).
Defined.

(** ** Elements appended to a segment (lesson 1) *)

Lemma Join_snoc (x : string) (l : list string) (e sep : string) :
  Join ((x :: l) ++ [e]) sep = Join (x :: l) sep +:+ sep +:+ e.
Proof.
  revert x; induction l as [|y l IH]; intros x; [reflexivity|].
  change ((x :: y :: l) ++ [e]) with (x :: ((y :: l) ++ [e])).
  change ((y :: l) ++ [e]) with (y :: (l ++ [e])) at 1.
  rewrite Join_cons_cons.
  change (y :: (l ++ [e])) with ((y :: l) ++ [e]).
  rewrite IH, Join_cons_cons. now rewrite !sapp_assoc.
Qed.

(** X2. Appending an element to a segment puts the element separator and
    the element in front of the segment terminator of the written text;
    [AddEmptyElement] puts only the separator there. *)
Theorem AddElement_ToString (seg : Lesson1.EDIFACTSegment) (element : string) :
  let sep := DataElementSeparator (Lesson1.Delimiters seg) in
  let term := SegmentTerminator (Lesson1.Delimiters seg) in
  Lesson1.ToString (Lesson1.AddElement seg element)
  = TrimSuffix (Lesson1.ToString seg) term +:+ sep +:+ element +:+ term
  /\ Lesson1.ToString (Lesson1.AddEmptyElement seg)
     = TrimSuffix (Lesson1.ToString seg) term +:+ sep +:+ term
  /\ List.length (Lesson1.Elements (Lesson1.AddElement seg element))
     = S (List.length (Lesson1.Elements seg)).
Proof.
  intros sep term. rewrite !ToString1_unfold.
  cbn [Lesson1.AddElement Lesson1.AddEmptyElement Lesson1.Tag Lesson1.Elements
       Lesson1.Delimiters].
  fold sep term. rewrite TrimSuffix_app.
  change (Lesson1.Tag seg :: Lesson1.Elements seg ++ [element])
    with ((Lesson1.Tag seg :: Lesson1.Elements seg) ++ [element]).
  change (Lesson1.Tag seg :: Lesson1.Elements seg ++ [""])
    with ((Lesson1.Tag seg :: Lesson1.Elements seg) ++ [""]).
  rewrite !Join_snoc, !sapp_assoc, length_app. cbn [List.length].
  repeat split; lia.
Qed.

(** ** Elements and their positions (lesson 2) *)

Section Lesson2Elements.

Lemma fold_AddElement_from (rest : list string) (seg : Lesson2.EDIFACTSegment) :
  fold_left Lesson2.AddElement rest seg
  = {| Lesson2.Tag := Lesson2.Tag seg;
       Lesson2.Elements :=
         Lesson2.Elements seg
         ++ elements_from (Lesson2.Delimiters seg)
                          (List.length (Lesson2.Elements seg)) rest;
       Lesson2.Delimiters := Lesson2.Delimiters seg |}.
Proof.
  revert seg; induction rest as [|v rest IH]; intros seg.
  - cbn [fold_left elements_from]. rewrite app_nil_r. now destruct seg.
  - cbn [fold_left elements_from]. rewrite IH.
    unfold Lesson2.AddElement.
    cbn [Lesson2.Tag Lesson2.Elements Lesson2.Delimiters].
    rewrite length_app. cbn [List.length].
    replace (List.length (Lesson2.Elements seg) + 1) with
        (S (List.length (Lesson2.Elements seg))) by lia.
    rewrite <- app_assoc. reflexivity.
Qed.

(** The lesson 2 parser, without its loop. *)
Lemma ParseSegment2_unfold (s : string) (d : EDIFACTDelimiters) :
  Lesson2.ParseSegment s d =
  match Split (TrimSuffix s (SegmentTerminator d)) (DataElementSeparator d) with
  | [] => Err "empty segment"
  | p0 :: rest =>
    Ok {| Lesson2.Tag := p0; Lesson2.Elements := elements_from d 0 rest;
          Lesson2.Delimiters := d |}
  end.
Proof.
  unfold Lesson2.ParseSegment.
  destruct (Split _ _) as [|p0 rest]; [reflexivity|].
  now rewrite fold_AddElement_from.
Qed.

Lemma elements_from_length (d : EDIFACTDelimiters) (n : nat) (vs : list string) :
  List.length (elements_from d n vs) = List.length vs.
Proof. revert n; induction vs as [|v vs IH]; intros n; simpl; [reflexivity|]. now rewrite IH. Qed.

Lemma elements_from_nth (d : EDIFACTDelimiters) (vs : list string) :
  forall n i, i < List.length vs ->
    nth i (elements_from d n vs) Lesson2.zero_element
    = element_of d (Z.of_nat (n + i) + 1) (nth i vs "").
Proof.
  induction vs as [|v vs IH]; intros n i Hi; [simpl in Hi; lia|].
  destruct i as [|i]; cbn [elements_from nth].
  - now rewrite Nat.add_0_r.
  - rewrite IH by (simpl in Hi; lia). do 2 f_equal. lia.
Qed.

End Lesson2Elements.

(** X3. In a segment read by the lesson 2 parser, every element is
    flagged as the code documents it: [IsEmpty] exactly when its value is
    empty, [IsComposite] exactly when its value holds the component
    separator; a composite element has the components that, joined with the
    component separator, give its value, and an element that is not
    composite has no components. *)
Theorem ParseSegment_element_flags
        (s : string) (d : EDIFACTDelimiters) (seg : Lesson2.EDIFACTSegment) :
  Lesson2.ParseSegment s d = Ok seg ->
  Forall (fun e =>
            Lesson2.IsEmpty e = String.eqb (Lesson2.Value e) ""
            /\ Lesson2.IsComposite e = Contains (Lesson2.Value e) (ComponentSeparator d)
            /\ (Lesson2.IsComposite e = true ->
                Join (Lesson2.Components e) (ComponentSeparator d) = Lesson2.Value e)
            /\ (Lesson2.IsComposite e = false -> Lesson2.Components e = []))
         (Lesson2.Elements seg).
Proof.
  rewrite ParseSegment2_unfold.
  destruct (Split _ _) as [|p0 rest]; [discriminate|]. intros [= <-].
  cbn [Lesson2.Elements]. generalize 0 as n.
  induction rest as [|v rest IH]; intros n; cbn [elements_from]; constructor.
  - unfold element_of. cbn.
    repeat split; intros H; rewrite H; [apply Join_Split | reflexivity].
  - apply IH.
Qed.

(** X3 on a price segment: its only element is composite, with three
    components. *)
Lemma ParseSegment_element_flags_witness :
  exists seg,
    Lesson2.ParseSegment "PRI+AAA:25.50:CT'" standard_delimiters = Ok seg
    /\ map Lesson2.Components (Lesson2.Elements seg) = [["AAA"; "25.50"; "CT"]]
    /\ Forall (fun e =>
                 Lesson2.IsEmpty e = String.eqb (Lesson2.Value e) ""
                 /\ Lesson2.IsComposite e = Contains (Lesson2.Value e) ":"
                 /\ (Lesson2.IsComposite e = true ->
                     Join (Lesson2.Components e) ":" = Lesson2.Value e)
                 /\ (Lesson2.IsComposite e = false -> Lesson2.Components e = []))
              (Lesson2.Elements seg).
Proof.
  destruct (Lesson2.ParseSegment "PRI+AAA:25.50:CT'" standard_delimiters)
    as [seg|msg] eqn:E; [|vm_compute in E; discriminate E].
  exists seg. split; [reflexivity|]. split.
  - vm_compute in E. injection E as <-. reflexivity.
  - exact (ParseSegment_element_flags _ standard_delimiters seg E).
Defined.

(** X4. In a segment read by the lesson 2 parser, [GetElement] at a
    position from 1 to the element count returns the element stored with
    that very position, whose value is the token of that rank after the
    tag; at any other position it returns the error that names the
    position. *)
Theorem GetElement_by_position
        (s : string) (d : EDIFACTDelimiters) (seg : Lesson2.EDIFACTSegment) (p : Z) :
  Lesson2.ParseSegment s d = Ok seg ->
  ((1 <= p <= Z.of_nat (Lesson2.GetElementCount seg))%Z ->
   exists e, Lesson2.GetElement seg p = Ok e
             /\ Lesson2.Position e = p
             /\ Lesson2.Value e
                = at_index (Split (TrimSuffix s (SegmentTerminator d))
                                  (DataElementSeparator d)) (Z.to_nat p))
  /\
  ((p < 1 \/ Z.of_nat (Lesson2.GetElementCount seg) < p)%Z ->
   Lesson2.GetElement seg p
   = Err ("element position " +:+ Sprintf_d p +:+ " out of range")).
Proof.
  rewrite ParseSegment2_unfold.
  destruct (Split _ _) as [|p0 rest]; [discriminate|]. intros [= <-].
  unfold Lesson2.GetElement, Lesson2.GetElementCount. cbn [Lesson2.Elements].
  rewrite elements_from_length. split.
  - intros [H1 H2].
    destruct (Z.ltb_spec p 1) as [?|_]; [lia|].
    destruct (Z.ltb_spec (Z.of_nat (List.length rest)) p) as [?|_]; [lia|].
    cbn [orb]. eexists. split; [reflexivity|].
    rewrite elements_from_nth by lia. cbn [element_of Lesson2.Position Lesson2.Value].
    split; [lia|].
    unfold at_index. replace (Z.to_nat p) with (S (Z.to_nat (p - 1))) by lia.
    reflexivity.
  - intros [H|H].
    + destruct (Z.ltb_spec p 1) as [_|?]; [reflexivity | lia].
    + destruct (Z.ltb_spec (Z.of_nat (List.length rest)) p) as [_|?]; [|lia].
      now rewrite orb_true_r.
Qed.

(** X4 on the price segment: position 1 holds the composite, position 2
    is out of range. *)
Lemma GetElement_by_position_witness :
  exists seg,
    Lesson2.ParseSegment "PRI+AAA:25.50:CT'" standard_delimiters = Ok seg
    /\ (exists e, Lesson2.GetElement seg 1 = Ok e
                  /\ Lesson2.Position e = 1%Z
                  /\ Lesson2.Value e = "AAA:25.50:CT")
    /\ Lesson2.GetElement seg 2 = Err "element position 2 out of range".
Proof.
  destruct (Lesson2.ParseSegment "PRI+AAA:25.50:CT'" standard_delimiters)
    as [seg|msg] eqn:E; [|vm_compute in E; discriminate E].
  exists seg. split; [reflexivity|].
  assert (Hc : Lesson2.GetElementCount seg = 1).
  { vm_compute in E. injection E as <-. reflexivity. }
  split.
  - destruct (proj1 (GetElement_by_position _ standard_delimiters seg 1 E))
      as (e & He & Hp & Hv); [rewrite Hc; lia|].
    exists e. split; [exact He|]. split; [exact Hp|]. exact Hv.
  - apply (proj2 (GetElement_by_position _ standard_delimiters seg 2 E)).
    right. rewrite Hc. lia.
Defined.

(** ** Counting separators *)

Section Counting.

Lemma split_go_count (sep : string) (s : string) :
  forall k, List.length (snd (split_go sep k s)) = count_go sep k s.
Proof.
  induction s as [|c s IH]; intros k; [reflexivity|].
  cbn [split_go count_go]. destruct k as [|k]; [|apply IH].
  destruct (String.prefix sep (String c s)).
  - cbn [snd]. specialize (IH (String.length sep - 1)).
    destruct (split_go sep (String.length sep - 1) s). cbn [snd List.length] in *.
    now rewrite IH.
  - specialize (IH 0). now destruct (split_go sep 0 s).
Qed.

(** A split at a non-empty separator has one part more than the text has
    separators. *)
Lemma Split_length (s sep : string) :
  sep <> "" -> List.length (Split s sep) = S (Count s sep).
Proof.
  intros Hsep. unfold Split, Count. destruct sep as [|x sep]; [congruence|].
  pose proof (split_go_count (String x sep) s 0) as H.
  destruct (split_go (String x sep) 0 s). cbn [snd List.length] in *. now rewrite H.
Qed.

End Counting.

(** X5. For a non-empty data element separator, a segment read by
    [ParseSegment] has as many elements as its text, less the trailing
    segment terminator, has separators; in lesson 1 and in lesson 2. *)
Theorem ParseSegment_counts_separators (s : string) (d : EDIFACTDelimiters) :
  DataElementSeparator d <> "" ->
  (forall seg, Lesson1.ParseSegment s d = Ok seg ->
     List.length (Lesson1.Elements seg)
     = Count (TrimSuffix s (SegmentTerminator d)) (DataElementSeparator d))
  /\
  (forall seg, Lesson2.ParseSegment s d = Ok seg ->
     Lesson2.GetElementCount seg
     = Count (TrimSuffix s (SegmentTerminator d)) (DataElementSeparator d)).
Proof.
  intros Hsep.
  pose proof (Split_length (TrimSuffix s (SegmentTerminator d)) _ Hsep) as HL.
  split; intros seg H.
  - rewrite ParseSegment1_unfold in H.
    destruct (Split _ _) as [|p0 rest]; [discriminate|]. injection H as <-.
    cbn [Lesson1.Elements]. cbn [List.length] in HL. lia.
  - rewrite ParseSegment2_unfold in H.
    destruct (Split _ _) as [|p0 rest]; [discriminate|]. injection H as <-.
    unfold Lesson2.GetElementCount. cbn [Lesson2.Elements].
    rewrite elements_from_length. cbn [List.length] in HL. lia.
Qed.

(** X5 on a name segment with five separators. *)
Lemma ParseSegment_counts_separators_witness :
  exists seg,
    Lesson2.ParseSegment "NAD+BY+++ACME CORP+123 MAIN ST'" standard_delimiters = Ok seg
    /\ Count "NAD+BY+++ACME CORP+123 MAIN ST" "+" = 5
    /\ Lesson2.GetElementCount seg = 5.
Proof.
  destruct (Lesson2.ParseSegment "NAD+BY+++ACME CORP+123 MAIN ST'" standard_delimiters)
    as [seg|msg] eqn:E; [|vm_compute in E; discriminate E].
  exists seg. split; [reflexivity|]. split; [reflexivity|].
  assert (Hsep : DataElementSeparator standard_delimiters <> "") by discriminate.
  rewrite (proj2 (ParseSegment_counts_separators _ standard_delimiters Hsep) seg E).
  vm_compute. reflexivity.
Defined.

(** ** Components by position (lesson 3) *)

Lemma GetComponent_at (c : Lesson3.CompositeElement) (k : nat) :
  value_or_empty (Lesson3.GetComponent c (Z.of_nat (S k)))
  = if len_ge (Lesson3.Components c) (S k)
    then at_index (Lesson3.Components c) k else "".
Proof.
  unfold Lesson3.GetComponent, len_ge.
  destruct (Z.ltb_spec (Z.of_nat (S k)) 1) as [?|_]; [lia|].
  destruct (Z.ltb_spec (Z.of_nat (List.length (Lesson3.Components c))) (Z.of_nat (S k)));
    destruct (Nat.leb_spec (S k) (List.length (Lesson3.Components c)));
    cbn [orb value_or_empty]; try lia; [reflexivity|].
  now replace (Z.to_nat (Z.of_nat (S k) - 1)) with k by lia.
Qed.

(** X6. In a composite element read by [ParseCompositeElement], the
    qualifier, the value and the format are the components at positions 1,
    2 and 3, and are empty when the element has no such component;
    [IsEmptyComponent] holds at a position exactly when [GetComponent]
    fails there or returns the empty string. *)
Theorem composite_fields_by_position (s : string) (d : EDIFACTDelimiters) (p : Z) :
  let c := Lesson3.ParseCompositeElement s d in
  Lesson3.Qualifier c = value_or_empty (Lesson3.GetComponent c 1)
  /\ Lesson3.Value c = value_or_empty (Lesson3.GetComponent c 2)
  /\ Lesson3.Format c = value_or_empty (Lesson3.GetComponent c 3)
  /\ Lesson3.IsEmptyComponent c p
     = String.eqb (value_or_empty (Lesson3.GetComponent c p)) "".
Proof.
  intros c.
  change 1%Z with (Z.of_nat 1). change 2%Z with (Z.of_nat 2).
  change 3%Z with (Z.of_nat 3). rewrite !GetComponent_at.
  repeat split.
  unfold Lesson3.IsEmptyComponent, Lesson3.GetComponent.
  destruct ((p <? 1)%Z || (Z.of_nat (List.length (Lesson3.Components c)) <? p)%Z);
    reflexivity.
Qed.

(** X7. For a non-empty component separator, a composite element has one
    component more than its text has separators, hence at least one, and
    [GetComponent] succeeds exactly at the positions from 1 to that
    number. *)
Theorem composite_component_count (s : string) (d : EDIFACTDelimiters) (p : Z) :
  ComponentSeparator d <> "" ->
  let c := Lesson3.ParseCompositeElement s d in
  Lesson3.GetComponentCount c = S (Count s (ComponentSeparator d))
  /\ ((exists v, Lesson3.GetComponent c p = Ok v)
      <-> (1 <= p <= Z.of_nat (S (Count s (ComponentSeparator d))))%Z).
Proof.
  intros Hsep c.
  assert (Hc : Lesson3.GetComponentCount c = S (Count s (ComponentSeparator d))).
  { unfold c, Lesson3.GetComponentCount, Lesson3.ParseCompositeElement.
    cbn [Lesson3.Components]. now apply Split_length. }
  split; [exact Hc|].
  unfold Lesson3.GetComponent. unfold Lesson3.GetComponentCount in Hc. rewrite Hc.
  destruct (Z.ltb_spec p 1); destruct (Z.ltb_spec (Z.of_nat (S (Count s (ComponentSeparator d)))) p);
    cbn [orb]; split; try lia; try (intros [v Hv]; discriminate Hv); eauto.
Qed.

(** X7 on a date with three components. *)
Lemma composite_component_count_witness :
  let c := Lesson3.ParseCompositeElement "137:20231201:102" standard_delimiters in
  Lesson3.GetComponentCount c = 3
  /\ Lesson3.GetComponent c 3 = Ok "102"
  /\ ~ (exists v, Lesson3.GetComponent c 4 = Ok v).
Proof.
  intros c.
  assert (Hsep : ComponentSeparator standard_delimiters <> "") by discriminate.
  split; [|split].
  - etransitivity;
      [exact (proj1 (composite_component_count "137:20231201:102"
                                               standard_delimiters 3 Hsep))
      | vm_compute; reflexivity].
  - vm_compute. reflexivity.
  - intros H.
    apply (proj2 (composite_component_count "137:20231201:102" standard_delimiters 4 Hsep)) in H.
    vm_compute in H. destruct H as [_ H]. apply H. reflexivity.
Defined.

(** ** Escaping: plain text and distinct texts (lesson 1) *)

Section PlainText.

Lemma ReplaceAll_absent_byte (o : ascii) (new s : string) :
  Contains s (String o "") = false -> ReplaceAll s (String o "") new = s.
Proof.
  intros H. rewrite ReplaceAll_byte.
  induction s as [|x s IH]; [reflexivity|].
  rewrite Contains_cons in H. apply orb_false_iff in H as [Hx Hs].
  cbn [expand]. rewrite Ascii.eqb_sym, Hx, (IH Hs). reflexivity.
Qed.

Lemma ReplaceAll_absent_head (e : ascii) (old' new s : string) :
  Contains s (String e "") = false -> ReplaceAll s (String e old') new = s.
Proof.
  intros H. unfold ReplaceAll. destruct (String.eqb (String e old') new); [reflexivity|].
  induction s as [|x s IH]; [reflexivity|].
  rewrite Contains_cons in H. apply orb_false_iff in H as [Hx Hs].
  rewrite replace_go_cons, prefix_cons, Hx. cbn [andb]. now rewrite (IH Hs).
Qed.

End PlainText.

(** X8. A text without the release character is left as it is by
    [UnescapeSpecialCharacters]; a text without any of the four delimiter
    bytes is left as it is by [EscapeSpecialCharacters] too. *)
Theorem plain_text_unchanged (e p c t : ascii) (s : string) :
  let d := byte_delimiters e p c t in
  Contains s (String e "") = false ->
  Lesson1.UnescapeSpecialCharacters s d = s
  /\ (Contains s (String p "") = false ->
      Contains s (String c "") = false ->
      Contains s (String t "") = false ->
      Lesson1.EscapeSpecialCharacters s d = s).
Proof.
  intros d He. split.
  - unfold Lesson1.UnescapeSpecialCharacters, d, byte_delimiters.
    cbn [ReleaseCharacter DataElementSeparator ComponentSeparator SegmentTerminator].
    change (String e "" +:+ String t "") with (String e (String t "")).
    change (String e "" +:+ String c "") with (String e (String c "")).
    change (String e "" +:+ String p "") with (String e (String p "")).
    change (String e "" +:+ String e "") with (String e (String e "")).
    now rewrite !(ReplaceAll_absent_head e _ _ s He).
  - intros Hp Hc Ht.
    unfold Lesson1.EscapeSpecialCharacters, d, byte_delimiters.
    cbn [ReleaseCharacter DataElementSeparator ComponentSeparator SegmentTerminator].
    rewrite (ReplaceAll_absent_byte e _ s He), (ReplaceAll_absent_byte p _ s Hp),
      (ReplaceAll_absent_byte c _ s Hc).
    exact (ReplaceAll_absent_byte t _ s Ht).
Qed.

(** X8 on a company name. *)
Lemma plain_text_unchanged_witness :
  Lesson1.UnescapeSpecialCharacters "ACME CORP" standard_delimiters = "ACME CORP"
  /\ Lesson1.EscapeSpecialCharacters "ACME CORP" standard_delimiters = "ACME CORP".
Proof.
  destruct (plain_text_unchanged "?" "+" ":" "'" "ACME CORP" eq_refl) as [H1 H2].
  split; [exact H1 | exact (H2 eq_refl eq_refl eq_refl)].
Defined.

(** X9. For four distinct one-byte delimiters, two different texts are
    never escaped to the same text. *)
Theorem Escape_separates (e p c t : ascii) (s1 s2 : string) :
  distinct [e; p; c; t] = true ->
  s1 <> s2 ->
  Lesson1.EscapeSpecialCharacters s1 (byte_delimiters e p c t)
  <> Lesson1.EscapeSpecialCharacters s2 (byte_delimiters e p c t).
Proof.
  intros Hd Hne Heq. apply distinct_four in Hd as (Hep & Hec & Het & Hpc & Hpt & Hct).
  apply Hne.
  rewrite <- (Unescape_Escape e p c t Hep Hec Het Hpc Hpt Hct s1).
  rewrite <- (Unescape_Escape e p c t Hep Hec Het Hpc Hpt Hct s2).
  now rewrite Heq.
Qed.

(** X9 on a text and its own escaped form. *)
Lemma Escape_separates_witness :
  Lesson1.EscapeSpecialCharacters "a+b" standard_delimiters
  <> Lesson1.EscapeSpecialCharacters "a?+b" standard_delimiters.
Proof.
  assert (Hne : "a+b" <> "a?+b") by discriminate.
  exact (Escape_separates "?" "+" ":" "'" "a+b" "a?+b" eq_refl Hne).
Defined.

(** ** Messages cut into segments (lesson 4) *)

Section ParseMessage.

Import Lesson4.

Lemma parse_loop_spec (pieces : list string) :
  forall i message,
    parse_loop i pieces message
    = {| MessageType := fold_left type_step (segments_of i pieces) (MessageType message);
         Segments := Segments message ++ segments_of i pieces;
         Groups := Groups message;
         RawContent := RawContent message |}.
Proof.
  induction pieces as [|piece more IH]; intros i message.
  - cbn [parse_loop segments_of fold_left]. rewrite app_nil_r. now destruct message.
  - cbn [parse_loop segments_of].
    destruct (String.eqb piece ""); [apply IH|].
    pose proof (Split_nonempty_sep piece "+" ltac:(discriminate)) as Hne.
    destruct (Split piece "+") as [|p0 elems]; [congruence|].
    rewrite IH. cbn [fold_left Tag Elements].
    change (type_step (MessageType message)
                      {| Tag := p0; Elements := elems; Position := i |})
      with (if is_header p0 elems then header_type elems else MessageType message).
    unfold is_header.
    destruct (String.eqb p0 "UNH" && len_gt elems 1) eqn:Hh.
    + pose proof (Split_nonempty_sep (at_index elems 1) ":" ltac:(discriminate)) as Hc.
      unfold header_type.
      destruct (Split (at_index elems 1) ":") as [|t ts]; [congruence|].
      cbn [MessageType Segments Groups RawContent hd].
      now rewrite <- app_assoc.
    + cbn [MessageType Segments Groups RawContent]. now rewrite <- app_assoc.
Qed.

Lemma ParseEDIFACTMessage_spec (raw : string) :
  ParseEDIFACTMessage raw
  = {| MessageType := fold_left type_step (segments_of 0 (Split raw "'")) "";
       Segments := segments_of 0 (Split raw "'");
       Groups := [];
       RawContent := raw |}.
Proof. unfold ParseEDIFACTMessage. now rewrite parse_loop_spec. Qed.

Lemma segments_of_render (pieces : list string) :
  forall i,
    map (fun seg => render (Tag seg) (Elements seg)) (segments_of i pieces)
    = List.filter (fun piece => negb (String.eqb piece "")) pieces.
Proof.
  induction pieces as [|piece more IH]; intros i; [reflexivity|].
  cbn [segments_of List.filter].
  destruct (String.eqb piece ""); cbn [negb]; [apply IH|].
  pose proof (Join_Split piece "+") as HJ.
  pose proof (Split_nonempty_sep piece "+" ltac:(discriminate)) as Hne.
  destruct (Split piece "+") as [|p0 elems]; [congruence|].
  cbn [map Tag Elements]. unfold render at 1. now rewrite HJ, IH.
Qed.

Lemma segments_of_position (pieces : list string) :
  forall i,
    Forall (fun seg =>
              (i <= Position seg < i + Z.of_nat (List.length pieces))%Z
              /\ nth (Z.to_nat (Position seg - i)) pieces ""
                 = render (Tag seg) (Elements seg))
           (segments_of i pieces).
Proof.
  induction pieces as [|piece more IH]; intros i; [constructor|].
  assert (Htail :
    Forall (fun seg =>
              (i <= Position seg < i + Z.of_nat (List.length (piece :: more)))%Z
              /\ nth (Z.to_nat (Position seg - i)) (piece :: more) ""
                 = render (Tag seg) (Elements seg))
           (segments_of (i + 1) more)).
  { eapply List.Forall_impl; [|apply (IH (i + 1)%Z)].
    intros seg [Hr Hn]. cbn [List.length]. split; [lia|].
    replace (Z.to_nat (Position seg - i)) with (S (Z.to_nat (Position seg - (i + 1))))
      by lia.
    exact Hn. }
  cbn [segments_of]. destruct (String.eqb piece ""); [exact Htail|].
  pose proof (Join_Split piece "+") as HJ.
  destruct (Split piece "+") as [|p0 elems]; [exact Htail|].
  constructor; [|exact Htail].
  cbn [Position Tag Elements List.length]. split; [lia|].
  replace (Z.to_nat (i - i)) with 0 by lia. cbn [nth]. now rewrite <- HJ.
Qed.

Lemma segments_of_increasing (pieces : list string) :
  forall i, StronglySorted Z.lt (map Position (segments_of i pieces)).
Proof.
  induction pieces as [|piece more IH]; intros i; [constructor|].
  cbn [segments_of]. destruct (String.eqb piece ""); [apply IH|].
  destruct (Split piece "+") as [|p0 elems]; [apply IH|].
  cbn [map Position]. constructor; [apply IH|].
  apply Forall_map. eapply List.Forall_impl; [|apply (segments_of_position more (i + 1))].
  intros seg [Hr _]. cbn. lia.
Qed.

Lemma fold_type_step_none (segs : list Segment) (t : string) :
  Forall (fun seg => is_header (Tag seg) (Elements seg) = false) segs ->
  fold_left type_step segs t = t.
Proof.
  revert t; induction segs as [|seg segs IH]; intros t H; [reflexivity|].
  inversion H as [|? ? Hs Hsegs]; subst. cbn [fold_left].
  unfold type_step at 2. rewrite Hs. now apply IH.
Qed.

End ParseMessage.

(** X10. [ParseEDIFACTMessage] loses nothing but empty pieces: the
    segments it returns, written as tag and elements with [+] between them,
    are the non-empty pieces of the raw text between segment terminators, in
    their order; the raw text is kept as it is and no group is built. *)
Theorem ParseEDIFACTMessage_keeps_pieces (raw : string) :
  let message := Lesson4.ParseEDIFACTMessage raw in
  map (fun seg => render (Lesson4.Tag seg) (Lesson4.Elements seg))
      (Lesson4.Segments message)
  = List.filter (fun piece => negb (String.eqb piece "")) (Split raw "'")
  /\ Lesson4.RawContent message = raw
  /\ Lesson4.Groups message = [].
Proof.
  intros message. unfold message. rewrite ParseEDIFACTMessage_spec.
  cbn [Lesson4.Segments Lesson4.RawContent Lesson4.Groups].
  split; [apply segments_of_render | split; reflexivity].
Qed.

(** X11. The position stored in a segment is the index of its piece in
    the raw text cut at the segment terminators, empty pieces counted; the
    positions of the segments increase along the message. *)
Theorem ParseEDIFACTMessage_positions (raw : string) :
  let message := Lesson4.ParseEDIFACTMessage raw in
  Forall (fun seg =>
            (0 <= Lesson4.Position seg < Z.of_nat (List.length (Split raw "'")))%Z
            /\ at_index (Split raw "'") (Z.to_nat (Lesson4.Position seg))
               = render (Lesson4.Tag seg) (Lesson4.Elements seg))
         (Lesson4.Segments message)
  /\ StronglySorted Z.lt (map Lesson4.Position (Lesson4.Segments message)).
Proof.
  intros message. unfold message. rewrite ParseEDIFACTMessage_spec.
  cbn [Lesson4.Segments]. split; [|apply segments_of_increasing].
  eapply List.Forall_impl; [|apply (segments_of_position (Split raw "'") 0)].
  intros seg [Hr Hn]. split; [lia|].
  unfold at_index. now rewrite Z.sub_0_r in Hn.
Qed.

(** X12. The message type is read from the last header of the message: a
    segment tagged [UNH] with two elements or more, after which no such
    segment comes, gives the message its type, the first component of its
    second element.  A message without such a segment has the empty
    type. *)
Theorem ParseEDIFACTMessage_type (raw : string) :
  let message := Lesson4.ParseEDIFACTMessage raw in
  (forall before u after,
      Lesson4.Segments message = before ++ u :: after ->
      is_header (Lesson4.Tag u) (Lesson4.Elements u) = true ->
      Forall (fun seg => is_header (Lesson4.Tag seg) (Lesson4.Elements seg) = false)
             after ->
      Lesson4.MessageType message = header_type (Lesson4.Elements u))
  /\
  (Forall (fun seg => is_header (Lesson4.Tag seg) (Lesson4.Elements seg) = false)
          (Lesson4.Segments message) ->
   Lesson4.MessageType message = "").
Proof.
  intros message. unfold message. rewrite ParseEDIFACTMessage_spec.
  cbn [Lesson4.Segments Lesson4.MessageType]. split.
  - intros before u after -> Hu Hafter.
    rewrite fold_left_app. cbn [fold_left].
    rewrite fold_type_step_none by exact Hafter.
    unfold type_step. now rewrite Hu.
  - intros H. now apply fold_type_step_none.
Qed.

(** X12 on a text with two headers: the second one decides. *)
Lemma ParseEDIFACTMessage_type_witness :
  let raw := "UNH+1+INVOIC:D:97A:UN'BGM+380+INV1'UNH+2+ORDERS:D:97A:UN'UNT+2+2'" in
  Lesson4.MessageType (Lesson4.ParseEDIFACTMessage raw) = "ORDERS"
  /\ Lesson4.MessageType (Lesson4.ParseEDIFACTMessage "BGM+380+INV1'UNH+1'") = "".
Proof.
  intros raw. split.
  - apply (proj1 (ParseEDIFACTMessage_type raw)
                 [ {| Lesson4.Tag := "UNH"; Lesson4.Elements := ["1"; "INVOIC:D:97A:UN"];
                      Lesson4.Position := 0 |};
                   {| Lesson4.Tag := "BGM"; Lesson4.Elements := ["380"; "INV1"];
                      Lesson4.Position := 1 |} ]
                 {| Lesson4.Tag := "UNH"; Lesson4.Elements := ["2"; "ORDERS:D:97A:UN"];
                    Lesson4.Position := 2 |}
                 [ {| Lesson4.Tag := "UNT"; Lesson4.Elements := ["2"; "2"];
                      Lesson4.Position := 3 |} ]).
    + vm_compute. reflexivity.
    + vm_compute. reflexivity.
    + repeat constructor.
  - apply (proj2 (ParseEDIFACTMessage_type "BGM+380+INV1'UNH+1'")).
    vm_compute. repeat constructor.
Defined.

(** ** The message analyzer (lesson 4) *)

Section Analyzer.

Import Lesson4.

Lemma found_lookup (segs : list Segment) (t : string) :
  forall found : gmap string bool,
    default false (fold_left (fun found segment => <[Tag segment := true]> found)
                             segs found !! t)
    = existsb (fun seg => String.eqb (Tag seg) t) segs || default false (found !! t).
Proof.
  induction segs as [|seg segs IH]; intros found; [reflexivity|].
  cbn [fold_left existsb]. rewrite IH.
  destruct (String.eqb_spec (Tag seg) t) as [->|Hne].
  - rewrite lookup_insert_eq. cbn. now rewrite orb_true_r.
  - rewrite lookup_insert_ne by exact Hne. reflexivity.
Qed.

Lemma reject_inconsistent (a : MessageAnalysis) (msg : string) :
  consistent (reject a msg).
Proof.
  unfold consistent, reject. cbn. split; [discriminate|].
  intros H. now destruct (maErrors a).
Qed.

Lemma mandatory_spec (message : EDIFACTMessage) (definition : MessageTypeDefinition)
      (a : MessageAnalysis) :
  let a' := validateMandatorySegments message definition a in
  maValid a' = maValid a
               && forallb (fun t => existsb (fun seg => String.eqb (Tag seg) t)
                                            (Segments message))
                          (mtMandatorySegs definition)
  /\ (consistent a -> consistent a')
  /\ maWarnings a' = maWarnings a /\ maGroups a' = maGroups a
  /\ maMessageType a' = maMessageType a.
Proof.
  unfold validateMandatorySegments.
  generalize (mtMandatorySegs definition) as ms. intros ms. revert a.
  induction ms as [|t ms IH]; intros a.
  - cbn. rewrite andb_true_r. tauto.
  - cbn [fold_left forallb]. rewrite found_lookup, lookup_empty. cbn [default].
    rewrite orb_false_r.
    destruct (existsb (fun seg => String.eqb (Tag seg) t) (Segments message)); cbn [negb].
    + cbn [andb]. apply IH.
    + destruct (IH (reject a ("Missing mandatory segment: " +:+ t)))
        as (Hv & Hc & Hw & Hg & Ht).
      rewrite Hv, Hw, Hg, Ht. cbn [reject maValid maWarnings maGroups maMessageType andb].
      rewrite andb_false_r.
      split; [reflexivity|].
      split; [intros _; apply Hc, reject_inconsistent|].
      repeat split.
Qed.

Lemma order_spec (message : EDIFACTMessage) (definition : MessageTypeDefinition)
      (a : MessageAnalysis) :
  let segs := Segments message in
  let a' := validateSegmentOrder message definition a in
  maValid a' = maValid a
               && Nat.leb 2 (List.length segs)
               && String.eqb (Tag (nth 0 segs zero_segment)) "UNH"
               && String.eqb (Tag (nth (List.length segs - 1) segs zero_segment)) "UNT"
  /\ (consistent a -> consistent a')
  /\ maWarnings a' = maWarnings a /\ maGroups a' = maGroups a
  /\ maMessageType a' = maMessageType a.
Proof.
  intros segs a'. unfold a', validateSegmentOrder. fold segs.
  destruct (Nat.ltb_spec (List.length segs) 2) as [Hlt|Hge].
  - destruct (Nat.leb_spec 2 (List.length segs)) as [?|_]; [lia|].
    cbn [reject maValid maWarnings maGroups maMessageType].
    rewrite andb_false_r. cbn [andb].
    split; [reflexivity|].
    split; [intros _; apply reject_inconsistent|]. repeat split.
  - destruct (Nat.leb_spec 2 (List.length segs)) as [_|?]; [|lia].
    rewrite andb_true_r.
    destruct (String.eqb (Tag (nth 0 segs zero_segment)) "UNH");
      destruct (String.eqb (Tag (nth (List.length segs - 1) segs zero_segment)) "UNT");
      cbn [negb reject maValid maWarnings maGroups maMessageType];
      rewrite ?andb_true_r, ?andb_false_r;
      (split; [reflexivity|]);
      (split; [first [exact (fun H => H) | intros _; apply reject_inconsistent]|]);
      repeat split.
Qed.

Lemma groups_spec (message : EDIFACTMessage) (gds : list GroupDefinition) :
  forall a,
    fold_left
      (fun analysis groupDef =>
         {| maMessageType := maMessageType analysis;
            maValid := maValid analysis;
            maErrors := maErrors analysis;
            maWarnings := maWarnings analysis;
            maSegmentCount := maSegmentCount analysis;
            maGroups := maGroups analysis ++ [analyzeGroup message groupDef] |})
      gds a
    = {| maMessageType := maMessageType a;
         maValid := maValid a;
         maErrors := maErrors a;
         maWarnings := maWarnings a;
         maSegmentCount := maSegmentCount a;
         maGroups := maGroups a ++ map (analyzeGroup message) gds |}.
Proof.
  induction gds as [|gd gds IH]; intros a.
  - cbn. rewrite app_nil_r. now destruct a.
  - cbn [fold_left map]. rewrite IH. cbn. now rewrite <- app_assoc.
Qed.

Lemma fold_keep (A : Type) (f : A -> bool) (l : list A) :
  forall acc, fold_left (fun acc x => if f x then acc ++ [x] else acc) l acc
              = acc ++ List.filter f l.
Proof.
  induction l as [|x l IH]; intros acc; cbn [fold_left List.filter].
  - now rewrite app_nil_r.
  - rewrite IH. destruct (f x); [now rewrite <- app_assoc | reflexivity].
Qed.

Lemma fold_tally (A : Type) (f : A -> bool) (l : list A) :
  forall n : Z, fold_left (fun n x => if f x then (n + 1)%Z else n) l n
                = (n + Z.of_nat (List.length (List.filter f l)))%Z.
Proof.
  induction l as [|x l IH]; intros n; cbn [fold_left List.filter].
  - cbn. lia.
  - rewrite IH. destruct (f x); cbn [List.length]; lia.
Qed.

Lemma filter_filter_trigger (trigger : string) (tags : list string) (segs : list Segment) :
  In trigger tags ->
  List.filter (fun seg => String.eqb (Tag seg) trigger)
              (List.filter (fun seg => existsb (fun g => String.eqb (Tag seg) g) tags) segs)
  = List.filter (fun seg => String.eqb (Tag seg) trigger) segs.
Proof.
  intros Hin. induction segs as [|seg segs IH]; [reflexivity|].
  cbn [List.filter].
  destruct (String.eqb_spec (Tag seg) trigger) as [E|Hne].
  - assert (Hex : existsb (fun g => String.eqb (Tag seg) g) tags = true).
    { apply existsb_exists. exists trigger. split; [exact Hin|].
      rewrite E. apply String.eqb_refl. }
    rewrite Hex. cbn [List.filter]. rewrite E at 1. rewrite String.eqb_refl.
    now rewrite IH.
  - destruct (existsb _ tags); [|exact IH].
    cbn [List.filter]. apply String.eqb_neq in Hne. now rewrite Hne.
Qed.

End Analyzer.

Lemma AnalyzeMessage_unknown
      (ma : Lesson4.MessageAnalyzer) (message : Lesson4.EDIFACTMessage) :
  Lesson4.messageTypes ma !! Lesson4.MessageType message = None ->
  Lesson4.AnalyzeMessage ma message
  = {| Lesson4.maMessageType := Lesson4.MessageType message;
       Lesson4.maValid := false;
       Lesson4.maErrors :=
         ["Unknown message type: " +:+ Lesson4.MessageType message];
       Lesson4.maWarnings := [];
       Lesson4.maSegmentCount := 0;
       Lesson4.maGroups := [] |}.
Proof. intros H. unfold Lesson4.AnalyzeMessage. now rewrite H. Qed.

(** X13. For a message of a known type, the analysis is valid exactly
    when every mandatory segment of the type occurs in the message, the
    message has two segments or more, its first segment is tagged [UNH] and
    its last one [UNT].  Nothing else is looked at: neither the order of the
    segments in between nor the optional segments of the definition. *)
Theorem AnalyzeMessage_valid
        (ma : Lesson4.MessageAnalyzer) (message : Lesson4.EDIFACTMessage)
        (definition : Lesson4.MessageTypeDefinition) :
  Lesson4.messageTypes ma !! Lesson4.MessageType message = Some definition ->
  let segs := Lesson4.Segments message in
  Lesson4.maValid (Lesson4.AnalyzeMessage ma message)
  = forallb (fun t => existsb (fun seg => String.eqb (Lesson4.Tag seg) t) segs)
            (Lesson4.mtMandatorySegs definition)
    && Nat.leb 2 (List.length segs)
    && String.eqb (Lesson4.Tag (nth 0 segs Lesson4.zero_segment)) "UNH"
    && String.eqb (Lesson4.Tag (nth (List.length segs - 1) segs Lesson4.zero_segment)) "UNT".
Proof.
  intros H segs. unfold Lesson4.AnalyzeMessage. rewrite H.
  cbn [Lesson4.maValid]. unfold Lesson4.analyzeSegmentGroups. rewrite groups_spec.
  cbn [Lesson4.maValid].
  match goal with
  | |- context [Lesson4.validateSegmentOrder message definition ?a] =>
    destruct (order_spec message definition a) as (Hv & _)
  end.
  rewrite Hv.
  match goal with
  | |- context [Lesson4.validateMandatorySegments message definition ?a] =>
    destruct (mandatory_spec message definition a) as (Hm & _)
  end.
  rewrite Hm. reflexivity.
Qed.

(** X13 on an invoice whose segments between header and trailer are out
    of the order of the definition, and on an invoice without [BGM]. *)
Lemma AnalyzeMessage_valid_witness :
  Lesson4.maValid
    (Lesson4.AnalyzeMessage Lesson4.NewMessageAnalyzer
       (Lesson4.ParseEDIFACTMessage
          "UNH+1+INVOIC:D:97A:UN'LIN+1++A:EN'BGM+380+I1'UNT+4+1'")) = true
  /\ Lesson4.maValid
       (Lesson4.AnalyzeMessage Lesson4.NewMessageAnalyzer
          (Lesson4.ParseEDIFACTMessage "UNH+1+INVOIC:D:97A:UN'LIN+1++A:EN'UNT+3+1'"))
     = false.
Proof.
  split.
  - rewrite (AnalyzeMessage_valid Lesson4.NewMessageAnalyzer _ Lesson4.invoicDefinition)
      by (vm_compute; reflexivity).
    vm_compute. reflexivity.
  - rewrite (AnalyzeMessage_valid Lesson4.NewMessageAnalyzer _ Lesson4.invoicDefinition)
      by (vm_compute; reflexivity).
    vm_compute. reflexivity.
Defined.

(** X14. Whatever the analyzer knows and whatever the message is, the
    analysis is valid exactly when it holds no error, and it never holds a
    warning.  For a known type the segment count is the number of segments
    of the message; for a type the analyzer does not know, the analysis
    holds the one error that names the type, the segments are not counted
    (the count stays 0) and no group is analysed. *)
Theorem AnalyzeMessage_consistent
        (ma : Lesson4.MessageAnalyzer) (message : Lesson4.EDIFACTMessage) :
  let a := Lesson4.AnalyzeMessage ma message in
  (Lesson4.maValid a = true <-> Lesson4.maErrors a = [])
  /\ Lesson4.maWarnings a = []
  /\ Lesson4.maMessageType a = Lesson4.MessageType message
  /\ (is_Some (Lesson4.messageTypes ma !! Lesson4.MessageType message) ->
      Lesson4.maSegmentCount a
      = Z.of_nat (List.length (Lesson4.Segments message)))
  /\ (Lesson4.messageTypes ma !! Lesson4.MessageType message = None ->
      Lesson4.maErrors a = ["Unknown message type: " +:+ Lesson4.MessageType message]
      /\ Lesson4.maSegmentCount a = 0%Z
      /\ Lesson4.maGroups a = []).
Proof.
  intros a. unfold a.
  destruct (Lesson4.messageTypes ma !! Lesson4.MessageType message)
    as [definition|] eqn:E.
  - unfold Lesson4.AnalyzeMessage. rewrite E.
    cbn [Lesson4.maValid Lesson4.maErrors Lesson4.maWarnings Lesson4.maMessageType
         Lesson4.maSegmentCount].
    unfold Lesson4.analyzeSegmentGroups. rewrite groups_spec.
    cbn [Lesson4.maValid Lesson4.maErrors Lesson4.maWarnings Lesson4.maMessageType].
    match goal with
    | |- context [Lesson4.validateSegmentOrder message definition ?x] =>
      destruct (order_spec message definition x) as (_ & Hc & Hw & _ & Ht)
    end.
    match goal with
    | H : context [Lesson4.validateMandatorySegments message definition ?x] |- _ =>
      destruct (mandatory_spec message definition x) as (_ & Hc' & Hw' & _ & Ht')
    end.
    rewrite Hw, Hw', Ht, Ht'. cbn [Lesson4.maWarnings Lesson4.maMessageType].
    split; [apply Hc, Hc'; unfold consistent; cbn; tauto|].
    split; [reflexivity|]. split; [reflexivity|]. split; [reflexivity|].
    discriminate.
  - rewrite (AnalyzeMessage_unknown ma message E). cbn.
    split; [split; discriminate|]. split; [reflexivity|].
    split; [reflexivity|]. split; [intros [? ?]; discriminate|].
    intros _. repeat split.
Qed.

(** X14 on an invoice of four segments and on a message of three segments
    whose type is not known. *)
Lemma AnalyzeMessage_consistent_witness :
  let invoice :=
    Lesson4.ParseEDIFACTMessage "UNH+1+INVOIC:D:97A:UN'LIN+1++A:EN'BGM+380+I1'UNT+4+1'" in
  let desadv :=
    Lesson4.ParseEDIFACTMessage "UNH+1+DESADV:D:97A:UN'BGM+351+D1'UNT+3+1'" in
  Lesson4.maSegmentCount (Lesson4.AnalyzeMessage Lesson4.NewMessageAnalyzer invoice)
  = 4%Z
  /\ List.length (Lesson4.Segments desadv) = 3
  /\ Lesson4.maSegmentCount (Lesson4.AnalyzeMessage Lesson4.NewMessageAnalyzer desadv)
     = 0%Z
  /\ Lesson4.maErrors (Lesson4.AnalyzeMessage Lesson4.NewMessageAnalyzer desadv)
     = ["Unknown message type: DESADV"].
Proof.
  intros invoice desadv.
  assert (H : is_Some (Lesson4.messageTypes Lesson4.NewMessageAnalyzer
                       !! Lesson4.MessageType invoice)).
  { exists Lesson4.invoicDefinition. vm_compute. reflexivity. }
  assert (H' : Lesson4.messageTypes Lesson4.NewMessageAnalyzer
               !! Lesson4.MessageType desadv = None) by (vm_compute; reflexivity).
  destruct (AnalyzeMessage_consistent Lesson4.NewMessageAnalyzer invoice)
    as (_ & _ & _ & Hcount & _).
  destruct (AnalyzeMessage_consistent Lesson4.NewMessageAnalyzer desadv)
    as (_ & _ & _ & _ & Hunknown).
  destruct (Hunknown H') as (He & Hz & _).
  split; [etransitivity; [exact (Hcount H) | vm_compute; reflexivity]|].
  split; [vm_compute; reflexivity|].
  split; [exact Hz|]. etransitivity; [exact He | vm_compute; reflexivity].
Defined.

(** X15. For a message of a known type, the analysis holds one group per
    group of the definition, in the same order and under the same name; a
    group holds the segments of the message whose tag belongs to the group,
    in their order, and when the trigger segment is one of the group's
    segments its count is the number of segments of the message with the
    trigger's tag. *)
Theorem AnalyzeMessage_groups
        (ma : Lesson4.MessageAnalyzer) (message : Lesson4.EDIFACTMessage)
        (definition : Lesson4.MessageTypeDefinition) :
  Lesson4.messageTypes ma !! Lesson4.MessageType message = Some definition ->
  Forall2
    (fun gd ga =>
       Lesson4.gaName ga = Lesson4.gdName gd
       /\ Lesson4.gaSegments ga
          = List.filter
              (fun seg => existsb (fun g => String.eqb (Lesson4.Tag seg) g)
                                  (Lesson4.gdSegments gd))
              (Lesson4.Segments message)
       /\ (In (Lesson4.gdTriggerSegment gd) (Lesson4.gdSegments gd) ->
           Lesson4.gaCount ga
           = Z.of_nat
               (List.length
                  (List.filter
                     (fun seg => String.eqb (Lesson4.Tag seg) (Lesson4.gdTriggerSegment gd))
                     (Lesson4.Segments message)))))
    (Lesson4.mtSegmentGroups definition)
    (Lesson4.maGroups (Lesson4.AnalyzeMessage ma message)).
Proof.
  intros H. unfold Lesson4.AnalyzeMessage. rewrite H. cbn [Lesson4.maGroups].
  unfold Lesson4.analyzeSegmentGroups. rewrite groups_spec. cbn [Lesson4.maGroups].
  match goal with
  | |- context [Lesson4.validateSegmentOrder message definition ?x] =>
    destruct (order_spec message definition x) as (_ & _ & _ & Hg & _)
  end.
  match goal with
  | H : context [Lesson4.validateMandatorySegments message definition ?x] |- _ =>
    destruct (mandatory_spec message definition x) as (_ & _ & _ & Hg' & _)
  end.
  rewrite Hg, Hg'. cbn [Lesson4.maGroups app].
  induction (Lesson4.mtSegmentGroups definition) as [|gd gds IH]; cbn [map];
    constructor; [|exact IH].
  unfold Lesson4.analyzeGroup. cbn [Lesson4.gaName Lesson4.gaSegments Lesson4.gaCount].
  rewrite fold_tally, fold_keep. cbn [app].
  repeat split. intros Hin. rewrite filter_filter_trigger by exact Hin. lia.
Qed.

(** X15 on an invoice with two line items. *)
Lemma AnalyzeMessage_groups_witness :
  let message :=
    Lesson4.ParseEDIFACTMessage
      "UNH+1+INVOIC:D:97A:UN'BGM+380+I1'LIN+1++A:EN'QTY+12:1'LIN+2++B:EN'UNT+6+1'" in
  map Lesson4.gaCount
      (Lesson4.maGroups (Lesson4.AnalyzeMessage Lesson4.NewMessageAnalyzer message))
  = [2%Z]
  /\ Forall2
       (fun gd ga =>
          Lesson4.gaName ga = Lesson4.gdName gd
          /\ Lesson4.gaSegments ga
             = List.filter
                 (fun seg => existsb (fun g => String.eqb (Lesson4.Tag seg) g)
                                     (Lesson4.gdSegments gd))
                 (Lesson4.Segments message)
          /\ (In (Lesson4.gdTriggerSegment gd) (Lesson4.gdSegments gd) ->
              Lesson4.gaCount ga
              = Z.of_nat
                  (List.length
                     (List.filter
                        (fun seg => String.eqb (Lesson4.Tag seg)
                                               (Lesson4.gdTriggerSegment gd))
                        (Lesson4.Segments message)))))
       [Lesson4.lineItemGroup]
       (Lesson4.maGroups (Lesson4.AnalyzeMessage Lesson4.NewMessageAnalyzer message)).
Proof.
  intros message. split; [vm_compute; reflexivity|].
  assert (H : Lesson4.messageTypes Lesson4.NewMessageAnalyzer
              !! Lesson4.MessageType message = Some Lesson4.invoicDefinition)
    by (vm_compute; reflexivity).
  exact (AnalyzeMessage_groups Lesson4.NewMessageAnalyzer message
                               Lesson4.invoicDefinition H).
Defined.

(** ** Service segments (lesson 6) *)

Section ServiceSegments.

Import Lesson6.

Lemma fail_consistent (r : ServiceSegmentResult) (msg : string) :
  result_consistent (fail r msg).
Proof.
  unfold result_consistent, fail. cbn. split; [discriminate|].
  intros H. now destruct (rErrors r).
Qed.

Lemma process_step_inv (clock : nat -> Z) (ssh : ServiceSegmentHandler)
      (r : ServiceSegmentResult) (k : nat) (seg : Segment) :
  let st := process_step clock ssh (r, k) seg in
  rWarnings (fst st) = rWarnings r
  /\ rMessageType (fst st) = rMessageType r
  /\ (result_consistent r -> result_consistent (fst st)).
Proof.
  unfold process_step. destruct (validators ssh !! Tag seg) as [v|]; cbn [fst].
  - destruct (v seg) as [err|]; cbn [record fail rWarnings rMessageType].
    + split; [reflexivity|]. split; [reflexivity|]. intros _.
      pose proof (fail_consistent r (Tag seg +:+ ": " +:+ err)) as H.
      unfold result_consistent in *. exact H.
    + split; [reflexivity|]. split; [reflexivity|]. intros H. exact H.
  - split; [reflexivity|]. split; [reflexivity|]. intros H. exact H.
Qed.

Lemma process_loop_inv (clock : nat -> Z) (ssh : ServiceSegmentHandler)
      (segs : list Segment) :
  forall st,
    let st' := fold_left (process_step clock ssh) segs st in
    rWarnings (fst st') = rWarnings (fst st)
    /\ rMessageType (fst st') = rMessageType (fst st)
    /\ (result_consistent (fst st) -> result_consistent (fst st')).
Proof.
  induction segs as [|seg segs IH]; intros st.
  - cbn. split; [reflexivity|]. split; [reflexivity|]. intros H; exact H.
  - cbn [fold_left]. destruct st as [r k].
    destruct (IH (process_step clock ssh (r, k) seg)) as (Hw & Ht & Hc).
    destruct (process_step_inv clock ssh r k seg) as (Hw' & Ht' & Hc').
    cbn [fst] in *. rewrite Hw, Ht, Hw', Ht'.
    split; [reflexivity|]. split; [reflexivity|]. intros H. apply Hc, Hc', H.
Qed.

Lemma process_loop_skip (clock : nat -> Z) (ssh : ServiceSegmentHandler)
      (segs : list Segment) :
  Forall (fun seg => validators ssh !! Tag seg = None) segs ->
  forall st, fold_left (process_step clock ssh) segs st = st.
Proof.
  induction 1 as [|seg segs Hs _ IH]; intros st; [reflexivity|].
  cbn [fold_left].
  assert (E : process_step clock ssh st seg = st).
  { destruct st as [r k]. unfold process_step. unfold error in *. now rewrite Hs. }
  rewrite E. apply IH.
Qed.

Lemma envelope_inv (message : EDIFACTMessage) (r : ServiceSegmentResult) :
  let r' := validateMessageEnvelope message r in
  rMessageType r' = rMessageType r
  /\ rServiceSegs r' = rServiceSegs r
  /\ (result_consistent r -> result_consistent r').
Proof.
  unfold validateMessageEnvelope.
  destruct (fold_left refs_step (Segments message) ("", "")) as [unhRef untRef].
  set (cond := negb (String.eqb unhRef "") && negb (String.eqb untRef "")
               && negb (String.eqb unhRef untRef)).
  set (msg := "Reference number mismatch: UNH=" +:+ unhRef +:+ ", UNT=" +:+ untRef).
  assert (H1 : forall r1, rMessageType r1 = rMessageType r ->
                          rServiceSegs r1 = rServiceSegs r ->
                          (result_consistent r -> result_consistent r1) ->
    let r' := match rServiceSegs r1 !! "UNT" with
              | Some untInfo =>
                if negb (String.eqb (iSegmentCount untInfo)
                           (Sprintf_d (Z.of_nat (List.length (Segments message)) - 2)))
                then warn r1 ("Segment count mismatch: expected "
                              +:+ Sprintf_d (Z.of_nat (List.length (Segments message)) - 2)
                              +:+ ", found " +:+ iSegmentCount untInfo)
                else r1
              | None => r1
              end in
    rMessageType r' = rMessageType r /\ rServiceSegs r' = rServiceSegs r
    /\ (result_consistent r -> result_consistent r')).
  { intros r1 Ht Hs Hc. cbv zeta.
    destruct (rServiceSegs r1 !! "UNT") as [info|]; [|tauto].
    destruct (negb (String.eqb (iSegmentCount info) _)); [|tauto].
    cbn [warn rMessageType rServiceSegs]. split; [exact Ht|]. split; [exact Hs|].
    intros H. specialize (Hc H). unfold result_consistent in *. exact Hc. }
  destruct cond.
  - apply H1; try reflexivity. intros _. apply fail_consistent.
  - apply H1; try reflexivity. tauto.
Qed.

Lemma validators_New_None (tag : string) :
  ~ In tag validated_tags -> validators NewServiceSegmentHandler !! tag = None.
Proof.
  intros H. unfold NewServiceSegmentHandler, registerValidators. cbn [validators].
  unfold validated_tags in H. cbn [In] in H.
  rewrite !lookup_insert_ne by (intros E; apply H; rewrite E; tauto).
  apply lookup_empty.
Qed.

Lemma refs_skip (segs : list Segment) :
  Forall (fun seg => Tag seg <> "UNH" /\ Tag seg <> "UNT") segs ->
  forall refs, fold_left refs_step segs refs = refs.
Proof.
  induction 1 as [|seg segs [H1 H2] _ IH]; intros refs; [reflexivity|].
  cbn [fold_left].
  assert (E : refs_step refs seg = refs).
  { destruct refs as [a b]. unfold refs_step.
    apply String.eqb_neq in H1, H2. now rewrite H1, H2. }
  rewrite E. apply IH.
Qed.

End ServiceSegments.

(** X16. Whatever validators the handler holds and whatever the message
    is, the result of [ProcessMessage] is valid exactly when it holds no
    error; it carries the type of the message, and the message comes back
    with its segments unchanged and its interchange information set. *)
Theorem ProcessMessage_consistent
        (clock : nat -> Z) (ssh : Lesson6.ServiceSegmentHandler)
        (message : Lesson6.EDIFACTMessage) :
  let out := Lesson6.ProcessMessage clock ssh message in
  (Lesson6.rValid (fst out) = true <-> Lesson6.rErrors (fst out) = [])
  /\ Lesson6.rMessageType (fst out) = Lesson6.MessageType message
  /\ Lesson6.Segments (snd out) = Lesson6.Segments message
  /\ Lesson6.Interchange (snd out) <> None.
Proof.
  intros out. unfold out, Lesson6.ProcessMessage.
  match goal with
  | |- context [fold_left ?f ?l ?st] =>
    destruct (process_loop_inv clock ssh l st) as (_ & Ht & Hc);
      destruct (fold_left f l st) as [r k] eqn:E
  end.
  cbn [fst snd Lesson6.Segments Lesson6.Interchange Lesson6.rMessageType] in *.
  destruct (envelope_inv message r) as (Ht' & _ & Hc').
  rewrite Ht', Ht. split; [|repeat split; discriminate].
  apply Hc', Hc. unfold result_consistent. cbn. tauto.
Qed.

(** X17. A message that holds none of the segments [UNH], [UNT], [UNB],
    [UNZ], [UNG] and [UNE] passes [ProcessMessage] untouched: the result is
    valid, without errors, warnings or service segments.  A segment tagged
    [UNS] is not looked at either. *)
Theorem ProcessMessage_without_service_segments
        (clock : nat -> Z) (message : Lesson6.EDIFACTMessage) :
  Forall (fun seg => ~ In (Lesson6.Tag seg) validated_tags) (Lesson6.Segments message) ->
  fst (Lesson6.ProcessMessage clock Lesson6.NewServiceSegmentHandler message)
  = {| Lesson6.rMessageType := Lesson6.MessageType message;
       Lesson6.rValid := true;
       Lesson6.rErrors := [];
       Lesson6.rWarnings := [];
       Lesson6.rServiceSegs := ∅ |}.
Proof.
  intros H. unfold Lesson6.ProcessMessage.
  rewrite process_loop_skip.
  2: { eapply List.Forall_impl; [|exact H]. intros seg Hs. now apply validators_New_None. }
  cbn [fst]. unfold Lesson6.validateMessageEnvelope.
  rewrite refs_skip.
  2: { eapply List.Forall_impl; [|exact H]. intros seg Hs. unfold validated_tags in Hs.
       cbn [In] in Hs. split; intros E; apply Hs; rewrite E; tauto. }
  cbn. reflexivity.
Qed.

(** X17 on a message of data segments and a section control segment. *)
Lemma ProcessMessage_without_service_segments_witness :
  let message := Lesson6.ParseEDIFACTMessage "BGM+380+INV1'UNS+S'MOA+86:100'" in
  List.length (Lesson6.Segments message) = 3
  /\ Lesson6.rValid
       (fst (Lesson6.ProcessMessage (fun _ => 0%Z) Lesson6.NewServiceSegmentHandler message))
     = true
  /\ Lesson6.rServiceSegs
       (fst (Lesson6.ProcessMessage (fun _ => 0%Z) Lesson6.NewServiceSegmentHandler message))
     = ∅.
Proof.
  intros message.
  assert (H : Forall (fun seg => ~ In (Lesson6.Tag seg) validated_tags)
                     (Lesson6.Segments message)).
  { vm_compute. repeat constructor; intros Hin;
      repeat (destruct Hin as [Hin|Hin]; [discriminate Hin|]); exact Hin. }
  rewrite (ProcessMessage_without_service_segments (fun _ => 0%Z) message H).
  split; [vm_compute; reflexivity|]. split; reflexivity.
Defined.

Section Envelope.

Import Lesson6.

Lemma validators_New_UNT :
  validators NewServiceSegmentHandler !! "UNT" = Some validateUNT.
Proof.
  unfold NewServiceSegmentHandler, registerValidators. cbn [validators].
  rewrite !lookup_insert_ne by discriminate. apply lookup_insert_eq.
Qed.

Lemma extract_UNT_count (now : Z) (seg : Segment) :
  Tag seg = "UNT" ->
  iSegmentCount (extractServiceSegmentInfo now seg) = at_index (Elements seg) 0.
Proof.
  intros Ht. unfold extractServiceSegmentInfo. rewrite Ht.
  change (String.eqb "UNT" "UNH") with false.
  change (String.eqb "UNT" "UNT") with true. cbv iota.
  destruct (Elements seg) as [|a [|b l]]; reflexivity.
Qed.

Lemma envelope_warnings (message : EDIFACTMessage) (r : ServiceSegmentResult)
      (info : ServiceSegmentInfo) :
  rServiceSegs r !! "UNT" = Some info ->
  let expected := (Z.of_nat (List.length (Segments message)) - 2)%Z in
  rWarnings (validateMessageEnvelope message r)
  = rWarnings r
    ++ (if String.eqb (iSegmentCount info) (Sprintf_d expected) then []
        else ["Segment count mismatch: expected " +:+ Sprintf_d expected
              +:+ ", found " +:+ iSegmentCount info]).
Proof.
  intros H expected. unfold validateMessageEnvelope.
  destruct (fold_left refs_step (Segments message) ("", "")) as [unhRef untRef].
  destruct (negb (String.eqb unhRef "") && negb (String.eqb untRef "")
            && negb (String.eqb unhRef untRef));
    cbn [fail rServiceSegs]; rewrite H; fold expected;
      destruct (String.eqb (iSegmentCount info) (Sprintf_d expected));
      cbn [negb warn fail rWarnings]; now rewrite ?app_nil_r.
Qed.

Lemma envelope_mismatch (message : EDIFACTMessage) (r : ServiceSegmentResult)
      (a b : string) :
  fold_left refs_step (Segments message) ("", "") = (a, b) ->
  a <> "" -> b <> "" -> a <> b ->
  rValid (validateMessageEnvelope message r) = false
  /\ rErrors (validateMessageEnvelope message r)
     = rErrors r ++ ["Reference number mismatch: UNH=" +:+ a +:+ ", UNT=" +:+ b].
Proof.
  intros E Ha Hb Hab. unfold validateMessageEnvelope. rewrite E.
  apply String.eqb_neq in Ha, Hb, Hab. rewrite Ha, Hb, Hab. cbn [negb andb].
  cbn [fail rServiceSegs].
  destruct (rServiceSegs r !! "UNT") as [info|]; [|split; reflexivity].
  destruct (negb (String.eqb (iSegmentCount info) _)); split; reflexivity.
Qed.

Lemma at_index_nonempty (l : list string) (i : nat) :
  at_index l i <> "" -> len_gt l i = true.
Proof.
  unfold at_index, len_gt. intros H. apply Nat.ltb_lt.
  destruct (Nat.lt_ge_cases i (List.length l)) as [?|Hge]; [assumption|].
  exfalso. apply H. now apply nth_overflow.
Qed.

End Envelope.

(** X18. When the last segment of a message is tagged [UNT], the handler
    of [NewServiceSegmentHandler] compares the first element of that segment
    with the number of segments before it less one, written in decimal (the
    header and the trailer are not counted); [ProcessMessage] reports no
    warning when they are equal, and the one warning of a segment count
    mismatch when they are not. *)
Theorem ProcessMessage_segment_count
        (clock : nat -> Z) (message : Lesson6.EDIFACTMessage)
        (before : list Lesson6.Segment) (unt : Lesson6.Segment) :
  Lesson6.Segments message = before ++ [unt] ->
  Lesson6.Tag unt = "UNT" ->
  let expected := (Z.of_nat (List.length before) - 1)%Z in
  let found := at_index (Lesson6.Elements unt) 0 in
  Lesson6.rWarnings
    (fst (Lesson6.ProcessMessage clock Lesson6.NewServiceSegmentHandler message))
  = if String.eqb found (Sprintf_d expected) then []
    else ["Segment count mismatch: expected " +:+ Sprintf_d expected
          +:+ ", found " +:+ found].
Proof.
  intros Hsegs Htag expected found. unfold Lesson6.ProcessMessage.
  rewrite Hsegs at 1. rewrite fold_left_app. cbn [fold_left].
  match goal with
  | |- context [fold_left ?f before ?st] =>
    destruct (process_loop_inv clock Lesson6.NewServiceSegmentHandler before st)
      as (Hw & _ & _);
      destruct (fold_left f before st) as [r1 k1]
  end.
  cbn [fst Lesson6.rWarnings] in Hw.
  unfold Lesson6.process_step. rewrite Htag.
  pose proof validators_New_UNT as HU. unfold error in *. rewrite HU.
  cbn [fst].
  set (r2 := match Lesson6.validateUNT unt with
             | Some err => Lesson6.fail r1 ("UNT" +:+ ": " +:+ err)
             | None => r1
             end).
  assert (Hw2 : Lesson6.rWarnings r2 = []).
  { unfold r2. destruct (Lesson6.validateUNT unt); exact Hw. }
  rewrite (envelope_warnings message _ (Lesson6.extractServiceSegmentInfo (clock k1) unt)).
  2: { cbn [Lesson6.record Lesson6.rServiceSegs]. apply lookup_insert_eq. }
  cbn [Lesson6.record Lesson6.rWarnings]. rewrite Hw2, extract_UNT_count by exact Htag.
  rewrite Hsegs, length_app. cbn [List.length app].
  replace (Z.of_nat (List.length before + 1) - 2)%Z with expected
    by (unfold expected; lia).
  reflexivity.
Qed.

(** X18 on the first sample of the lesson, whose trailer counts the
    header and itself: eight segments, [UNT+7+1'], and a warning. *)
Lemma ProcessMessage_segment_count_witness :
  let message :=
    Lesson6.ParseEDIFACTMessage
      "UNH+1+INVOIC:D:97A:UN'BGM+380+INV12345+9'DTM+137:20231201:102'NAD+BY+++ACME CORP'LIN+1++ITEM001:EN'QTY+12:100:PCE'PRI+AAA:25.50:CT'UNT+7+1'" in
  Lesson6.rWarnings
    (fst (Lesson6.ProcessMessage (fun _ => 0%Z) Lesson6.NewServiceSegmentHandler message))
  = ["Segment count mismatch: expected 6, found 7"].
Proof.
  intros message.
  assert (Hsegs : Lesson6.Segments message
                  = removelast (Lesson6.Segments message)
                    ++ [ {| Lesson6.Tag := "UNT"; Lesson6.Elements := ["7"; "1"];
                            Lesson6.Position := 7; Lesson6.Raw := "UNT+7+1'" |} ])
    by (vm_compute; reflexivity).
  rewrite (ProcessMessage_segment_count (fun _ => 0%Z) message _ _ Hsegs eq_refl).
  vm_compute. reflexivity.
Defined.

(** X19. In a message that starts with a header [UNH], ends with a
    trailer [UNT] and holds no other segment with one of these tags, a
    message reference in the header and a different one in the trailer, both
    non-empty, make the result of [ProcessMessage] invalid, whatever the
    validators are: the mismatch is the last error reported. *)
Theorem ProcessMessage_reference_mismatch
        (clock : nat -> Z) (ssh : Lesson6.ServiceSegmentHandler)
        (message : Lesson6.EDIFACTMessage)
        (unh unt : Lesson6.Segment) (body : list Lesson6.Segment) :
  Lesson6.Segments message = unh :: body ++ [unt] ->
  Lesson6.Tag unh = "UNH" ->
  Lesson6.Tag unt = "UNT" ->
  Forall (fun seg => Lesson6.Tag seg <> "UNH" /\ Lesson6.Tag seg <> "UNT") body ->
  let unhRef := at_index (Lesson6.Elements unh) 0 in
  let untRef := at_index (Lesson6.Elements unt) 1 in
  unhRef <> "" -> untRef <> "" -> unhRef <> untRef ->
  let result := fst (Lesson6.ProcessMessage clock ssh message) in
  Lesson6.rValid result = false
  /\ exists errors,
      Lesson6.rErrors result
      = errors ++ ["Reference number mismatch: UNH=" +:+ unhRef +:+ ", UNT=" +:+ untRef].
Proof.
  intros Hsegs Hh Ht Hbody unhRef untRef H1 H2 H12 result.
  assert (E : fold_left Lesson6.refs_step (Lesson6.Segments message) ("", "")
              = (unhRef, untRef)).
  { rewrite Hsegs. cbn [fold_left]. rewrite fold_left_app. cbn [fold_left].
    unfold Lesson6.refs_step at 3. rewrite Hh.
    change (String.eqb "UNH" "UNH") with true.
    change (String.eqb "UNH" "UNT") with false.
    rewrite (at_index_nonempty _ _ H1). cbn [andb].
    rewrite refs_skip by exact Hbody.
    unfold Lesson6.refs_step. rewrite Ht.
    change (String.eqb "UNT" "UNH") with false.
    change (String.eqb "UNT" "UNT") with true.
    rewrite (at_index_nonempty _ _ H2). reflexivity. }
  unfold result, Lesson6.ProcessMessage.
  destruct (fold_left (Lesson6.process_step clock ssh) (Lesson6.Segments message) _)
    as [r k].
  cbn [fst].
  destruct (envelope_mismatch message r unhRef untRef E H1 H2 H12) as [Hv He].
  split; [exact Hv|]. exists (Lesson6.rErrors r). exact He.
Qed.

(** X19 on the fourth sample of the lesson: header 1, trailer 2. *)
Lemma ProcessMessage_reference_mismatch_witness :
  let message :=
    Lesson6.ParseEDIFACTMessage
      "UNH+1+INVOIC:D:97A:UN'BGM+380+INV12348+9'DTM+137:20231201:102'UNT+3+2'" in
  let result :=
    fst (Lesson6.ProcessMessage (fun _ => 0%Z) Lesson6.NewServiceSegmentHandler message) in
  Lesson6.rValid result = false
  /\ Lesson6.rErrors result = ["Reference number mismatch: UNH=1, UNT=2"].
Proof.
  intros message result.
  destruct (ProcessMessage_reference_mismatch
              (fun _ => 0%Z) Lesson6.NewServiceSegmentHandler message
              {| Lesson6.Tag := "UNH"; Lesson6.Elements := ["1"; "INVOIC:D:97A:UN"];
                 Lesson6.Position := 0; Lesson6.Raw := "UNH+1+INVOIC:D:97A:UN'" |}
              {| Lesson6.Tag := "UNT"; Lesson6.Elements := ["3"; "2"];
                 Lesson6.Position := 3; Lesson6.Raw := "UNT+3+2'" |}
              [ {| Lesson6.Tag := "BGM"; Lesson6.Elements := ["380"; "INV12348"; "9"];
                   Lesson6.Position := 1; Lesson6.Raw := "BGM+380+INV12348+9'" |};
                {| Lesson6.Tag := "DTM"; Lesson6.Elements := ["137:20231201:102"];
                   Lesson6.Position := 2; Lesson6.Raw := "DTM+137:20231201:102'" |} ])
    as [Hv _].
  - vm_compute. reflexivity.
  - reflexivity.
  - reflexivity.
  - repeat constructor; discriminate.
  - discriminate.
  - discriminate.
  - discriminate.
  - split; [exact Hv|]. vm_compute. reflexivity.
Defined.

(** X20. A header that [validateUNH] accepts is read in full by
    [extractServiceSegmentInfo]: the message type is the first component of
    the second element, the release and the version are its third and fourth
    components and are not empty, and the reference number is the first
    element. *)
Theorem validated_header_is_extracted (now : Z) (segment : Lesson6.Segment) :
  Lesson6.Tag segment = "UNH" ->
  Lesson6.validateUNH segment = None ->
  let parts := Split (at_index (Lesson6.Elements segment) 1) ":" in
  let info := Lesson6.extractServiceSegmentInfo now segment in
  Lesson6.iMessageType info = at_index parts 0
  /\ Lesson6.iRelease info = at_index parts 2
  /\ Lesson6.iVersion info = at_index parts 3
  /\ Lesson6.iRelease info <> ""
  /\ Lesson6.iVersion info <> ""
  /\ Lesson6.iReferenceNumber info = at_index (Lesson6.Elements segment) 0.
Proof.
  intros Ht Hv parts info. unfold info, Lesson6.extractServiceSegmentInfo.
  unfold Lesson6.validateUNH in Hv. rewrite Ht.
  change (String.eqb "UNH" "UNH") with true. cbv iota. fold parts in Hv |- *.
  destruct (len_ge (Lesson6.Elements segment) 2) eqn:H2; [|discriminate Hv].
  cbn [negb] in Hv.
  destruct (len_ge parts 4) eqn:H4; [|discriminate Hv]. cbn [negb] in Hv.
  assert (H1 : len_ge parts 1 = true).
  { unfold len_ge in *. apply Nat.leb_le. apply Nat.leb_le in H4. lia. }
  assert (H1' : len_ge (Lesson6.Elements segment) 1 = true).
  { unfold len_ge in *. apply Nat.leb_le. apply Nat.leb_le in H2. lia. }
  rewrite H1, H1'. cbn.
  destruct (String.eqb_spec (at_index parts 2) "") as [?|Hr]; [discriminate Hv|].
  destruct (String.eqb_spec (at_index parts 3) "") as [?|Hver]; [discriminate Hv|].
  repeat split; assumption.
Qed.

(** X20 on the header of the samples. *)
Lemma validated_header_is_extracted_witness :
  let segment :=
    {| Lesson6.Tag := "UNH"; Lesson6.Elements := ["1"; "INVOIC:D:97A:UN"];
       Lesson6.Position := 0; Lesson6.Raw := "UNH+1+INVOIC:D:97A:UN'" |} in
  Lesson6.iReferenceNumber (Lesson6.extractServiceSegmentInfo 0 segment) = "1"
  /\ Lesson6.iRelease (Lesson6.extractServiceSegmentInfo 0 segment) <> "".
Proof.
  intros segment.
  destruct (validated_header_is_extracted 0 segment eq_refl eq_refl)
    as (_ & _ & _ & Hr & _ & Href).
  split; [exact Href | exact Hr].
Defined.

(** ** Handlers in sequence and in the registry (advanced lesson 2) *)

Section Handlers.

Import AdvLesson2.

Lemma calls_app (t1 t2 : list event) : calls (t1 ++ t2) = calls t1 ++ calls t2.
Proof. unfold calls. apply flat_map_app. Qed.

Lemma composite_loop_cons (i : Z) (h : MessageHandler) (more : list MessageHandler)
      (m : EDIFACTMessage) :
  fst (composite_loop i (h :: more) m)
  = match Process h m with
    | Some e => Some ("handler " +:+ GetMessageType h +:+ " failed: " +:+ e)
    | None => fst (composite_loop (i + 1) more m)
    end
  /\ calls (snd (composite_loop i (h :: more) m))
     = addr h :: match Process h m with
                 | Some _ => []
                 | None => calls (snd (composite_loop (i + 1) more m))
                 end.
Proof.
  cbn [composite_loop]. unfold bind, printf, call, ret.
  destruct (Process h m) as [e|].
  - split; reflexivity.
  - destruct (composite_loop (i + 1) more m) as [r t]. cbn [fst snd].
    split; [reflexivity|]. rewrite !calls_app. reflexivity.
Qed.

Lemma composite_loop_all (hs : list MessageHandler) (m : EDIFACTMessage) :
  Forall (fun h => Process h m = None) hs ->
  forall i, fst (composite_loop i hs m) = None
            /\ calls (snd (composite_loop i hs m)) = map addr hs.
Proof.
  induction 1 as [|h hs Hh _ IH]; intros i; [split; reflexivity|].
  destruct (composite_loop_cons i h hs m) as [Hr Hc]. rewrite Hr, Hc, Hh.
  destruct (IH (i + 1)%Z) as [-> ->]. split; reflexivity.
Qed.

Lemma composite_loop_stop (pre post : list MessageHandler) (h : MessageHandler)
      (m : EDIFACTMessage) (e : string) :
  Forall (fun h => Process h m = None) pre ->
  Process h m = Some e ->
  forall i,
    fst (composite_loop i (pre ++ h :: post) m)
    = Some ("handler " +:+ GetMessageType h +:+ " failed: " +:+ e)
    /\ calls (snd (composite_loop i (pre ++ h :: post) m)) = map addr pre ++ [addr h].
Proof.
  intros Hpre He. induction Hpre as [|h0 pre Hh _ IH]; intros i.
  - cbn [app map]. destruct (composite_loop_cons i h post m) as [Hr Hc].
    rewrite Hr, Hc, He. split; reflexivity.
  - cbn [app map]. destruct (composite_loop_cons i h0 (pre ++ h :: post) m) as [Hr Hc].
    rewrite Hr, Hc, Hh. destruct (IH (i + 1)%Z) as [-> ->]. split; reflexivity.
Qed.

Lemma Process_trace (ch : CompositeHandler) (m : EDIFACTMessage) :
  fst (CompositeHandler_Process ch m) = fst (composite_loop 0 (members ch) m)
  /\ calls (snd (CompositeHandler_Process ch m))
     = calls (snd (composite_loop 0 (members ch) m)).
Proof.
  unfold CompositeHandler_Process, bind, printf.
  destruct (composite_loop 0 (members ch) m) as [r t]. split; reflexivity.
Qed.

End Handlers.

(** X21. A composite handler runs its handlers in the order given.  When
    all of them return [nil] it returns [nil] and has run each of them once;
    when one fails, the handlers before it having returned [nil], it returns
    that error under the name of the failing handler and runs none of the
    handlers after it. *)
Theorem CompositeHandler_stops_at_first_error
        (message : AdvLesson2.EDIFACTMessage)
        (before after : list AdvLesson2.MessageHandler) :
  Forall (fun h => AdvLesson2.Process h message = None) before ->
  (let out := AdvLesson2.CompositeHandler_Process
                (AdvLesson2.NewCompositeHandler before) message in
   fst out = None /\ AdvLesson2.calls (snd out) = map AdvLesson2.addr before)
  /\
  (forall h e,
      AdvLesson2.Process h message = Some e ->
      let out := AdvLesson2.CompositeHandler_Process
                   (AdvLesson2.NewCompositeHandler (before ++ h :: after)) message in
      fst out = Some ("handler " +:+ AdvLesson2.GetMessageType h +:+ " failed: " +:+ e)
      /\ AdvLesson2.calls (snd out)
         = map AdvLesson2.addr before ++ [AdvLesson2.addr h]).
Proof.
  intros Hb. split.
  - intros out. unfold out.
    destruct (Process_trace (AdvLesson2.NewCompositeHandler before) message)
      as [-> ->].
    now apply composite_loop_all.
  - intros h e He out. unfold out.
    destruct (Process_trace (AdvLesson2.NewCompositeHandler (before ++ h :: after))
                            message) as [-> ->].
    now apply composite_loop_stop.
Qed.

(** X21 on the composite of [main], a generic handler followed by an
    invoice handler, with an order handler put behind them: on an invoice
    without a number the invoice handler fails and the order handler is not
    run. *)
Lemma CompositeHandler_stops_at_first_error_witness :
  let message := AdvLesson2.ParseEDIFACTMessage AdvLesson2.invoiceWithoutNumber in
  let out :=
    AdvLesson2.CompositeHandler_Process
      (AdvLesson2.NewCompositeHandler
         ([AdvLesson2.GenericHandler 1] ++ AdvLesson2.NewInvoiceHandler 2
                                        :: [AdvLesson2.NewOrderHandler 3]))
      message in
  fst out = Some "handler INVOIC failed: validation failed: invoice number is required"
  /\ AdvLesson2.calls (snd out) = [1; 2].
Proof.
  intros message out.
  assert (Hb : Forall (fun h => AdvLesson2.Process h message = None)
                      [AdvLesson2.GenericHandler 1]) by (repeat constructor).
  assert (He : AdvLesson2.Process (AdvLesson2.NewInvoiceHandler 2) message
               = Some "validation failed: invoice number is required")
    by (vm_compute; reflexivity).
  exact (proj2 (CompositeHandler_stops_at_first_error
                  message [AdvLesson2.GenericHandler 1] [AdvLesson2.NewOrderHandler 3] Hb)
               (AdvLesson2.NewInvoiceHandler 2) _ He).
Defined.

(** X22. Registering a handler for one message type leaves the routing of
    every message of another type as it was: the same handler is run and
    the same result returned. *)
Theorem RegisterHandler_other_type
        (md : AdvLesson2.MessageDetector) (ty : string)
        (h : AdvLesson2.MessageHandler) (message : AdvLesson2.EDIFACTMessage) :
  ty <> AdvLesson2.MessageType message ->
  AdvLesson2.DetectAndRoute (AdvLesson2.RegisterHandler md ty h) message
  = AdvLesson2.DetectAndRoute md message.
Proof.
  intros Hne. unfold AdvLesson2.DetectAndRoute, AdvLesson2.RegisterHandler.
  cbn [AdvLesson2.handlers AdvLesson2.fallback].
  now rewrite lookup_insert_ne by exact Hne.
Qed.

(** X22 on the invoice of [main], with an order handler registered after
    the invoice handler. *)
Lemma RegisterHandler_other_type_witness :
  let md := AdvLesson2.RegisterHandler (AdvLesson2.NewMessageDetector 0) "INVOIC"
                                       (AdvLesson2.NewInvoiceHandler 1) in
  let message := AdvLesson2.ParseEDIFACTMessage AdvLesson2.invoiceMessage in
  AdvLesson2.DetectAndRoute
    (AdvLesson2.RegisterHandler md "ORDERS" (AdvLesson2.NewOrderHandler 2)) message
  = AdvLesson2.DetectAndRoute md message.
Proof.
  intros md message.
  assert (Hne : "ORDERS" <> AdvLesson2.MessageType message)
    by (vm_compute; discriminate).
  exact (RegisterHandler_other_type md "ORDERS" (AdvLesson2.NewOrderHandler 2)
                                    message Hne).
Defined.

(** ** The invoice handler (advanced lesson 2) *)

Section InvoiceHandler.

Import AdvLesson2.

Lemma step_Number (inv : Invoice) (seg : Segment) :
  Number (extractInvoice_step inv seg)
  = if has_number seg then at_index (Elements seg) 1 else Number inv.
Proof.
  unfold extractInvoice_step, has_number.
  destruct (String.eqb (Tag seg) "BGM"); cbn [andb].
  - destruct (len_gt (Elements seg) 1); reflexivity.
  - repeat match goal with
           | |- context [if ?b then _ else _] => destruct b
           end; reflexivity.
Qed.

Lemma step_Items (inv : Invoice) (seg : Segment) :
  Items (extractInvoice_step inv seg)
  = Items inv
    ++ (if is_line_item seg
        then [ {| ProductCode := at_index (Split (at_index (Elements seg) 2) ":") 0 |} ]
        else []).
Proof.
  unfold extractInvoice_step, is_line_item.
  destruct (String.eqb_spec (Tag seg) "BGM") as [E|_].
  { rewrite E. change (String.eqb "BGM" "LIN") with false. cbn [andb].
    rewrite app_nil_r. destruct (len_gt (Elements seg) 1); reflexivity. }
  destruct (String.eqb_spec (Tag seg) "DTM") as [E|_].
  { rewrite E. change (String.eqb "DTM" "LIN") with false. cbn [andb].
    rewrite app_nil_r.
    destruct (len_gt (Elements seg) 0); [|reflexivity].
    destruct (len_gt (Split (at_index (Elements seg) 0) ":") 1); reflexivity. }
  destruct (String.eqb (Tag seg) "LIN"); cbn [andb]; [|now rewrite app_nil_r].
  destruct (len_gt (Elements seg) 2); [|now rewrite app_nil_r].
  pose proof (Split_nonempty_sep (at_index (Elements seg) 2) ":" ltac:(discriminate)) as Hne.
  destruct (Split (at_index (Elements seg) 2) ":") as [|c cs]; [congruence|].
  reflexivity.
Qed.

Lemma fold_Number_skip (segs : list Segment) :
  Forall (fun seg => has_number seg = false) segs ->
  forall inv, Number (fold_left extractInvoice_step segs inv) = Number inv.
Proof.
  induction 1 as [|seg segs Hs _ IH]; intros inv; [reflexivity|].
  cbn [fold_left]. rewrite IH, step_Number, Hs. reflexivity.
Qed.

Lemma fold_Items (segs : list Segment) :
  forall inv,
    map ProductCode (Items (fold_left extractInvoice_step segs inv))
    = map ProductCode (Items inv)
      ++ map (fun seg => at_index (Split (at_index (Elements seg) 2) ":") 0)
             (List.filter is_line_item segs).
Proof.
  induction segs as [|seg segs IH]; intros inv.
  - cbn. now rewrite app_nil_r.
  - cbn [fold_left List.filter]. rewrite IH, step_Items, map_app.
    destruct (is_line_item seg); cbn [map]; rewrite <- app_assoc; reflexivity.
Qed.

Lemma Process_by_Number (m : EDIFACTMessage) :
  InvoiceHandler_Process m
  = if String.eqb (Number (extractInvoice m)) ""
    then Some "validation failed: invoice number is required" else None.
Proof.
  unfold InvoiceHandler_Process, InvoiceValidator_Validate.
  destruct (String.eqb (Number (extractInvoice m)) ""); reflexivity.
Qed.

End InvoiceHandler.

(** X23. The invoice handler accepts a message exactly on the invoice
    number it reads, the second element of the last segment tagged [BGM]
    that has two elements or more: a message without such a segment is
    rejected for its missing number, and a message with one is rejected when
    that element is empty and accepted otherwise, whatever else it holds. *)
Theorem InvoiceHandler_needs_number (message : AdvLesson2.EDIFACTMessage) :
  (Forall (fun seg => has_number seg = false) (AdvLesson2.Segments message) ->
   AdvLesson2.InvoiceHandler_Process message
   = Some "validation failed: invoice number is required")
  /\
  (forall before bgm after,
      AdvLesson2.Segments message = before ++ bgm :: after ->
      has_number bgm = true ->
      Forall (fun seg => has_number seg = false) after ->
      AdvLesson2.InvoiceHandler_Process message
      = if String.eqb (at_index (AdvLesson2.Elements bgm) 1) ""
        then Some "validation failed: invoice number is required"
        else None).
Proof.
  split.
  - intros H. rewrite Process_by_Number. unfold AdvLesson2.extractInvoice.
    now rewrite fold_Number_skip by exact H.
  - intros before bgm after Hsegs Hb Hafter.
    rewrite Process_by_Number. unfold AdvLesson2.extractInvoice.
    rewrite Hsegs, fold_left_app. cbn [fold_left].
    rewrite fold_Number_skip by exact Hafter.
    now rewrite step_Number, Hb.
Qed.

(** X23 on the invoice of [main], and on an invoice with two [BGM]
    segments of which the last has an empty number. *)
Lemma InvoiceHandler_needs_number_witness :
  AdvLesson2.InvoiceHandler_Process
    (AdvLesson2.ParseEDIFACTMessage AdvLesson2.invoiceWithoutNumber)
  = Some "validation failed: invoice number is required"
  /\ AdvLesson2.InvoiceHandler_Process
       (AdvLesson2.ParseEDIFACTMessage "UNH+1+INVOIC:D:97A:UN'BGM+380+INV1'BGM+380+'")
     = Some "validation failed: invoice number is required".
Proof.
  split.
  - apply (proj1 (InvoiceHandler_needs_number _)).
    vm_compute. repeat constructor.
  - apply (proj2 (InvoiceHandler_needs_number
                    (AdvLesson2.ParseEDIFACTMessage
                       "UNH+1+INVOIC:D:97A:UN'BGM+380+INV1'BGM+380+'"))
                 [ {| AdvLesson2.Tag := "UNH";
                      AdvLesson2.Elements := ["1"; "INVOIC:D:97A:UN"] |};
                   {| AdvLesson2.Tag := "BGM"; AdvLesson2.Elements := ["380"; "INV1"] |} ]
                 {| AdvLesson2.Tag := "BGM"; AdvLesson2.Elements := ["380"; ""] |}
                 []).
    + vm_compute. reflexivity.
    + reflexivity.
    + constructor.
Defined.

(** X24. The items of the extracted invoice are read from the segments
    tagged [LIN] that have three elements or more, one item for each, in the
    order of the message; the product code of an item is the first component
    of the third element. *)
Theorem extractInvoice_items (message : AdvLesson2.EDIFACTMessage) :
  map AdvLesson2.ProductCode (AdvLesson2.Items (AdvLesson2.extractInvoice message))
  = map (fun seg => at_index (Split (at_index (AdvLesson2.Elements seg) 2) ":") 0)
        (List.filter is_line_item (AdvLesson2.Segments message)).
Proof. unfold AdvLesson2.extractInvoice. now rewrite fold_Items. Qed.

(** ** The three message parsers *)

Section Parsers.

Lemma parse_loop6_spec (pieces : list string) :
  forall i message,
    Lesson6.parse_loop i pieces message
    = {| Lesson6.MessageType :=
           fold_left type_step (segments_of i pieces) (Lesson6.MessageType message);
         Lesson6.Segments :=
           Lesson6.Segments message ++ map with_raw (segments_of i pieces);
         Lesson6.RawContent := Lesson6.RawContent message;
         Lesson6.Interchange := Lesson6.Interchange message |}.
Proof.
  induction pieces as [|piece more IH]; intros i message.
  - cbn [Lesson6.parse_loop segments_of fold_left map]. rewrite app_nil_r.
    now destruct message.
  - cbn [Lesson6.parse_loop segments_of].
    destruct (String.eqb piece ""); [apply IH|].
    pose proof (Join_Split piece "+") as HJ.
    pose proof (Split_nonempty_sep piece "+" ltac:(discriminate)) as Hne.
    destruct (Split piece "+") as [|p0 elems]; [congruence|].
    rewrite IH. cbn [fold_left map Lesson6.Tag Lesson6.Elements].
    change (type_step (Lesson6.MessageType message)
                      {| Lesson4.Tag := p0; Lesson4.Elements := elems;
                         Lesson4.Position := i |})
      with (if is_header p0 elems then header_type elems
            else Lesson6.MessageType message).
    change (with_raw {| Lesson4.Tag := p0; Lesson4.Elements := elems;
                        Lesson4.Position := i |})
      with {| Lesson6.Tag := p0; Lesson6.Elements := elems; Lesson6.Position := i;
              Lesson6.Raw := Join (p0 :: elems) "+" +:+ "'" |}.
    rewrite HJ. unfold is_header.
    destruct (String.eqb p0 "UNH" && len_gt elems 1) eqn:Hh.
    + pose proof (Split_nonempty_sep (at_index elems 1) ":" ltac:(discriminate)) as Hc.
      unfold header_type.
      destruct (Split (at_index elems 1) ":") as [|t ts]; [congruence|].
      cbn [Lesson6.MessageType Lesson6.Segments Lesson6.RawContent
           Lesson6.Interchange hd].
      now rewrite <- app_assoc.
    + cbn [Lesson6.MessageType Lesson6.Segments Lesson6.RawContent Lesson6.Interchange].
      now rewrite <- app_assoc.
Qed.

Lemma parse_loopA_spec (pieces : list string) :
  forall (i : Z) message,
    AdvLesson2.parse_loop pieces message
    = {| AdvLesson2.MessageType :=
           fold_left type_step (segments_of i pieces) (AdvLesson2.MessageType message);
         AdvLesson2.Segments :=
           AdvLesson2.Segments message ++ map without_position (segments_of i pieces);
         AdvLesson2.RawContent := AdvLesson2.RawContent message |}.
Proof.
  induction pieces as [|piece more IH]; intros i message.
  - cbn [AdvLesson2.parse_loop segments_of fold_left map]. rewrite app_nil_r.
    now destruct message.
  - cbn [AdvLesson2.parse_loop segments_of].
    destruct (String.eqb piece ""); [apply IH|].
    pose proof (Split_nonempty_sep piece "+" ltac:(discriminate)) as Hne.
    destruct (Split piece "+") as [|p0 elems]; [congruence|].
    rewrite (IH (i + 1)%Z). cbn [fold_left map AdvLesson2.Tag AdvLesson2.Elements].
    change (type_step (AdvLesson2.MessageType message)
                      {| Lesson4.Tag := p0; Lesson4.Elements := elems;
                         Lesson4.Position := i |})
      with (if is_header p0 elems then header_type elems
            else AdvLesson2.MessageType message).
    change (without_position {| Lesson4.Tag := p0; Lesson4.Elements := elems;
                                Lesson4.Position := i |})
      with {| AdvLesson2.Tag := p0; AdvLesson2.Elements := elems |}.
    unfold is_header.
    destruct (String.eqb p0 "UNH" && len_gt elems 1) eqn:Hh.
    + pose proof (Split_nonempty_sep (at_index elems 1) ":" ltac:(discriminate)) as Hc.
      unfold header_type.
      destruct (Split (at_index elems 1) ":") as [|t ts]; [congruence|].
      cbn [AdvLesson2.MessageType AdvLesson2.Segments AdvLesson2.RawContent hd].
      now rewrite <- app_assoc.
    + cbn [AdvLesson2.MessageType AdvLesson2.Segments AdvLesson2.RawContent].
      now rewrite <- app_assoc.
Qed.

End Parsers.

(** X25. The message parsers of lesson 4, of lesson 6 and of the advanced
    lesson 2 agree on every raw text: they find the same message type and
    the same segments, with the same tags and elements in the same order.
    Lesson 6 adds to each segment its raw text, which is the segment written
    with [+] and closed by the terminator; the advanced lesson 2 leaves the
    position out. *)
Theorem parsers_agree (raw : string) :
  let m4 := Lesson4.ParseEDIFACTMessage raw in
  let m6 := Lesson6.ParseEDIFACTMessage raw in
  let mA := AdvLesson2.ParseEDIFACTMessage raw in
  Lesson6.MessageType m6 = Lesson4.MessageType m4
  /\ AdvLesson2.MessageType mA = Lesson4.MessageType m4
  /\ Lesson6.Segments m6 = map with_raw (Lesson4.Segments m4)
  /\ AdvLesson2.Segments mA = map without_position (Lesson4.Segments m4)
  /\ Lesson6.Interchange m6 = None.
Proof.
  intros m4 m6 mA. unfold m4, m6, mA.
  rewrite ParseEDIFACTMessage_spec.
  unfold Lesson6.ParseEDIFACTMessage, AdvLesson2.ParseEDIFACTMessage.
  rewrite parse_loop6_spec, (parse_loopA_spec _ 0%Z).
  repeat split.
Qed.

(** ** The order handler (advanced lesson 2) *)

Section OrderHandler.

Import AdvLesson2.

Lemma step_OrderNumber (order : Order) (seg : Segment) :
  OrderNumber (extractOrder_step order seg)
  = if has_number seg then at_index (Elements seg) 1 else OrderNumber order.
Proof.
  unfold extractOrder_step, has_number.
  destruct (String.eqb (Tag seg) "BGM"); cbn [andb].
  - destruct (len_gt (Elements seg) 1); reflexivity.
  - repeat match goal with
           | |- context [if ?b then _ else _] => destruct b
           end; reflexivity.
Qed.

Lemma fold_OrderNumber_skip (segs : list Segment) :
  Forall (fun seg => has_number seg = false) segs ->
  forall order, OrderNumber (fold_left extractOrder_step segs order) = OrderNumber order.
Proof.
  induction 1 as [|seg segs Hs _ IH]; intros order; [reflexivity|].
  cbn [fold_left]. rewrite IH, step_OrderNumber, Hs. reflexivity.
Qed.

Lemma OrderProcess_by_Number (m : EDIFACTMessage) :
  OrderHandler_Process m
  = if String.eqb (OrderNumber (extractOrder m)) ""
    then Some "validation failed: order number is required" else None.
Proof.
  unfold OrderHandler_Process, OrderValidator_Validate.
  destruct (String.eqb (OrderNumber (extractOrder m)) ""); reflexivity.
Qed.

End OrderHandler.

(** X26. The order handler decides on the order number as the invoice
    handler does on the invoice number: without a segment tagged [BGM] that
    has two elements or more the message is rejected for its missing number;
    with one, the second element of the last such segment decides, empty for
    a rejection and anything else for [nil]. *)
Theorem OrderHandler_needs_number (message : AdvLesson2.EDIFACTMessage) :
  (Forall (fun seg => has_number seg = false) (AdvLesson2.Segments message) ->
   AdvLesson2.OrderHandler_Process message
   = Some "validation failed: order number is required")
  /\
  (forall before bgm after,
      AdvLesson2.Segments message = before ++ bgm :: after ->
      has_number bgm = true ->
      Forall (fun seg => has_number seg = false) after ->
      AdvLesson2.OrderHandler_Process message
      = if String.eqb (at_index (AdvLesson2.Elements bgm) 1) ""
        then Some "validation failed: order number is required"
        else None).
Proof.
  split.
  - intros H. rewrite OrderProcess_by_Number. unfold AdvLesson2.extractOrder.
    now rewrite fold_OrderNumber_skip by exact H.
  - intros before bgm after Hsegs Hb Hafter.
    rewrite OrderProcess_by_Number. unfold AdvLesson2.extractOrder.
    rewrite Hsegs, fold_left_app. cbn [fold_left].
    rewrite fold_OrderNumber_skip by exact Hafter.
    now rewrite step_OrderNumber, Hb.
Qed.

(** X26 on an order whose only [BGM] segment has no second element. *)
Lemma OrderHandler_needs_number_witness :
  AdvLesson2.OrderHandler_Process
    (AdvLesson2.ParseEDIFACTMessage "UNH+1+ORDERS:D:97A:UN'BGM+220'UNT+3+1'")
  = Some "validation failed: order number is required".
Proof.
  apply (proj1 (OrderHandler_needs_number _)).
  vm_compute. repeat constructor.
Defined.

(** ** What [ProcessMessage] records (lesson 6) *)

Section Recorded.

Import Lesson6.

Lemma process_step_errors (clock : nat -> Z) (ssh : ServiceSegmentHandler)
      (r : ServiceSegmentResult) (k : nat) (seg : Segment) :
  rErrors (fst (process_step clock ssh (r, k) seg))
  = rErrors r ++ validator_errors ssh seg
  /\ snd (process_step clock ssh (r, k) seg)
     = k + (if is_validated ssh seg then 1 else 0).
Proof.
  unfold process_step, validator_errors, is_validated.
  destruct (validators ssh !! Tag seg) as [v|]; cbn [fst snd].
  - destruct (v seg); cbn [record fail rErrors]; split; try lia;
      now rewrite ?app_nil_r.
  - split; [now rewrite app_nil_r | lia].
Qed.

Lemma process_loop_errors (clock : nat -> Z) (ssh : ServiceSegmentHandler)
      (segs : list Segment) :
  forall r k,
    rErrors (fst (fold_left (process_step clock ssh) segs (r, k)))
    = rErrors r ++ flat_map (validator_errors ssh) segs
    /\ snd (fold_left (process_step clock ssh) segs (r, k))
       = k + List.length (List.filter (is_validated ssh) segs).
Proof.
  induction segs as [|seg segs IH]; intros r k.
  - cbn. split; [now rewrite app_nil_r | lia].
  - cbn [fold_left flat_map List.filter].
    destruct (process_step_errors clock ssh r k seg) as [He Hk].
    destruct (process_step clock ssh (r, k) seg) as [r1 k1]. cbn [fst snd] in He, Hk.
    destruct (IH r1 k1) as [-> ->]. rewrite He, Hk.
    split; [now rewrite <- app_assoc|].
    destruct (is_validated ssh seg); cbn [List.length]; lia.
Qed.

Lemma process_loop_other (clock : nat -> Z) (ssh : ServiceSegmentHandler)
      (tag : string) (segs : list Segment) :
  Forall (fun seg => Tag seg <> tag) segs ->
  forall st,
    rServiceSegs (fst (fold_left (process_step clock ssh) segs st)) !! tag
    = rServiceSegs (fst st) !! tag.
Proof.
  induction 1 as [|seg segs Hs _ IH]; intros st; [reflexivity|].
  cbn [fold_left]. rewrite IH. destruct st as [r k]. unfold process_step.
  destruct (validators ssh !! Tag seg) as [v|]; cbn [fst]; [|reflexivity].
  cbn [record rServiceSegs]. rewrite lookup_insert_ne by exact Hs.
  now destruct (v seg).
Qed.


End Recorded.


(** X28. [ProcessMessage] keeps, for each tag with a validator, what it
    extracts from the last segment of the message with that tag: a later
    segment replaces an earlier one.  The time stamp of the entry is the
    clock reading that follows one reading for every service segment
    before. *)
Theorem ProcessMessage_keeps_last
        (clock : nat -> Z) (ssh : Lesson6.ServiceSegmentHandler)
        (message : Lesson6.EDIFACTMessage)
        (before after : list Lesson6.Segment) (seg : Lesson6.Segment) :
  Lesson6.Segments message = before ++ seg :: after ->
  is_validated ssh seg = true ->
  Forall (fun s => Lesson6.Tag s <> Lesson6.Tag seg) after ->
  Lesson6.rServiceSegs (fst (Lesson6.ProcessMessage clock ssh message))
  !! Lesson6.Tag seg
  = Some (Lesson6.extractServiceSegmentInfo
            (clock (List.length (List.filter (is_validated ssh) before))) seg).
Proof.
  intros Hsegs Hv Hafter. unfold Lesson6.ProcessMessage.
  rewrite Hsegs at 1. rewrite fold_left_app. cbn [fold_left].
  match goal with
  | |- context [fold_left ?f before (?r0, 0)] =>
    destruct (process_loop_errors clock ssh before r0 0) as [_ Hk];
      destruct (fold_left f before (r0, 0)) as [r k]
  end.
  cbn [snd] in Hk. subst k. cbn [Nat.add].
  match goal with
  | |- context [fold_left ?f after ?st] =>
    pose proof (process_loop_other clock ssh (Lesson6.Tag seg) after Hafter st) as Ho;
      destruct (fold_left f after st) as [r2 k2]
  end.
  cbn [fst] in *.
  destruct (envelope_inv message r2) as (_ & -> & _). rewrite Ho.
  unfold Lesson6.process_step. unfold is_validated in Hv.
  destruct (Lesson6.validators ssh !! Lesson6.Tag seg) as [v|]; [|discriminate Hv].
  cbn [fst Lesson6.record Lesson6.rServiceSegs]. apply lookup_insert_eq.
Qed.

(** X28 on a text with two headers: the entry for [UNH] is read from the
    second, at the second clock reading. *)
Lemma ProcessMessage_keeps_last_witness :
  let message :=
    Lesson6.ParseEDIFACTMessage "UNH+1+INVOIC:D:97A:UN'BGM+380+I1'UNH+2+ORDERS:D:97A:UN'" in
  let clock := fun k : nat => (100 + Z.of_nat k)%Z in
  option_map (fun info => (Lesson6.iReferenceNumber info, Lesson6.iTimestamp info))
             (Lesson6.rServiceSegs
                (fst (Lesson6.ProcessMessage clock Lesson6.NewServiceSegmentHandler message))
              !! "UNH")
  = Some ("2", 101%Z).
Proof.
  intros message clock.
  pose proof (ProcessMessage_keeps_last
                clock Lesson6.NewServiceSegmentHandler message
                [ {| Lesson6.Tag := "UNH"; Lesson6.Elements := ["1"; "INVOIC:D:97A:UN"];
                     Lesson6.Position := 0; Lesson6.Raw := "UNH+1+INVOIC:D:97A:UN'" |};
                  {| Lesson6.Tag := "BGM"; Lesson6.Elements := ["380"; "I1"];
                     Lesson6.Position := 1; Lesson6.Raw := "BGM+380+I1'" |} ]
                []
                {| Lesson6.Tag := "UNH"; Lesson6.Elements := ["2"; "ORDERS:D:97A:UN"];
                   Lesson6.Position := 2; Lesson6.Raw := "UNH+2+ORDERS:D:97A:UN'" |})
    as H.
  assert (H1 : Lesson6.Segments message
               = [ {| Lesson6.Tag := "UNH"; Lesson6.Elements := ["1"; "INVOIC:D:97A:UN"];
                      Lesson6.Position := 0; Lesson6.Raw := "UNH+1+INVOIC:D:97A:UN'" |};
                   {| Lesson6.Tag := "BGM"; Lesson6.Elements := ["380"; "I1"];
                      Lesson6.Position := 1; Lesson6.Raw := "BGM+380+I1'" |} ]
                 ++ {| Lesson6.Tag := "UNH"; Lesson6.Elements := ["2"; "ORDERS:D:97A:UN"];
                       Lesson6.Position := 2; Lesson6.Raw := "UNH+2+ORDERS:D:97A:UN'" |}
                    :: []) by (vm_compute; reflexivity).
  specialize (H H1 ltac:(vm_compute; reflexivity) ltac:(constructor)).
  cbn [Lesson6.Tag] in H. rewrite H. vm_compute. reflexivity.
Defined.
